(** * Maytronics Dolphin cloud connectivity: embedding and verified properties

    A shallow embedding of the TypeScript sources of the Homey app
    com.maytronics.dolphin:

    - [lib/constants.ts]      topics, enumerations, [calculateState],
                              [getFilterBagStatus];
    - [lib/aws-sig-v4.ts]     [signWebSocketUrl] (both revisions that the
                              sources contain);
    - [lib/MaytronicsCloud.ts] the MQTT session ([connect], [disconnect],
                              [sendCommand], the transport event handlers),
                              first with every call run to completion, then
                              with the suspension points of the two [async]
                              methods;
    - [drivers/dolphin/device.ts] [onStateUpdate] and [handleStatusChange],
                              the LED commands, the three timers,
                              [connectToCloud] and the timer callbacks;
    - [drivers/dolphin/driver.ts] the [is_cleaning] condition;
    - [lib/MaytronicsApi.ts]  the retry loop of [encryptMotorUnitSerial].

    Part I holds the embedding, Part II the properties the specification
    states, Part III further properties read off the code.

    Conventions.  A JavaScript string is a Rocq [string], read as the bytes
    of its UTF-8 encoding.  Integers are [Z].  Mutable object fields become
    record fields threaded through a state-and-trace monad; everything the
    code hands to a collaborator (an emitted event, an MQTT publish, a Homey
    capability write, a flow trigger) is recorded, in program order, in the
    trace. *)

From Stdlib Require Import ZArith String Ascii List Bool Lia.
From stdpp Require Import base gmap strings list pretty.
Import ListNotations.

Open Scope string_scope.
Open Scope Z_scope.

(* ================================================================== *)
(** * Part I. The embedding                                            *)
(* ================================================================== *)

(** ** lib/constants.ts *)

Definition AWS_IOT_ENDPOINT : string :=
  "a12rqfdx55bdbv-ats.iot.eu-west-1.amazonaws.com".
Definition AWS_REGION : string := "eu-west-1".

Definition getShadowGetTopic (motorUnitSerial : string) : string :=
  "$aws/things/" ++ motorUnitSerial ++ "/shadow/get".

Definition getShadowUpdateTopic (motorUnitSerial : string) : string :=
  "$aws/things/" ++ motorUnitSerial ++ "/shadow/update".

Definition getShadowWildcardTopic (motorUnitSerial : string) : string :=
  "$aws/things/" ++ motorUnitSerial ++ "/shadow/#".

Definition getDynamicTopic (motorUnitSerial : string) : string :=
  "Maytronics/" ++ motorUnitSerial ++ "/main".

(** [enum PwsState]: the members are string constants. *)
Module PwsState.
Definition On : string := "on".
Definition Off : string := "off".
Definition HoldDelay : string := "holdDelay".
Definition HoldWeekly : string := "holdWeekly".
Definition Programming : string := "programming".
Definition Error : string := "error".
End PwsState.

(** [enum RobotState]. *)
Module RobotState.
Definition Fault : string := "fault".
Definition NotConnected : string := "notConnected".
Definition Programming : string := "programming".
Definition Init : string := "init".
Definition Scanning : string := "scanning".
Definition Finished : string := "finished".
End RobotState.

(** [enum CalculatedState]: the seven derived statuses, with the string each
    member stands for at run time. *)
Module CalculatedState.
Inductive t : Set :=
| Off | Cleaning | Error | Init | Programming | HoldDelay | HoldWeekly.

Definition value (s : t) : string :=
  match s with
  | Off => "off"
  | Cleaning => "cleaning"
  | Error => "error"
  | Init => "init"
  | Programming => "programming"
  | HoldDelay => "holddelay"
  | HoldWeekly => "holdweekly"
  end.

Definition all : list t :=
  [Off; Cleaning; Error; Init; Programming; HoldDelay; HoldWeekly].
End CalculatedState.

(** JavaScript [===] and [!==] on two strings. *)
Notation "a === b" := (String.eqb a b) (at level 70, no associativity).
Notation "a !== b" := (negb (String.eqb a b)) (at level 70, no associativity).

(** [calculateState], constants.ts lines 100-125: six guarded returns and a
    default, in source order. *)
Definition calculateState (pwsState robotState : string) : CalculatedState.t :=
  if (pwsState === PwsState.Error) || (robotState === RobotState.Fault)
  then CalculatedState.Error
  else if (pwsState === PwsState.Programming)
          && (robotState === RobotState.Programming)
  then CalculatedState.Programming
  else if pwsState === PwsState.HoldDelay
  then CalculatedState.HoldDelay
  else if pwsState === PwsState.HoldWeekly
  then CalculatedState.HoldWeekly
  else if (pwsState === PwsState.On) && (robotState === RobotState.Init)
  then CalculatedState.Init
  else if ((pwsState === PwsState.Programming)
           && (robotState !== RobotState.Finished))
          || ((pwsState === PwsState.On)
              && (robotState !== RobotState.NotConnected)
              && (robotState !== RobotState.Finished))
  then CalculatedState.Cleaning
  else CalculatedState.Off.

(** The precedence rules as section 4.3 of the specification words them:
    an ordered list of (condition, status) pairs over the two inputs, closed
    by the catch-all rule 7. *)
Definition precedence_rules (power robot : string)
  : list (Prop * CalculatedState.t) :=
  [ (power = "error" \/ robot = "fault", CalculatedState.Error);
    (power = "programming" /\ robot = "programming",
     CalculatedState.Programming);
    (power = "holdDelay", CalculatedState.HoldDelay);
    (power = "holdWeekly", CalculatedState.HoldWeekly);
    (power = "on" /\ robot = "init", CalculatedState.Init);
    ((power = "programming" /\ robot <> "finished")
     \/ (power = "on" /\ robot <> "notConnected" /\ robot <> "finished"),
     CalculatedState.Cleaning);
    (True, CalculatedState.Off) ].

(** "Evaluated top to bottom, first match wins": [first_match rules s] holds
    when [s] is the status of the first rule whose condition holds. *)
Inductive first_match {A : Type} : list (Prop * A) -> A -> Prop :=
| first_match_here (P : Prop) (s : A) rest :
    P -> first_match ((P, s) :: rest) s
| first_match_later (P : Prop) (s : A) rest s' :
    ~ P -> first_match rest s' -> first_match ((P, s) :: rest) s'.

(** [getFilterBagStatus], constants.ts lines 129-139, on integer values. *)
Definition getFilterBagStatus (value : Z) : string :=
  if value <? 0 then "unknown"
  else if value =? 0 then "empty"
  else if value <=? 25 then "partially_full"
  else if value <=? 74 then "getting_full"
  else if value <=? 99 then "almost_full"
  else if value =? 100 then "full"
  else if value =? 101 then "fault"
  else if value =? 102 then "not_available"
  else "unknown".

(** ** Node.js [crypto]: SHA-256 and HMAC-SHA256

    The signer calls [crypto.createHash('sha256')] and
    [crypto.createHmac('sha256', key)].  They are given here as executable
    definitions after FIPS 180-4 and RFC 2104, over bytes held in [Z]. *)
Module Crypto.
Local Open Scope list_scope.

Definition bytes_of_string (s : string) : list Z :=
  List.map (fun c => Z.of_N (N_of_ascii c)) (list_ascii_of_string s).

Definition string_of_bytes (bs : list Z) : string :=
  string_of_list_ascii (List.map (fun b => ascii_of_N (Z.to_N b)) bs).

Definition w32 (x : Z) : Z := x mod 2 ^ 32.

Definition rotr (n x : Z) : Z :=
  w32 (Z.lor (Z.shiftr x n) (Z.shiftl x (32 - n))).

Definition xor3 (a b c : Z) : Z := Z.lxor a (Z.lxor b c).

Definition Ch (x y z : Z) : Z :=
  Z.lxor (Z.land x y) (Z.land (w32 (Z.lnot x)) z).

Definition Maj (x y z : Z) : Z :=
  xor3 (Z.land x y) (Z.land x z) (Z.land y z).

Definition Sigma0 (x : Z) : Z := xor3 (rotr 2 x) (rotr 13 x) (rotr 22 x).
Definition Sigma1 (x : Z) : Z := xor3 (rotr 6 x) (rotr 11 x) (rotr 25 x).
Definition sigma0 (x : Z) : Z := xor3 (rotr 7 x) (rotr 18 x) (Z.shiftr x 3).
Definition sigma1 (x : Z) : Z := xor3 (rotr 17 x) (rotr 19 x) (Z.shiftr x 10).

(** The round constants are the first 32 bits of the fractional parts of
    the cube roots of the first 64 primes, the initial hash value those of
    the square roots of the first 8 primes. *)
Definition is_prime (n : Z) : bool :=
  (1 <? n)
  && forallb (fun d => negb (n mod Z.of_nat d =? 0))
             (List.seq 2 (Z.to_nat n - 2)).

Definition primes_below (bound : nat) : list Z :=
  List.filter is_prime (List.map Z.of_nat (List.seq 0 bound)).

(** The largest [y] extending [x] on the low [bits] bits with
    [y ^ 3 <= n]. *)
Fixpoint cube_root_bits (bits : nat) (x n : Z) : Z :=
  match bits with
  | O => x
  | S b =>
      let y := x + 2 ^ Z.of_nat b in
      cube_root_bits b (if y ^ 3 <=? n then y else x) n
  end.

Definition K256 : list Z :=
  Eval vm_compute in
    List.map (fun p => w32 (cube_root_bits 40 0 (p * 2 ^ 96)))
             (primes_below 312).

Definition H256 : list Z :=
  Eval vm_compute in
    List.map (fun p => w32 (Z.sqrt (p * 2 ^ 64))) (primes_below 20).

(** The [n] low bytes of [x], most significant first. *)
Fixpoint be_bytes (n : nat) (x : Z) : list Z :=
  match n with
  | O => []
  | S k => Z.shiftr x (8 * Z.of_nat k) mod 256 :: be_bytes k x
  end.

Definition be_word (bs : list Z) : Z :=
  fold_left (fun acc b => acc * 256 + b) bs 0.

Definition pad (msg : list Z) : list Z :=
  let len := Z.of_nat (List.length msg) in
  msg ++ [0x80] ++ List.repeat 0 (Z.to_nat ((55 - len) mod 64))
      ++ be_bytes 8 (8 * len).

Fixpoint chunks (fuel n : nat) (bs : list Z) : list (list Z) :=
  match fuel with
  | O => []
  | S f =>
      match bs with
      | [] => []
      | _ => firstn n bs :: chunks f n (skipn n bs)
      end
  end.

(** The message schedule, most recent word first. *)
Fixpoint schedule (steps : nat) (rw : list Z) : list Z :=
  match steps with
  | O => rw
  | S f =>
      schedule f (w32 (sigma1 (nth 1 rw 0) + nth 6 rw 0
                       + sigma0 (nth 14 rw 0) + nth 15 rw 0) :: rw)
  end.

Definition round (st : list Z) (kw : Z * Z) : list Z :=
  match st with
  | [a; b; c; d; e; f; g; h] =>
      let t1 := h + Sigma1 e + Ch e f g + fst kw + snd kw in
      let t2 := Sigma0 a + Maj a b c in
      [w32 (t1 + t2); a; b; c; w32 (d + t1); e; f; g]
  | _ => st
  end.

Definition compress (hs block : list Z) : list Z :=
  let w16 := List.map be_word (chunks 16 4 block) in
  let w := List.rev (schedule 48 (List.rev w16)) in
  let st := fold_left round (combine K256 w) hs in
  List.map (fun p => w32 (fst p + snd p)) (combine hs st).

Definition sha256_bytes (msg : list Z) : list Z :=
  let padded := pad msg in
  flat_map (be_bytes 4)
    (fold_left compress (chunks (List.length padded) 64 padded) H256).

Definition hex_digit (d : Z) : ascii :=
  nth (Z.to_nat d) (list_ascii_of_string "0123456789abcdef") "0"%char.

(** [Buffer.toString('hex')] / [digest('hex')]. *)
Definition hex (bs : list Z) : string :=
  string_of_list_ascii
    (flat_map (fun b => [hex_digit (b / 16); hex_digit (b mod 16)]) bs).

Definition hmac_bytes (key msg : list Z) : list Z :=
  let k := if 64 <? Z.of_nat (List.length key)
           then sha256_bytes key else key in
  let k := k ++ List.repeat 0 (64 - List.length k)%nat in
  sha256_bytes (List.map (Z.lxor 0x5c) k
                ++ sha256_bytes (List.map (Z.lxor 0x36) k ++ msg)).
End Crypto.

(** ** The JavaScript built-ins the sources use *)
Module JS.
(** Truthiness of a string: only the empty string is falsy. *)
Definition truthy (s : string) : bool := negb (s === EmptyString).

Definition is_digit (c : ascii) : bool :=
  let n := N_of_ascii c in (48 <=? n)%N && (n <=? 57)%N.

(** The characters [encodeURIComponent] leaves alone:
    [A-Z a-z 0-9 - _ . ! ~ * ' ( )]. *)
Definition is_unreserved (c : ascii) : bool :=
  let n := N_of_ascii c in
  ((65 <=? n)%N && (n <=? 90)%N) || ((97 <=? n)%N && (n <=? 122)%N)
  || is_digit c
  || existsb (Ascii.eqb c) (list_ascii_of_string "-_.!~*'()").

Definition HEX_digit (d : N) : ascii :=
  nth (N.to_nat d) (list_ascii_of_string "0123456789ABCDEF") "0"%char.

(** [encodeURIComponent]: every byte of the UTF-8 encoding outside the
    unreserved set becomes [%XX]. *)
Fixpoint encodeURIComponent (s : string) : string :=
  match s with
  | EmptyString => EmptyString
  | String c rest =>
      if is_unreserved c then String c (encodeURIComponent rest)
      else
        let n := N_of_ascii c in
        String "%" (String (HEX_digit (n / 16)) (String (HEX_digit (n mod 16))
          (encodeURIComponent rest)))
  end.

(** [x] in decimal on [width] digits, zero padded. *)
Fixpoint digits (width : nat) (x : Z) : string :=
  match width with
  | O => EmptyString
  | S w =>
      digits w (x / 10)
      ++ String (ascii_of_N (Z.to_N (48 + x mod 10))) EmptyString
  end.

(** Proleptic Gregorian (year, month, day) of a day count from
    1970-01-01. *)
Definition civil_from_days (days : Z) : Z * Z * Z :=
  let z := days + 719468 in
  let era := z / 146097 in
  let doe := z - era * 146097 in
  let yoe := (doe - doe / 1460 + doe / 36524 - doe / 146096) / 365 in
  let doy := doe - (365 * yoe + yoe / 4 - yoe / 100) in
  let mp := (5 * doy + 2) / 153 in
  let d := doy - (153 * mp + 2) / 5 + 1 in
  let m := if mp <? 10 then mp + 3 else mp - 9 in
  let y := yoe + era * 400 + (if m <=? 2 then 1 else 0) in
  (y, m, d).

Definition year_string (y : Z) : string :=
  if (0 <=? y) && (y <=? 9999) then digits 4 y
  else (if y <? 0 then "-" else "+") ++ digits 6 (Z.abs y).

(** [Date.prototype.toISOString] of the instant [t], in milliseconds
    since the epoch: [YYYY-MM-DDTHH:mm:ss.sssZ], the year on six digits
    with a sign outside 0..9999. *)
Definition toISOString (t : Z) : string :=
  let '(y, m, d) := civil_from_days (t / 86400000) in
  let r := t mod 86400000 in
  year_string y ++ "-" ++ digits 2 m ++ "-" ++ digits 2 d ++ "T"
  ++ digits 2 (r / 3600000) ++ ":" ++ digits 2 (r / 60000 mod 60) ++ ":"
  ++ digits 2 (r / 1000 mod 60) ++ "." ++ digits 3 (r mod 1000) ++ "Z".

(** [s.replace(/[:-]|\.\d{3}/g, '')]: a left-to-right scan deleting
    every colon, every hyphen and every dot followed by three digits. *)
Fixpoint strip_iso_punctuation (s : string) : string :=
  match s with
  | EmptyString => EmptyString
  | String c rest =>
      if Ascii.eqb c ":" || Ascii.eqb c "-" then strip_iso_punctuation rest
      else
        match rest with
        | String d1 (String d2 (String d3 rest')) =>
            if Ascii.eqb c "." && is_digit d1 && is_digit d2 && is_digit d3
            then strip_iso_punctuation rest'
            else String c (strip_iso_punctuation rest)
        | _ => String c (strip_iso_punctuation rest)
        end
  end.

(** [s.slice(0, n)] and [s.substring(0, n)], on ASCII text. *)
Definition slice0 (n : nat) (s : string) : string := substring 0 n s.

(** [parts.join(sep)]. *)
Definition join (sep : string) (parts : list string) : string :=
  String.concat sep parts.

(** A plain object with string keys, in insertion order. *)
Definition object (V : Type) : Type := list (string * V).

Fixpoint obj_get {V : Type} (o : object V) (k : string) : option V :=
  match o with
  | [] => None
  | (k', v) :: rest => if k' === k then Some v else obj_get rest k
  end.

(** [o[k] = v]: overwrite in place, or append a new key. *)
Fixpoint obj_set {V : Type} (o : object V) (k : string) (v : V) : object V :=
  match o with
  | [] => [(k, v)]
  | (k', v') :: rest =>
      if k' === k then (k, v) :: rest else (k', v') :: obj_set rest k v
  end.

Definition Object_keys {V : Type} (o : object V) : list string :=
  List.map fst o.

(** [keys.sort()]: ascending by code unit, stable. *)
Fixpoint sort_insert (k : string) (sorted : list string) : list string :=
  match sorted with
  | [] => [k]
  | k' :: rest =>
      if String.ltb k k' then k :: sorted else k' :: sort_insert k rest
  end.

Definition sort (keys : list string) : list string :=
  fold_left (fun acc k => sort_insert k acc) keys [].

Definition newline : string := String (ascii_of_nat 10) EmptyString.
End JS.

(** [crypto.createHash('sha256').update(data).digest('hex')]. *)
Definition sha256 (data : string) : string :=
  Crypto.hex (Crypto.sha256_bytes (Crypto.bytes_of_string data)).

(** [crypto.createHmac('sha256', key).update(data).digest()]: the raw
    digest, as a byte string. *)
Definition hmac (key data : string) : string :=
  Crypto.string_of_bytes
    (Crypto.hmac_bytes (Crypto.bytes_of_string key)
                       (Crypto.bytes_of_string data)).

(** [.digest('hex')] of a raw digest. *)
Definition digest_hex (raw : string) : string :=
  Crypto.hex (Crypto.bytes_of_string raw).

(** ** lib/types.ts *)
Record AwsCredentials : Set := {
  Token : string;
  AccessKeyId : string;
  SecretAccessKey : string
}.

(** ** lib/aws-sig-v4.ts

    The sources hold two revisions of [signWebSocketUrl].  They share every
    step but the canonical query string and the last lines that build the
    URL; [now] is the instant that [new Date()] returns, in milliseconds
    since the epoch. *)
Module SigV4Steps.
Definition service : string := "iotdevicegateway".

Definition dateStamp (now : Z) : string :=
  JS.slice0 8 (JS.strip_iso_punctuation (JS.toISOString now)).

Definition amzDate (now : Z) : string :=
  JS.slice0 15 (JS.strip_iso_punctuation (JS.toISOString now)) ++ "Z".

Definition credentialScope (region : string) (now : Z) : string :=
  dateStamp now ++ "/" ++ region ++ "/" ++ service ++ "/aws4_request".

Definition canonicalRequest (canonicalQueryString endpoint : string)
  : string :=
  JS.join JS.newline
    ["GET"; "/mqtt"; canonicalQueryString; "host:" ++ endpoint; EmptyString;
     "host"; sha256 EmptyString].

Definition stringToSign (region : string) (now : Z)
           (canonicalRequest : string) : string :=
  JS.join JS.newline
    ["AWS4-HMAC-SHA256"; amzDate now; credentialScope region now;
     sha256 canonicalRequest].

Definition kSigning (credentials : AwsCredentials) (region : string)
           (now : Z) : string :=
  let kDate := hmac ("AWS4" ++ SecretAccessKey credentials) (dateStamp now) in
  let kRegion := hmac kDate region in
  let kService := hmac kRegion service in
  hmac kService "aws4_request".

(** The signature over a given canonical query string. *)
Definition signature (endpoint region : string)
           (credentials : AwsCredentials) (now : Z)
           (canonicalQueryString : string) : string :=
  digest_hex
    (hmac (kSigning credentials region now)
          (stringToSign region now
             (canonicalRequest canonicalQueryString endpoint))).
End SigV4Steps.

(** The revision of lines 18-79: the query parameters are collected in an
    object, the security token among them when it is truthy, and the keys
    are sorted. *)
Module SigV4Sorted.
Import SigV4Steps.

Definition queryParams (region : string) (credentials : AwsCredentials)
           (now : Z) : JS.object string :=
  let queryParams :=
    [ ("X-Amz-Algorithm", "AWS4-HMAC-SHA256");
      ("X-Amz-Credential",
       AccessKeyId credentials ++ "/" ++ credentialScope region now);
      ("X-Amz-Date", amzDate now);
      ("X-Amz-SignedHeaders", "host") ] in
  if JS.truthy (Token credentials)
  then JS.obj_set queryParams "X-Amz-Security-Token" (Token credentials)
  else queryParams.

Definition canonicalQueryString (region : string)
           (credentials : AwsCredentials) (now : Z) : string :=
  let queryParams := queryParams region credentials now in
  let sortedKeys := JS.sort (JS.Object_keys queryParams) in
  JS.join "&"
    (List.map
       (fun k =>
          JS.encodeURIComponent k ++ "="
          ++ JS.encodeURIComponent
               (default "undefined" (JS.obj_get queryParams k)))
       sortedKeys).

Definition signWebSocketUrl (endpoint region : string)
           (credentials : AwsCredentials) (now : Z) : string :=
  let canonicalQueryString := canonicalQueryString region credentials now in
  let signature :=
    signature endpoint region credentials now canonicalQueryString in
  "wss://" ++ endpoint ++ "/mqtt?" ++ canonicalQueryString
  ++ "&X-Amz-Signature=" ++ signature.
End SigV4Sorted.

(** The revision of lines 100-157, whose doc comment reads: "IMPORTANT:
    X-Amz-Security-Token must NOT be in the canonical query string for
    signing - it is appended AFTER the signature". *)
Module SigV4.
Import SigV4Steps.

Definition canonicalQueryString (region : string)
           (credentials : AwsCredentials) (now : Z) : string :=
  JS.join "&"
    [ "X-Amz-Algorithm=AWS4-HMAC-SHA256";
      "X-Amz-Credential="
      ++ JS.encodeURIComponent
           (AccessKeyId credentials ++ "/" ++ credentialScope region now);
      "X-Amz-Date=" ++ amzDate now;
      "X-Amz-SignedHeaders=host" ].

Definition signWebSocketUrl (endpoint region : string)
           (credentials : AwsCredentials) (now : Z) : string :=
  let canonicalQueryString := canonicalQueryString region credentials now in
  let signature :=
    signature endpoint region credentials now canonicalQueryString in
  let url :=
    "wss://" ++ endpoint ++ "/mqtt?" ++ canonicalQueryString
    ++ "&X-Amz-Signature=" ++ signature in
  if JS.truthy (Token credentials)
  then url ++ "&X-Amz-Security-Token="
           ++ JS.encodeURIComponent (Token credentials)
  else url.
End SigV4.

(** Reading a signed URL back: the text between [?] and the end, cut at
    every [&], and the name of each parameter (the text before its first
    [=]). *)
Module Query.
Fixpoint split_on (sep : ascii) (s : string) : list string :=
  match s with
  | EmptyString => [EmptyString]
  | String c rest =>
      if Ascii.eqb c sep then EmptyString :: split_on sep rest
      else
        match split_on sep rest with
        | [] => [String c EmptyString]
        | w :: ws => String c w :: ws
        end
  end.

Definition name_of (param : string) : string :=
  hd EmptyString (split_on "=" param).

Definition names (query : string) : list string :=
  List.map name_of (split_on "&" query).
End Query.

(** ** A state-and-trace monad

    [M S E A]: a computation over a mutable state [S] that returns an [A]
    and appends the events [E] it produces, in program order. *)
Section StateTrace.
Context {S E : Type}.

Definition M (A : Type) : Type := S -> A * S * list E.

Definition ret {A : Type} (a : A) : M A := fun s => (a, s, []).

Definition bind {A B : Type} (m : M A) (k : A -> M B) : M B :=
  fun s =>
    let '(a, s1, t1) := m s in
    let '(b, s2, t2) := k a s1 in
    (b, s2, (t1 ++ t2)%list).

Definition get : M S := fun s => (s, s, []).
Definition put (s : S) : M unit := fun _ => (tt, s, []).
Definition modify (f : S -> S) : M unit := fun s => (tt, f s, []).
Definition tell (e : E) : M unit := fun s => (tt, s, [e]).

(** [if (c) { body }]. *)
Definition when (c : bool) (body : M unit) : M unit :=
  if c then body else ret tt.

Definition state_of {A : Type} (r : A * S * list E) : S := snd (fst r).
Definition trace_of {A : Type} (r : A * S * list E) : list E := snd r.
Definition value_of {A : Type} (r : A * S * list E) : A := fst (fst r).
End StateTrace.

Arguments M : clear implicits.

Declare Scope monad_scope.
Delimit Scope monad_scope with monad.
Notation "x <- m ;; k" := (bind m (fun x => k))
  (at level 100, m at next level, right associativity) : monad_scope.
Notation "m ;; k" := (bind m (fun _ => k))
  (at level 100, right associativity) : monad_scope.
Open Scope monad_scope.

(** ** JSON documents and [JSON.stringify]

    Numbers are integers, and an object lists its members in insertion
    order. *)
Module JSON.
#[local] Unset Elimination Schemes.
Inductive value : Type :=
| Null
| Bool (b : bool)
| Number (n : Z)
| Str (s : string)
| Array (items : list value)
| Object (members : list (string * value)).
#[local] Set Elimination Schemes.

Definition hex4 (n : N) : string :=
  String (Crypto.hex_digit (Z.of_N (n / 4096 mod 16)))
    (String (Crypto.hex_digit (Z.of_N (n / 256 mod 16)))
      (String (Crypto.hex_digit (Z.of_N (n / 16 mod 16)))
        (String (Crypto.hex_digit (Z.of_N (n mod 16))) EmptyString))).

Definition escape_char (c : ascii) : string :=
  let n := N_of_ascii c in
  if (n =? 34)%N then String "\" (String c EmptyString)
  else if (n =? 92)%N then "\\"
  else if (n =? 8)%N then "\b"
  else if (n =? 12)%N then "\f"
  else if (n =? 10)%N then "\n"
  else if (n =? 13)%N then "\r"
  else if (n =? 9)%N then "\t"
  else if (n <? 32)%N then "\u" ++ hex4 n
  else String c EmptyString.

Fixpoint escape (s : string) : string :=
  match s with
  | EmptyString => EmptyString
  | String c rest => escape_char c ++ escape rest
  end.

Definition quote (s : string) : string :=
  String (ascii_of_nat 34) (escape s ++ String (ascii_of_nat 34) EmptyString).

Fixpoint stringify (v : value) : string :=
  match v with
  | Null => "null"
  | Bool true => "true"
  | Bool false => "false"
  | Number n => pretty n
  | Str s => quote s
  | Array items =>
      "[" ++ JS.join "," (List.map stringify items) ++ "]"
  | Object members =>
      "{" ++ JS.join ","
               (List.map (fun kv => quote (fst kv) ++ ":" ++ stringify (snd kv))
                         members)
      ++ "}"
  end.
End JSON.

(** ** lib/MaytronicsCloud.ts

    The embedding follows src/lib/MaytronicsCloud.ts.  The older copy of the
    class in the sources differs in the log lines, in the 30 s safety timer
    and in the joystick helpers, which it lacks. *)
Module Cloud.
(** An [MqttClient] object, named by the order of its creation. *)
Definition ClientId : Set := nat.

(** The three private fields of [class MaytronicsCloud]. *)
Record Session : Set := {
  client : option ClientId;
  motorUnitSerial : string;
  _connected : bool
}.

(** The session together with the MQTT library's side of the world:
    [live] lists the clients whose transport has been opened by
    [mqtt.connect] and neither ended by [end(true)] nor closed;
    [created] counts the clients made so far. *)
Record State : Set := {
  session : Session;
  live : list ClientId;
  created : nat
}.

(** The notifications of the handlers embedded here.  [stateUpdate] and
    [dynamicMessage] come from [handleMessage], which reads and writes no
    field of the session and is left out. *)
Inductive Notification : Set :=
| connected
| disconnected
| error (message : string).

Inductive Event : Set :=
| Emit (n : Notification)
| Log (line : string)
| LogError (line : string)
| MqttConnect (c : ClientId) (url clientId : string)
| MqttEnd (c : ClientId)
| MqttSubscribe (c : ClientId) (topics : list string)
| MqttPublish (c : ClientId) (topic payload : string)
| Resolve
| Reject (message : string)
| Thrown (what : string).

Definition initial : State :=
  {| session := {| client := None; motorUnitSerial := EmptyString;
                   _connected := false |};
     live := []; created := 0 |}.

Definition Op : Type -> Type := M State Event.

(** Field access and assignment on [this]. *)
Definition this_client : Op (option ClientId) :=
  fun s => (client (session s), s, []).
Definition this_connected : Op bool :=
  fun s => (_connected (session s), s, []).
Definition this_motorUnitSerial : Op string :=
  fun s => (motorUnitSerial (session s), s, []).

Definition set_client (c : option ClientId) : Op unit :=
  modify (fun s =>
    {| session := {| client := c;
                     motorUnitSerial := motorUnitSerial (session s);
                     _connected := _connected (session s) |};
       live := live s; created := created s |}).

Definition set_connected (b : bool) : Op unit :=
  modify (fun s =>
    {| session := {| client := client (session s);
                     motorUnitSerial := motorUnitSerial (session s);
                     _connected := b |};
       live := live s; created := created s |}).

Definition set_motorUnitSerial (m : string) : Op unit :=
  modify (fun s =>
    {| session := {| client := client (session s);
                     motorUnitSerial := m;
                     _connected := _connected (session s) |};
       live := live s; created := created s |}).

(** [this.emit(...)], [this.log(...)], [this.logError(...)].  A
    notification is recorded in the trace; its delivery is Node's
    [EventEmitter], and [DolphinDevice.onInit] registers a listener for each
    of the five events, [error] among them, before the first call. *)
Definition emit (n : Notification) : Op unit := tell (Emit n).
Definition log (line : string) : Op unit := tell (Log line).
Definition logError (line : string) : Op unit := tell (LogError line).

(** [mqtt.connect(url, {clientId, ...})]: a new client with an open
    transport. *)
Definition mqtt_connect (url clientId : string) : Op ClientId :=
  fun s =>
    let c := created s in
    (c,
     {| session := session s; live := c :: live s;
        created := Datatypes.S (created s) |},
     [MqttConnect c url clientId]).

(** [c.end(true, ...)]: the transport of [c] is closed by force. *)
Definition mqtt_end (c : ClientId) : Op unit :=
  fun s =>
    (tt,
     {| session := session s;
        live := List.filter (fun c' => negb (Nat.eqb c' c)) (live s);
        created := created s |},
     [MqttEnd c]).

(** The transport of [c] went down by itself. *)
Definition transport_closed (c : ClientId) : Op unit :=
  modify (fun s =>
    {| session := session s;
       live := List.filter (fun c' => negb (Nat.eqb c' c)) (live s);
       created := created s |}).

(** [this.client] when [this.client && this._connected], else nothing:
    the guard [!this.client || !this._connected] of the publishers. *)
Definition connected_client : Op (option ClientId) :=
  c <- this_client ;;
  b <- this_connected ;;
  ret (match c with
       | Some c => if b then Some c else None
       | None => None
       end).

(** [disconnect()], lines 293-305, in its two halves: up to the call of
    [end], and the callback of [end]. *)
Definition disconnect_begin : Op (option ClientId) :=
  c <- this_client ;;
  match c with
  | None => ret None
  | Some c =>
      log "[MQTT] Disconnecting..." ;;
      set_connected false ;;
      mqtt_end c ;;
      ret (Some c)
  end.

Definition disconnect_ended : Op unit := set_client None.

Definition disconnect : Op unit :=
  c <- disconnect_begin ;;
  match c with
  | None => ret tt
  | Some _ => disconnect_ended
  end.


Section WithSigner.
(** The imported [signWebSocketUrl] of ./aws-sig-v4. *)
Variable signWebSocketUrl : string -> string -> AwsCredentials -> Z -> string.

(** [connect], lines 46-131, up to the end of the Promise executor.
    [now] is the instant the signer reads, [stamp] the value of
    [Date.now()] in the client id. *)
Definition connect_enter (motorUnitSerial : string) : Op unit :=
  set_motorUnitSerial motorUnitSerial ;;
  log "[MQTT] Credentials check:".

Definition connect_open (motorUnitSerial : string)
           (credentials : AwsCredentials) (now stamp : Z) : Op ClientId :=
  let url := signWebSocketUrl AWS_IOT_ENDPOINT AWS_REGION credentials now in
  let clientId :=
    "homey_dolphin_" ++ motorUnitSerial ++ "_" ++ pretty stamp in
  log ("[MQTT] Connecting to " ++ AWS_IOT_ENDPOINT
       ++ " with clientId=" ++ clientId) ;;
  log ("[MQTT] Signed URL length: " ++ pretty (String.length url)) ;;
  c <- mqtt_connect url clientId ;;
  set_client (Some c) ;;
  ret c.

Definition connect (motorUnitSerial : string)
           (credentials : AwsCredentials) (now stamp : Z) : Op ClientId :=
  connect_enter motorUnitSerial ;;
  disconnect ;;
  connect_open motorUnitSerial credentials now stamp.
End WithSigner.

(** The 30 s safety timer of [connect], lines 69-77. *)
Definition onTimeout : Op unit :=
  logError "[MQTT] Connection timeout after 30s — no connect or error event" ;;
  c <- this_client ;;
  match c with
  | Some c => mqtt_end c ;; set_client None
  | None => ret tt
  end ;;
  tell (Reject "MQTT connection timed out after 30 seconds").

(** [onFirstError], lines 92-97.  [this.client!.removeListener] throws when
    the handle is null; the result tells whether the listener returned. *)
Definition onFirstError (message : string) : Op bool :=
  logError ("[MQTT] First connection error: " ++ message) ;;
  c <- this_client ;;
  match c with
  | Some _ => tell (Reject message) ;; ret true
  | None => tell (Thrown "TypeError") ;; ret false
  end.

(** How the promise of [subscribeToTopics] settles: [resolve()], or
    [reject(err)] with the message of [err]. *)
Inductive Settled : Set :=
| Resolved
| Rejected (err : string).

(** [subscribeToTopics], lines 136-160; [suback] is the error the
    subscribe callback receives, if any. *)
Definition subscribeToTopics (suback : option string) : Op Settled :=
  c <- connected_client ;;
  match c with
  | None => ret Resolved
  | Some c =>
      serial <- this_motorUnitSerial ;;
      let shadowTopic := getShadowWildcardTopic serial in
      let dynamicTopic := getDynamicTopic serial in
      log ("[MQTT] Subscribing to: " ++ shadowTopic) ;;
      log ("[MQTT] Subscribing to: " ++ dynamicTopic) ;;
      tell (MqttSubscribe c [shadowTopic; dynamicTopic]) ;;
      match suback with
      | Some err =>
          logError ("[MQTT] Subscribe failed: " ++ err) ;;
          emit (error ("Subscribe failed: " ++ err)) ;;
          ret (Rejected err)
      | None => log "[MQTT] Subscribe result:" ;; ret Resolved
      end
  end.

(** The [connect] listener [onConnect], lines 99-107, an [async] function
    whose promise nobody handles: what is thrown inside it is recorded as
    [Thrown] and ends it.  [this.client!.removeListener] throws a
    [TypeError] when the handle is null, after the flag has been set; and
    when [subscribeToTopics] rejects, [await] throws the error of the
    subscription, so that neither [emit('connected')] nor [resolve()] is
    reached. *)
Definition onConnect (suback : option string) : Op unit :=
  log "[MQTT] Connected successfully" ;;
  set_connected true ;;
  c <- this_client ;;
  match c with
  | None => tell (Thrown "TypeError")
  | Some _ =>
      subscribed <- subscribeToTopics suback ;;
      match subscribed with
      | Resolved => emit connected ;; tell Resolve
      | Rejected err => tell (Thrown err)
      end
  end.

(** The [close] listener, lines 114-120. *)
Definition onClose : Op unit :=
  log "[MQTT] Connection closed" ;;
  b <- this_connected ;;
  when b (set_connected false ;; emit disconnected).

(** The [error] listener, lines 126-129. *)
Definition onError (message : string) : Op unit :=
  logError ("[MQTT] Error: " ++ message) ;;
  emit (error message).

(** [requestState], lines 209-217. *)
Definition requestState : Op unit :=
  c <- connected_client ;;
  match c with
  | None => log "[MQTT] requestState: not connected, skipping"
  | Some c =>
      serial <- this_motorUnitSerial ;;
      let topic := getShadowGetTopic serial in
      log ("[MQTT] Publishing state request to: " ++ topic) ;;
      tell (MqttPublish c topic "{}")
  end.

(** [sendCommand], lines 222-231. *)
Definition sendCommand (desired : JSON.value) : Op unit :=
  c <- connected_client ;;
  match c with
  | None => emit (error "Cannot send command: not connected")
  | Some c =>
      let payload :=
        JSON.stringify
          (JSON.Object [("state", JSON.Object [("desired", desired)])]) in
      serial <- this_motorUnitSerial ;;
      let topic := getShadowUpdateTopic serial in
      log ("[MQTT] Sending command to " ++ topic ++ ": "
           ++ JS.slice0 200 payload) ;;
      tell (MqttPublish c topic payload)
  end.

(** [sendDynamic], lines 236-241. *)
Definition sendDynamic (payload : JSON.value) : Op unit :=
  c <- connected_client ;;
  match c with
  | None => ret tt
  | Some c =>
      serial <- this_motorUnitSerial ;;
      let topic := getDynamicTopic serial in
      log ("[MQTT] Sending dynamic to " ++ topic ++ ": "
           ++ JS.slice0 200 (JSON.stringify payload)) ;;
      tell (MqttPublish c topic (JSON.stringify payload))
  end.

(** Everything that can happen to a session: the calls of its public
    methods and the signals of the MQTT client it listens to. *)
Inductive Signal : Type :=
| CallConnect (motorUnitSerial : string) (credentials : AwsCredentials)
              (now stamp : Z)
| CallDisconnect
| CallRequestState
| CallSendCommand (desired : JSON.value)
| CallSendDynamic (payload : JSON.value)
| TransportConnect (suback : option string)
| TransportFirstError (message : string)
| TransportError (message : string)
| TransportClose (c : ClientId)
| TransportTimeout.

Section Run.
Variable signWebSocketUrl : string -> string -> AwsCredentials -> Z -> string.

Definition step (sig : Signal) : Op unit :=
  match sig with
  | CallConnect m creds now stamp =>
      connect signWebSocketUrl m creds now stamp ;; ret tt
  | CallDisconnect => disconnect
  | CallRequestState => requestState
  | CallSendCommand desired => sendCommand desired
  | CallSendDynamic payload => sendDynamic payload
  | TransportConnect suback => onConnect suback
  | TransportFirstError message =>
      returned <- onFirstError message ;;
      when returned (onError message)
  | TransportError message => onError message
  | TransportClose c => transport_closed c ;; onClose
  | TransportTimeout => onTimeout
  end.

Fixpoint run (sigs : list Signal) : Op unit :=
  match sigs with
  | [] => ret tt
  | sig :: rest => step sig ;; run rest
  end.
End Run.

(** How often a notification was emitted in a trace. *)
Definition emitted (n : Notification) (t : list Event) : nat :=
  List.length
    (List.filter
       (fun e => match e, n with
                 | Emit connected, connected => true
                 | Emit disconnected, disconnected => true
                 | Emit (error m), error m' => m === m'
                 | _, _ => false
                 end) t).

Definition is_publish (e : Event) : bool :=
  match e with MqttPublish _ _ _ => true | _ => false end.

Definition is_error_notification (e : Event) : bool :=
  match e with Emit (error _) => true | _ => false end.
End Cloud.

(** ** The suspension points of [connect] and [disconnect]

    Both methods are [async]: [disconnect] awaits the callback of [end]
    (when there is a client), and [connect] awaits [disconnect].  A call
    therefore runs in two parts, and between the two anything else may run:
    a transport signal, another call.  [Suspended] is what a call that has
    reached its [await] still has to do. *)
Module Async.
Inductive Suspended : Type :=
| ConnectAwaiting (ended : option Cloud.ClientId) (motorUnitSerial : string)
                  (credentials : AwsCredentials)
| DisconnectAwaiting (ended : Cloud.ClientId).

Record State : Type := {
  cloud : Cloud.State;
  suspended : list Suspended
}.

Definition initial : State :=
  {| cloud := Cloud.initial; suspended := [] |}.

Inductive Signal : Type :=
| BeginConnect (motorUnitSerial : string) (credentials : AwsCredentials)
| BeginDisconnect
| Resume (i : nat) (now stamp : Z)
| Now (sig : Cloud.Signal).

Section Run.
Variable signWebSocketUrl : string -> string -> AwsCredentials -> Z -> string.

(** [connect] up to [await this.disconnect()], which itself runs up to its
    own [await] when there is a client to end. *)
Definition begin_connect (m : string) (credentials : AwsCredentials)
           (s : State) : State * list Cloud.Event :=
  let r := (Cloud.connect_enter m ;; Cloud.disconnect_begin) (cloud s) in
  ({| cloud := state_of r;
      suspended :=
        (suspended s ++ [ConnectAwaiting (value_of r) m credentials])%list |},
   trace_of r).

(** [disconnect] up to its [await]; without a client it returns at once. *)
Definition begin_disconnect (s : State) : State * list Cloud.Event :=
  let r := Cloud.disconnect_begin (cloud s) in
  ({| cloud := state_of r;
      suspended :=
        match value_of r with
        | Some c => (suspended s ++ [DisconnectAwaiting c])%list
        | None => suspended s
        end |},
   trace_of r).

(** The rest of a suspended call: the callback of [end] nulls the handle,
    and [connect] goes on to open the new client.  [now] and [stamp] are
    the clock readings of that moment. *)
Definition continue (p : Suspended) (now stamp : Z) : Cloud.Op unit :=
  match p with
  | ConnectAwaiting ended m credentials =>
      match ended with
      | Some _ => Cloud.disconnect_ended
      | None => ret tt
      end ;;
      Cloud.connect_open signWebSocketUrl m credentials now stamp ;;
      ret tt
  | DisconnectAwaiting _ => Cloud.disconnect_ended
  end.

Definition resume (i : nat) (now stamp : Z) (s : State)
  : State * list Cloud.Event :=
  match suspended s !! i with
  | Some p =>
      let r := continue p now stamp (cloud s) in
      ({| cloud := state_of r; suspended := delete i (suspended s) |},
       trace_of r)
  | None => (s, [])
  end.

Definition step (sig : Signal) (s : State) : State * list Cloud.Event :=
  match sig with
  | BeginConnect m credentials => begin_connect m credentials s
  | BeginDisconnect => begin_disconnect s
  | Resume i now stamp => resume i now stamp s
  | Now sig =>
      let r := Cloud.step signWebSocketUrl sig (cloud s) in
      ({| cloud := state_of r; suspended := suspended s |}, trace_of r)
  end.

Fixpoint run (sigs : list Signal) (s : State) : State * list Cloud.Event :=
  match sigs with
  | [] => (s, [])
  | sig :: rest =>
      let '(s1, t1) := step sig s in
      let '(s2, t2) := run rest s1 in
      (s2, (t1 ++ t2)%list)
  end.

(** A call of [connect] or [disconnect] starts here. *)
Definition starts_call (sig : Signal) : bool :=
  match sig with
  | BeginConnect _ _ | BeginDisconnect => true
  | Now (Cloud.CallConnect _ _ _ _) | Now Cloud.CallDisconnect => true
  | _ => false
  end.

(** Along the run no call of [connect] or [disconnect] starts while an
    earlier one is suspended. *)
Fixpoint calls_do_not_overlap (sigs : list Signal) (s : State) : bool :=
  match sigs with
  | [] => true
  | sig :: rest =>
      (negb (starts_call sig)
       || match suspended s with [] => true | _ :: _ => false end)
      && calls_do_not_overlap rest (fst (step sig s))
  end.
End Run.
End Async.

(** ** lib/types.ts: the reported state

    An optional field is an [option]; numbers are integers. *)
Record SystemState : Set := {
  pwsState : string;
  robotState : string;
  rTurnOnCount : option Z
}.

Record CleaningMode : Set := {
  mode : string;
  cycleTime : option Z;
  cycleStartTimeUTC : option Z
}.

Record CycleInfo : Set := { cleaningMode : option CleaningMode }.

Record LedState : Set := {
  ledMode : Z;
  ledIntensity : Z;
  ledEnable : bool
}.

Record FilterBagIndication : Set := {
  state : Z;
  resetFBI : option bool
}.

Record DebugInfo : Set := {
  WIFI_RSSI : option Z;
  WIFI_NETName : option string
}.

Record WifiInfo : Set := { netName : option string }.

Record ErrorInfo : Set := {
  errorCode : Z;
  turnOnCount : option Z
}.

Record ReportedState : Set := {
  systemState : option SystemState;
  cycleInfo : option CycleInfo;
  led : option LedState;
  filterBagIndication : option FilterBagIndication;
  debug : option DebugInfo;
  wifi : option WifiInfo;
  robotError : option ErrorInfo;
  pwsError : option ErrorInfo;
  activity : option string
}.

(** [LED_MODES], constants.ts lines 54-58. *)
Definition LED_MODES (id : Z) : option string :=
  if id =? 1 then Some "blinking"
  else if id =? 2 then Some "always_on"
  else if id =? 3 then Some "disco"
  else None.

(** ** drivers/dolphin/device.ts *)
Module Device.
(** A value handed to [setCapabilityValue] or to a trigger card;
    [Ratio a b] is the quotient [a / b]. *)
Inductive Value : Set :=
| Boolean (b : bool)
| Num (n : Z)
| Text (s : string)
| Ratio (a b : Z).

(** The fields of [class DolphinDevice] that [onStateUpdate] reads or
    writes, and the capability store that Homey keeps for the device. *)
Record DolphinDevice : Type := {
  previousStatus : string;
  currentLedState : LedState;
  capabilities : gmap string Value
}.

Inductive Event : Set :=
| SetCapabilityValue (capability : string) (v : Value)
| Trigger (card : string) (tokens : list (string * Value)).

Definition Op : Type -> Type := M DolphinDevice Event.

Definition initial : DolphinDevice :=
  {| previousStatus := EmptyString;
     currentLedState :=
       {| ledMode := 1; ledIntensity := 80; ledEnable := true |};
     capabilities := ∅ |}.

Definition this_previousStatus : Op string :=
  fun d => (previousStatus d, d, []).

Definition set_previousStatus (s : string) : Op unit :=
  modify (fun d =>
    {| previousStatus := s;
       currentLedState := currentLedState d;
       capabilities := capabilities d |}).

Definition set_currentLedState (l : LedState) : Op unit :=
  modify (fun d =>
    {| previousStatus := previousStatus d;
       currentLedState := l;
       capabilities := capabilities d |}).

(** [this.setCapabilityValue(name, v).catch(this.error)]. *)
Definition setCapabilityValue (name : string) (v : Value) : Op unit :=
  modify (fun d =>
    {| previousStatus := previousStatus d;
       currentLedState := currentLedState d;
       capabilities := <[name := v]> (capabilities d) |}) ;;
  tell (SetCapabilityValue name v).

(** [this.driver.ready().then(() =>
      this.homey.flow.getDeviceTriggerCard(card).trigger(this, tokens))]. *)
Definition trigger (card : string) (tokens : list (string * Value))
  : Op unit :=
  tell (Trigger card tokens).

(** [state.cycleInfo?.cleaningMode?.mode], [undefined] as [None]. *)
Definition reported_mode (st : ReportedState) : option string :=
  match cycleInfo st with
  | Some ci =>
      match cleaningMode ci with
      | Some cm => Some (mode cm)
      | None => None
      end
  | None => None
  end.

(** Truthiness of an optional number: defined and not zero. *)
Definition truthy_number (n : option Z) : bool :=
  match n with
  | Some n => negb (n =? 0)
  | None => false
  end.

(** [handleStatusChange], lines 341-360. *)
Definition handleStatusChange (previous current : string)
           (st : ReportedState) : Op unit :=
  when ((current === CalculatedState.value CalculatedState.Cleaning)
        && (previous !== CalculatedState.value CalculatedState.Cleaning))
    (let mode :=
       match reported_mode st with
       | Some m => if JS.truthy m then m else "all"
       | None => "all"
       end in
     trigger "cleaning_started" [("mode", Text mode)]) ;;
  when ((previous === CalculatedState.value CalculatedState.Cleaning)
        && (current !== CalculatedState.value CalculatedState.Cleaning))
    (trigger "cleaning_finished" []).


(** [onStateUpdate], lines 237-326, block by block in source order.
    [now] is the value of [Date.now()]. *)
Definition update_systemState (st : ReportedState)
  : Op (option CalculatedState.t) :=
  match systemState st with
  | None => ret None
  | Some ss =>
      let calculatedStatus := calculateState (pwsState ss) (robotState ss) in
      let status := CalculatedState.value calculatedStatus in
      let isCleaning :=
        (status === CalculatedState.value CalculatedState.Cleaning)
        || (status === CalculatedState.value CalculatedState.Init) in
      setCapabilityValue "onoff" (Boolean isCleaning) ;;
      setCapabilityValue "robot_status" (Text status) ;;
      match rTurnOnCount ss with
      | Some n => setCapabilityValue "cycle_count" (Num n)
      | None => ret tt
      end ;;
      previous <- this_previousStatus ;;
      when (previous !== status)
        (handleStatusChange previous status st ;;
         set_previousStatus status) ;;
      ret (Some calculatedStatus)
  end.

Definition update_cycleInfo (now : Z) (st : ReportedState)
           (calculatedStatus : option CalculatedState.t) : Op unit :=
  match cycleInfo st with
  | None => ret tt
  | Some ci =>
      match cleaningMode ci with
      | None => ret tt
      | Some cm =>
          when (JS.truthy (mode cm))
            (when (mode cm !== "pickup")
               (setCapabilityValue "cleaning_mode" (Text (mode cm))) ;;
             if truthy_number (cycleTime cm)
                && truthy_number (cycleStartTimeUTC cm)
             then
               let nowSeconds := now / 1000 in
               let elapsedMinutes :=
                 (nowSeconds - default 0 (cycleStartTimeUTC cm)) / 60 in
               let remaining :=
                 Z.max 0 (default 0 (cycleTime cm) - elapsedMinutes) in
               setCapabilityValue "cycle_time_remaining" (Num remaining)
             else
               match calculatedStatus with
               | Some CalculatedState.Off =>
                   setCapabilityValue "cycle_time_remaining" (Num 0)
               | _ => ret tt
               end)
      end
  end.

Definition update_filterBag (st : ReportedState) : Op unit :=
  match filterBagIndication st with
  | None => ret tt
  | Some fb =>
      let filterValue := state fb in
      when ((0 <=? filterValue) && (filterValue <=? 100))
        (setCapabilityValue "filter_status" (Num filterValue) ;;
         when (100 <=? filterValue) (trigger "filter_bag_full" []))
  end.

Definition update_wifi (st : ReportedState) : Op unit :=
  match debug st with
  | Some dbg =>
      match WIFI_RSSI dbg with
      | Some rssi => setCapabilityValue "wifi_signal" (Num rssi)
      | None => ret tt
      end
  | None => ret tt
  end ;;
  let debugName :=
    match debug st with
    | Some dbg => default EmptyString (WIFI_NETName dbg)
    | None => EmptyString
    end in
  let wifiName :=
    match wifi st with
    | Some w => default EmptyString (netName w)
    | None => EmptyString
    end in
  let netName := if JS.truthy debugName then debugName else wifiName in
  when (JS.truthy netName) (setCapabilityValue "network_name" (Text netName)).

Definition update_robotError (st : ReportedState) : Op unit :=
  match robotError st with
  | None => ret tt
  | Some err =>
      let errorCode := errorCode err in
      let errorStr :=
        if 0 <? errorCode then "Error " ++ pretty errorCode else "None" in
      setCapabilityValue "robot_error" (Text errorStr) ;;
      when (0 <? errorCode)
        (trigger "robot_error_occurred" [("error_code", Num errorCode)])
  end.

Definition update_led (st : ReportedState) : Op unit :=
  match led st with
  | None => ret tt
  | Some l =>
      set_currentLedState l ;;
      let ledModeStr := default "blinking" (LED_MODES (ledMode l)) in
      setCapabilityValue "led_mode" (Text ledModeStr) ;;
      setCapabilityValue "dim" (Ratio (ledIntensity l) 100)
  end.

Definition onStateUpdate (now : Z) (st : ReportedState) : Op unit :=
  calculatedStatus <- update_systemState st ;;
  update_cycleInfo now st calculatedStatus ;;
  update_filterBag st ;;
  update_wifi st ;;
  update_robotError st ;;
  update_led st.

(** A run of [stateUpdate] notifications, each with the clock reading at
    its arrival: the trace of every update, in order. *)
Fixpoint onStateUpdates (updates : list (Z * ReportedState))
         (d : DolphinDevice) : list (list Event) :=
  match updates with
  | [] => []
  | (now, st) :: rest =>
      let r := onStateUpdate now st d in
      trace_of r :: onStateUpdates rest (state_of r)
  end.

(** How often a trigger card fired in a trace. *)
Definition fired (card : string) (t : list Event) : nat :=
  List.length
    (List.filter
       (fun e => match e with
                 | Trigger card' _ => card' === card
                 | _ => false
                 end) t).

(** The values written to a capability in a trace, in order. *)
Fixpoint written (capability : string) (t : list Event) : list Value :=
  match t with
  | [] => []
  | SetCapabilityValue c v :: rest =>
      if c === capability then v :: written capability rest
      else written capability rest
  | _ :: rest => written capability rest
  end.

(** The commands of the flow actions, lines 404-420: the desired-state
    documents handed to [cloud.sendCommand]. *)
Definition startCleaning (mode : string) : Cloud.Op unit :=
  Cloud.sendCommand
    (JSON.Object [("cleaningMode", JSON.Object [("mode", JSON.Str mode)])]).

Definition stopCleaning : Cloud.Op unit :=
  Cloud.sendCommand
    (JSON.Object [("systemState", JSON.Object [("pwsState", JSON.Str "off")])]).

Definition returnToBase : Cloud.Op unit :=
  Cloud.sendCommand
    (JSON.Object [("cleaningMode", JSON.Object [("mode", JSON.Str "pickup")])]).
End Device.

(** ** Notions used to state the properties *)

(** At most one live transport, and the live one is the one the session
    holds. *)
Definition at_most_one_live (s : Cloud.State) : Prop :=
  Cloud.live s = []
  \/ exists c, Cloud.live s = [c] /\ Cloud.client (Cloud.session s) = Some c.

Definition is_transport_connect (sig : Cloud.Signal) : bool :=
  match sig with Cloud.TransportConnect _ => true | _ => false end.

Definition is_mqtt_lifecycle (e : Cloud.Event) : bool :=
  match e with
  | Cloud.MqttConnect _ _ _ | Cloud.MqttEnd _ => true
  | _ => false
  end.

(** The derived status an update carries, if it has a [systemState]
    fragment. *)
Definition derived_status (st : ReportedState) : option string :=
  match systemState st with
  | Some ss =>
      Some (CalculatedState.value
              (calculateState (pwsState ss) (robotState ss)))
  | None => None
  end.

(** What the specification asks of the two cleaning triggers along a run of
    updates, as (times [cleaning_started] fires, times [cleaning_finished]
    fires) per update: one start at each change from a non-cleaning status
    to [cleaning], one finish at each change from [cleaning] to a
    non-cleaning status, nothing otherwise.  [previous] is the status
    recorded before the run. *)
Fixpoint expected_cleaning_triggers (previous : string)
         (updates : list (Z * ReportedState)) : list (nat * nat) :=
  match updates with
  | [] => []
  | (_, st) :: rest =>
      match derived_status st with
      | Some current =>
          ((if (previous !== "cleaning") && (current === "cleaning")
            then 1 else 0)%nat,
           (if (previous === "cleaning") && (current !== "cleaning")
            then 1 else 0)%nat)
          :: expected_cleaning_triggers current rest
      | None => (0, 0)%nat :: expected_cleaning_triggers previous rest
      end
  end.

Definition observed_cleaning_triggers (t : list Device.Event) : nat * nat :=
  (Device.fired "cleaning_started" t, Device.fired "cleaning_finished" t).

(** The client the session holds is one that [mqtt.connect] has made. *)
Definition handle_known (s : Cloud.State) : Prop :=
  match Cloud.client (Cloud.session s) with
  | Some c => (c < Cloud.created s)%nat
  | None => True
  end.

Definition session_invariant (s : Cloud.State) : Prop :=
  at_most_one_live s /\ handle_known s.

(** The capability store after the writes of a trace, in order. *)
Definition apply_write (caps : gmap string Device.Value) (e : Device.Event)
  : gmap string Device.Value :=
  match e with
  | Device.SetCapabilityValue name v => <[name := v]> caps
  | Device.Trigger _ _ => caps
  end.

Definition replay (caps : gmap string Device.Value) (t : list Device.Event)
  : gmap string Device.Value :=
  fold_left apply_write t caps.

(** A device operation whose effect on the capability store is that of the
    writes it records. *)
Definition replays {A : Type} (m : Device.Op A) : Prop :=
  forall d : Device.DolphinDevice,
    Device.capabilities (state_of (m d))
    = replay (Device.capabilities d) (trace_of (m d)).

(** The part of [toISOString] before the milliseconds, from the number of
    whole seconds since the epoch. *)
Definition iso_seconds (q : Z) : string :=
  let '(y, m, d) := JS.civil_from_days (q / 86400) in
  let r := q mod 86400 in
  JS.year_string y ++ "-" ++ JS.digits 2 m ++ "-" ++ JS.digits 2 d ++ "T"
  ++ JS.digits 2 (r / 3600) ++ ":" ++ JS.digits 2 (r / 60 mod 60) ++ ":"
  ++ JS.digits 2 (r mod 60).

(** A string without its colons and hyphens. *)
Fixpoint remove_colon_hyphen (s : string) : string :=
  match s with
  | EmptyString => EmptyString
  | String c rest =>
      if Ascii.eqb c ":" || Ascii.eqb c "-" then remove_colon_hyphen rest
      else String c (remove_colon_hyphen rest)
  end.

Fixpoint all_chars (p : ascii -> bool) (s : string) : bool :=
  match s with
  | EmptyString => true
  | String c rest => p c && all_chars p rest
  end.

(** The characters of [iso_seconds]: digits, [-], [:], [T] and [+]. *)
Definition iso_char (c : ascii) : bool :=
  JS.is_digit c || existsb (Ascii.eqb c) (list_ascii_of_string "-:T+").

Definition not_char (x : ascii) (c : ascii) : bool := negb (Ascii.eqb c x).

(** What holds of a session whose calls do not overlap: while a call is
    suspended no transport is live. *)
Definition async_invariant (s : Async.State) : Prop :=
  handle_known (Async.cloud s)
  /\ match Async.suspended s with
     | [] => at_most_one_live (Async.cloud s)
     | [_] => Cloud.live (Async.cloud s) = []
     | _ :: _ :: _ => False
     end.

(** ** More of the built-ins: substring tests *)
Module JSText.
(** [s.includes(pat)]. *)
Fixpoint includes (pat s : string) : bool :=
  String.prefix pat s
  || match s with
     | EmptyString => false
     | String _ rest => includes pat rest
     end.

(** [s.endsWith(suffix)]. *)
Definition endsWith (s suffix : string) : bool :=
  (String.length suffix <=? String.length s)%nat
  && (substring (String.length s - String.length suffix)
                (String.length suffix) s === suffix).

(** [String(v)] and [`${v}`] of a parsed JSON value. *)
Fixpoint to_string (v : JSON.value) : string :=
  match v with
  | JSON.Null => "null"
  | JSON.Bool true => "true"
  | JSON.Bool false => "false"
  | JSON.Number n => pretty n
  | JSON.Str s => s
  | JSON.Array items =>
      JS.join ","
        (List.map (fun item => match item with
                               | JSON.Null => EmptyString
                               | _ => to_string item
                               end) items)
  | JSON.Object _ => "[object Object]"
  end.

(** Truthiness of a parsed JSON value. *)
Definition truthy (v : JSON.value) : bool :=
  match v with
  | JSON.Null => false
  | JSON.Bool b => b
  | JSON.Number n => negb (n =? 0)
  | JSON.Str s => JS.truthy s
  | JSON.Array _ | JSON.Object _ => true
  end.

(** [Object.keys(v)] of a parsed JSON value. *)
Definition keys (v : JSON.value) : list string :=
  match v with
  | JSON.Object members => JS.Object_keys members
  | JSON.Array items =>
      List.map (fun i => pretty (Z.of_nat i)) (List.seq 0 (List.length items))
  | JSON.Str s =>
      List.map (fun i => pretty (Z.of_nat i)) (List.seq 0 (String.length s))
  | _ => []
  end.
End JSText.

(** [getShadowGetAcceptedTopic], constants.ts lines 26-28. *)
Definition getShadowGetAcceptedTopic (motorUnitSerial : string) : string :=
  "$aws/things/" ++ motorUnitSerial ++ "/shadow/get/accepted".

(** ** lib/MaytronicsCloud.ts: [handleMessage], lines 165-204

    The handler reads and writes no field of the session, so it is a
    function from the message to what it logs and emits.  [JSON.parse] is
    the library's: [JSON_parse payload] is the parsed value, or nothing
    when the parse throws. *)
Module Messages.
Inductive Failure : Set := SyntaxError | TypeError.

Inductive Notification : Type :=
| stateUpdate (reported version : JSON.value)
| dynamicMessage (message : JSON.value)
| error (message : string)
| parse_error (topic : string) (cause : Failure).

Inductive Event : Type :=
| Emit (n : Notification)
| Log (line : string)
| LogError (line : string).

(** [v.k]: the member, [undefined] as [None]; reading a member of [null]
    throws. *)
Definition member (v : JSON.value) (k : string)
  : Failure + option JSON.value :=
  match v with
  | JSON.Null => inl TypeError
  | JSON.Object members => inr (JS.obj_get members k)
  | _ => inr None
  end.

(** [shadow.state?.reported]. *)
Definition reported_of (shadow : JSON.value)
  : Failure + option JSON.value :=
  match member shadow "state" with
  | inl f => inl f
  | inr None => inr None
  | inr (Some JSON.Null) => inr None
  | inr (Some st) => member st "reported"
  end.

(** [shadow.version], for a [shadow] that is not [null]. *)
Definition version_of (shadow : JSON.value) : option JSON.value :=
  match member shadow "version" with
  | inr v => v
  | inl _ => None
  end.

(** [shadow.version || 0]. *)
Definition version_or_0 (shadow : JSON.value) : JSON.value :=
  match version_of shadow with
  | Some v => if JSText.truthy v then v else JSON.Number 0
  | None => JSON.Number 0
  end.

(** The [catch] block. *)
Definition failed (topic : string) (cause : Failure) : list Event :=
  [LogError ("[MQTT] Failed to parse message on " ++ topic ++ ": ");
   Emit (parse_error topic cause)].

Section WithParser.
Variable JSON_parse : string -> option JSON.value.

Definition handleMessage (topic payloadStr : string) : list Event :=
  Log ("[MQTT] Message on topic: " ++ topic ++ " ("
       ++ pretty (Z.of_nat (String.length payloadStr)) ++ " bytes)")
  :: match JSON_parse payloadStr with
     | None => failed topic SyntaxError
     | Some data =>
         if JSText.includes "/shadow/get/accepted" topic
            || JSText.includes "/shadow/update/accepted" topic
         then
           match reported_of data with
           | inl cause => failed topic cause
           | inr (Some reported) =>
               if JSText.truthy reported
               then
                 [Log ("[MQTT] State update received, keys: "
                       ++ JS.join ", " (JSText.keys reported)
                       ++ ", version: "
                       ++ match version_of data with
                          | Some v => JSText.to_string v
                          | None => "undefined"
                          end);
                  Emit (stateUpdate reported (version_or_0 data))]
               else [Log "[MQTT] Shadow accepted but no reported state"]
           | inr None => [Log "[MQTT] Shadow accepted but no reported state"]
           end
         else if JSText.includes "/shadow/" topic
                 && JSText.includes "/rejected" topic
         then
           [LogError ("[MQTT] Shadow rejected: " ++ JS.slice0 200 payloadStr);
            Emit (error ("Shadow rejected: " ++ JSON.stringify data))]
         else if JSText.includes "Maytronics/" topic
                 && JSText.endsWith topic "/main"
         then
           [Log ("[MQTT] Dynamic message: " ++ JS.slice0 200 payloadStr);
            Emit (dynamicMessage data)]
         else [Log ("[MQTT] Unhandled topic: " ++ topic)]
     end.
End WithParser.

(** The notifications of a trace, in order. *)
Fixpoint notifications (t : list Event) : list Notification :=
  match t with
  | [] => []
  | Emit n :: rest => n :: notifications rest
  | _ :: rest => notifications rest
  end.
End Messages.

(** ** lib/MaytronicsCloud.ts: the publishers to the dynamic topic *)
Module Publishers.
(** [requestTemperature], lines 246-253. *)
Definition requestTemperature (serialNumber : string) : Cloud.Op unit :=
  (msmu <- Cloud.this_motorUnitSerial ;;
   Cloud.sendDynamic
     (JSON.Object
        [("type", JSON.Str "pwsRequest");
         ("description", JSON.Str "temperature");
         ("robotSerial", JSON.Str serialNumber);
         ("msmu", JSON.Str msmu)])).

(** The payload of [sendJoystick], lines 258-268. *)
Definition joystick_payload (direction : string) : JSON.value :=
  let speed := if direction === "stop" then 0 else 100 in
  JSON.Object
    [("type", JSON.Str "pwsRequest");
     ("description", JSON.Str "joystick");
     ("content",
      JSON.Object
        [("speed", JSON.Number speed); ("direction", JSON.Str direction)])].

Definition sendJoystick (direction : string) : Cloud.Op unit :=
  Cloud.sendDynamic (joystick_payload direction).

(** [exitJoystickMode], lines 273-281. *)
Definition exitJoystickMode : Cloud.Op unit :=
  Cloud.sendDynamic
    (JSON.Object
       [("type", JSON.Str "pwsRequest");
        ("description", JSON.Str "joystick");
        ("content", JSON.Object [("rcMode", JSON.Str "exit")])]).
End Publishers.

(** ** lib/constants.ts: the LED mode ids and the intervals *)

(** What [o[name]] finds in an object literal: a property of its own, or
    one that every object inherits from [Object.prototype] (a method, or
    the prototype itself under [__proto__]), or nothing. *)
Inductive Property : Set :=
| Own (n : Z)
| InheritedFunction
| InheritedObject
| Undefined.

Definition Object_prototype_methods : list string :=
  ["constructor"; "hasOwnProperty"; "isPrototypeOf"; "propertyIsEnumerable";
   "toLocaleString"; "toString"; "valueOf"; "__defineGetter__";
   "__defineSetter__"; "__lookupGetter__"; "__lookupSetter__"].

(** [LED_MODE_IDS], constants.ts lines 60-64. *)
Definition LED_MODE_IDS (name : string) : Property :=
  if name === "blinking" then Own 1
  else if name === "always_on" then Own 2
  else if name === "disco" then Own 3
  else if existsb (String.eqb name) Object_prototype_methods
       then InheritedFunction
  else if name === "__proto__" then InheritedObject
  else Undefined.

Definition CREDENTIAL_REFRESH_INTERVAL : Z := 50 * 60 * 1000.
Definition STATE_REFRESH_INTERVAL : Z := 5 * 60 * 1000.
Definition RECONNECT_DELAY : Z := 60 * 1000.

(** ** drivers/dolphin/device.ts: the LED commands *)
Module Led.
(** The member [ledMode: LED_MODE_IDS[name] || 1] of a command, as
    [JSON.stringify] writes it: a member whose value is a function is left
    out, and [Object.prototype] has no member to list. *)
Definition ledMode_member (name : string) : list (string * JSON.value) :=
  match LED_MODE_IDS name with
  | Own n => [("ledMode", JSON.Number (if n =? 0 then 1 else n))]
  | InheritedFunction => []
  | InheritedObject => [("ledMode", JSON.Object [])]
  | Undefined => [("ledMode", JSON.Number 1)]
  end.

(** [onCapabilityLedMode], lines 391-400. *)
Definition onCapabilityLedMode (value : string) (d : Device.DolphinDevice)
  : Cloud.Op unit :=
  Cloud.sendCommand
    (JSON.Object
       [("led",
         JSON.Object
           ([("ledEnable", JSON.Bool true);
             ("ledIntensity",
              JSON.Number (ledIntensity (Device.currentLedState d)))]
            ++ ledMode_member value)%list)]).

(** [setLed], lines 422-431. *)
Definition setLed (mode : string) (brightness : Z) : Cloud.Op unit :=
  Cloud.sendCommand
    (JSON.Object
       [("led",
         JSON.Object
           ([("ledEnable", JSON.Bool true);
             ("ledIntensity", JSON.Number brightness)]
            ++ ledMode_member mode)%list)]).
End Led.

(** ** drivers/dolphin/driver.ts *)
Module Driver.
(** The run listener of the condition card [is_cleaning], lines 48-52;
    [getCapabilityValue] gives [null] for a capability that was never
    set. *)
Definition is_cleaning (d : Device.DolphinDevice) : bool :=
  let mode := Device.capabilities d !! "cleaning_mode" in
  match mode with
  | Some (Device.Text m) => m !== "off"
  | Some _ => true
  | None => true
  end
  && match mode with
     | Some _ => true
     | None => false
     end.
End Driver.

(** ** drivers/dolphin/device.ts: the three timers

    [homey.setTimeout] makes a timer that stays pending until it fires or
    is cleared; a timer handle is truthy. *)
Module Timers.
Inductive Callback : Set := refreshCredentials | refreshState | reconnect.

Record Timer : Set := {
  id : nat;
  callback : Callback;
  delay : Z
}.

(** The three timer fields of [class DolphinDevice], and Homey's side: the
    pending timers and the number of timers made so far. *)
Record State : Set := {
  credentialRefreshTimer : option nat;
  stateRefreshTimer : option nat;
  reconnectTimer : option nat;
  pending : list Timer;
  created : nat
}.

Definition initial : State :=
  {| credentialRefreshTimer := None; stateRefreshTimer := None;
     reconnectTimer := None; pending := []; created := 0 |}.

Definition Callback_eqb (a b : Callback) : bool :=
  match a, b with
  | refreshCredentials, refreshCredentials
  | refreshState, refreshState
  | reconnect, reconnect => true
  | _, _ => false
  end.

Definition without (t : nat) (timers : list Timer) : list Timer :=
  List.filter (fun x => negb (Nat.eqb (id x) t)) timers.

(** [this.homey.clearTimeout(t)]. *)
Definition clearTimeout (t : nat) (s : State) : State :=
  {| credentialRefreshTimer := credentialRefreshTimer s;
     stateRefreshTimer := stateRefreshTimer s;
     reconnectTimer := reconnectTimer s;
     pending := without t (pending s);
     created := created s |}.

(** [this.homey.setTimeout(cb, ms)]. *)
Definition setTimeout (cb : Callback) (ms : Z) (s : State) : nat * State :=
  (created s,
   {| credentialRefreshTimer := credentialRefreshTimer s;
      stateRefreshTimer := stateRefreshTimer s;
      reconnectTimer := reconnectTimer s;
      pending :=
        (pending s ++ [{| id := created s; callback := cb; delay := ms |}])%list;
      created := S (created s) |}).

Definition clear_if_set (field : option nat) (s : State) : State :=
  match field with
  | Some t => clearTimeout t s
  | None => s
  end.

(** [scheduleCredentialRefresh], lines 435-447. *)
Definition scheduleCredentialRefresh (s : State) : State :=
  let s := clear_if_set (credentialRefreshTimer s) s in
  let '(t, s) := setTimeout refreshCredentials CREDENTIAL_REFRESH_INTERVAL s in
  {| credentialRefreshTimer := Some t;
     stateRefreshTimer := stateRefreshTimer s;
     reconnectTimer := reconnectTimer s;
     pending := pending s; created := created s |}.

(** [scheduleStateRefresh], lines 449-460. *)
Definition scheduleStateRefresh (s : State) : State :=
  let s := clear_if_set (stateRefreshTimer s) s in
  let '(t, s) := setTimeout refreshState STATE_REFRESH_INTERVAL s in
  {| credentialRefreshTimer := credentialRefreshTimer s;
     stateRefreshTimer := Some t;
     reconnectTimer := reconnectTimer s;
     pending := pending s; created := created s |}.

(** [scheduleReconnect], lines 462-470. *)
Definition scheduleReconnect (s : State) : State :=
  let s := clear_if_set (reconnectTimer s) s in
  let '(t, s) := setTimeout reconnect RECONNECT_DELAY s in
  {| credentialRefreshTimer := credentialRefreshTimer s;
     stateRefreshTimer := stateRefreshTimer s;
     reconnectTimer := Some t;
     pending := pending s; created := created s |}.

(** [clearTimers], lines 525-538. *)
Definition clearTimers (s : State) : State :=
  let s :=
    match credentialRefreshTimer s with
    | Some t =>
        let s := clearTimeout t s in
        {| credentialRefreshTimer := None;
           stateRefreshTimer := stateRefreshTimer s;
           reconnectTimer := reconnectTimer s;
           pending := pending s; created := created s |}
    | None => s
    end in
  let s :=
    match stateRefreshTimer s with
    | Some t =>
        let s := clearTimeout t s in
        {| credentialRefreshTimer := credentialRefreshTimer s;
           stateRefreshTimer := None;
           reconnectTimer := reconnectTimer s;
           pending := pending s; created := created s |}
    | None => s
    end in
  match reconnectTimer s with
  | Some t =>
      let s := clearTimeout t s in
      {| credentialRefreshTimer := credentialRefreshTimer s;
         stateRefreshTimer := stateRefreshTimer s;
         reconnectTimer := None;
         pending := pending s; created := created s |}
  | None => s
  end.

(** A pending timer fires: it is pending no more, and its callback
    starts.  What a callback does to the timers it does by calling one of
    the three [schedule...] methods, at some later point. *)
Definition fire (t : nat) (s : State) : State := clearTimeout t s.

(** Everything that touches the timers, in any order: the calls of the
    four methods, from wherever they are made, and the firing of a
    timer. *)
Inductive Signal : Set :=
| ScheduleCredentialRefresh
| ScheduleStateRefresh
| ScheduleReconnect
| ClearTimers
| Fire (t : nat).

Definition step (sig : Signal) (s : State) : State :=
  match sig with
  | ScheduleCredentialRefresh => scheduleCredentialRefresh s
  | ScheduleStateRefresh => scheduleStateRefresh s
  | ScheduleReconnect => scheduleReconnect s
  | ClearTimers => clearTimers s
  | Fire t => fire t s
  end.

Definition run (sigs : list Signal) (s : State) : State :=
  fold_left (fun s sig => step sig s) sigs s.

(** The field that holds the timer of a callback. *)
Definition field (cb : Callback) (s : State) : option nat :=
  match cb with
  | refreshCredentials => credentialRefreshTimer s
  | refreshState => stateRefreshTimer s
  | reconnect => reconnectTimer s
  end.

(** The pending timers of a callback. *)
Definition pending_of (cb : Callback) (timers : list Timer) : list Timer :=
  List.filter (fun x => Callback_eqb (callback x) cb) timers.
End Timers.

(** ** lib/MaytronicsApi.ts: [encryptMotorUnitSerial], lines 102-128 *)
Module Api.
(** [s.replace(/\+/g, '%2B')]. *)
Fixpoint replace_plus (s : string) : string :=
  match s with
  | EmptyString => EmptyString
  | String c rest =>
      if Ascii.eqb c "+" then "%2B" ++ replace_plus rest
      else String c (replace_plus rest)
  end.

Section WithCipher.
(** [candidate email motorUnitSerial n]: the text
    [Buffer.concat([iv, encrypted]).toString('base64')] of the [n]-th pass,
    for the vector that the [n]-th call of [crypto.randomBytes(16)]
    returns. *)
Variable candidate : string -> string -> nat -> string.

(** The [for] loop, from pass [i], with [remaining] passes to go. *)
Fixpoint retry (email motorUnitSerial : string) (remaining i : nat)
  : option string :=
  match remaining with
  | O => None
  | S remaining =>
      let result := candidate email motorUnitSerial i in
      if negb (JSText.includes "+" result) then Some result
      else retry email motorUnitSerial remaining (S i)
  end.

Definition encryptMotorUnitSerial (email motorUnitSerial : string) : string :=
  match retry email motorUnitSerial 20 0 with
  | Some result => result
  | None => replace_plus (candidate email motorUnitSerial 20)
  end.
End WithCipher.
End Api.

(** The names of the capabilities written in a trace, in order. *)
Definition capabilities_written (t : list Device.Event) : list string :=
  omap (fun e => match e with
                 | Device.SetCapabilityValue name _ => Some name
                 | Device.Trigger _ _ => None
                 end) t.

(** The capabilities [onStateUpdate] writes, in the order of its blocks. *)
Definition state_capabilities : list string :=
  ["onoff"; "robot_status"; "cycle_count"; "cleaning_mode";
   "cycle_time_remaining"; "filter_status"; "wifi_signal"; "network_name";
   "robot_error"; "led_mode"; "dim"].

(** A timestamp of the form [YYYYMMDDTHHMMSSZ]. *)
Definition is_basic_timestamp (s : string) : bool :=
  match list_ascii_of_string s with
  | [y1; y2; y3; y4; m1; m2; d1; d2; t; h1; h2; n1; n2; s1; s2; z] =>
      forallb JS.is_digit [y1; y2; y3; y4; m1; m2; d1; d2]
      && Ascii.eqb t "T"
      && forallb JS.is_digit [h1; h2; n1; n2; s1; s2]
      && Ascii.eqb z "Z"
  | _ => false
  end.

(** The pending timers of one callback, against the field of the
    callback: none, or the one the field holds. *)
Definition one_held (l : list Timers.Timer) (f : option nat) : Prop :=
  l = [] \/ exists t : Timers.Timer, l = [t] /\ f = Some (Timers.id t).

(** What holds of the timers at every moment: of each callback at most one
    timer is pending, and it is the one its field holds. *)
Definition timers_held (s : Timers.State) : Prop :=
  forall cb : Timers.Callback,
    one_held (Timers.pending_of cb (Timers.pending s)) (Timers.field cb s).

(** ** drivers/dolphin/device.ts: connecting, refreshing, reconnecting

    The methods that drive the REST client and the shadow session.  What
    an awaited call does is the callee's business: here it is an outcome
    that the caller is handed, and the call itself is recorded in the
    trace. *)
Module Lifecycle.
(** How an awaited call ends: it returns a value, it throws an [Error]
    with a name and a message, or its promise is never settled. *)
Inductive Outcome (A : Type) : Type :=
| Returns (a : A)
| Throws (name message : string)
| Hangs.
Arguments Returns {A} a.
Arguments Throws {A} name message.
Arguments Hangs {A}.

(** [this.log] and [this.error] with their first argument, the calls made
    to the REST client and to the session, and Homey's availability
    calls. *)
Inductive Event : Type :=
| Log (line : string)
| Error (line : string)
| ApiLogin (email password : option string)
| ApiGetAwsCredentials (email motorUnitSerial : option string)
| CloudConnect (motorUnitSerial : option string) (credentials : AwsCredentials)
| CloudDisconnect
| CloudRequestState
| CloudRequestTemperature (serialNumber : option string)
| SetAvailable
| SetUnavailable (message : string).

(** [this.getSettings()] and [this.getStore()]: a missing entry is
    [undefined]. *)
Record Settings : Set := {
  email : option string;
  password : option string
}.

Record Store : Set := {
  motorUnitSerial : option string;
  robotFamily : option string;
  serialNumber : option string
}.

(** The fields of [class DolphinDevice] these methods write. *)
Record Device : Set := {
  timers : Timers.State;
  awsCredentials : option AwsCredentials
}.

Definition Op : Type -> Type := M Device Event.

Definition on_timers (f : Timers.State -> Timers.State) : Op unit :=
  modify (fun d =>
    {| timers := f (timers d); awsCredentials := awsCredentials d |}).

Definition set_awsCredentials (c : AwsCredentials) : Op unit :=
  modify (fun d => {| timers := timers d; awsCredentials := Some c |}).

Definition log (line : string) : Op unit := tell (Log line).
Definition error (line : string) : Op unit := tell (Error line).

(** Truthiness of a setting, and its text in a template literal. *)
Definition truthy (o : option string) : bool :=
  match o with
  | Some s => JS.truthy s
  | None => false
  end.

Definition text (o : option string) : string := default "undefined" o.

(** [err?.message || String(err)] of a thrown [Error]. *)
Definition message_of (name message : string) : string :=
  if JS.truthy message then message else name.

(** [requestTemperatureIfSupported], lines 489-494. *)
Definition requestTemperatureIfSupported (store : Store) : Op unit :=
  match robotFamily store with
  | Some family =>
      when (family === "M700")
        (tell (CloudRequestTemperature (serialNumber store)))
  | None => ret tt
  end.

(** The [try] block of [connectToCloud], lines 188-225: how it ends. *)
Definition connectToCloud_try (settings : Settings) (store : Store)
           (login : Outcome unit) (credentials : Outcome AwsCredentials)
           (connected : Outcome unit) : Op (Outcome unit) :=
  log ("Connecting: email=" ++ text (email settings) ++ ", motorUnitSerial="
       ++ text (motorUnitSerial store)) ;;
  if negb (truthy (email settings)) || negb (truthy (password settings))
  then ret (Throws "Error" "Missing email or password in device settings")
  else if negb (truthy (motorUnitSerial store))
  then ret (Throws "Error" "Missing motorUnitSerial in device store")
  else
    log "Step 1: Logging in to Maytronics API..." ;;
    tell (ApiLogin (email settings) (password settings)) ;;
    match login with
    | Throws name message => ret (Throws name message)
    | Hangs => ret Hangs
    | Returns _ =>
        log "Step 1: Login successful" ;;
        log "Step 2: Getting AWS credentials..." ;;
        tell (ApiGetAwsCredentials (email settings) (motorUnitSerial store)) ;;
        match credentials with
        | Throws name message => ret (Throws name message)
        | Hangs => ret Hangs
        | Returns creds =>
            set_awsCredentials creds ;;
            log "Step 2: AWS credentials received" ;;
            log "Step 3: Connecting MQTT..." ;;
            tell (CloudConnect (motorUnitSerial store) creds) ;;
            match connected with
            | Throws name message => ret (Throws name message)
            | Hangs => ret Hangs
            | Returns _ =>
                log "Step 3: MQTT connected" ;;
                requestTemperatureIfSupported store ;;
                on_timers Timers.scheduleCredentialRefresh ;;
                on_timers Timers.scheduleStateRefresh ;;
                ret (Returns tt)
            end
        end
    end.

(** [connectToCloud], lines 187-232. *)
Definition connectToCloud (settings : Settings) (store : Store)
           (login : Outcome unit) (credentials : Outcome AwsCredentials)
           (connected : Outcome unit) : Op unit :=
  r <- connectToCloud_try settings store login credentials connected ;;
  match r with
  | Returns _ | Hangs => ret tt
  | Throws name message =>
      let message := message_of name message in
      error "Failed to connect:" ;;
      tell (SetUnavailable message) ;;
      on_timers Timers.scheduleReconnect
  end.

(** [refreshCredentials], lines 476-484. *)
Definition refreshCredentials (settings : Settings) (store : Store)
           (credentials : Outcome AwsCredentials) (connected : Outcome unit)
  : Op (Outcome unit) :=
  tell (ApiGetAwsCredentials (email settings) (motorUnitSerial store)) ;;
  match credentials with
  | Throws name message => ret (Throws name message)
  | Hangs => ret Hangs
  | Returns creds =>
      set_awsCredentials creds ;;
      tell (CloudConnect (motorUnitSerial store) creds) ;;
      match connected with
      | Throws name message => ret (Throws name message)
      | Hangs => ret Hangs
      | Returns _ =>
          tell CloudRequestState ;;
          log "Credentials refreshed, MQTT reconnected" ;;
          ret (Returns tt)
      end
  end.

(** The callback of the credential timer, lines 439-446. *)
Definition onCredentialRefreshTimer (settings : Settings) (store : Store)
           (credentials : Outcome AwsCredentials) (connected : Outcome unit)
  : Op unit :=
  r <- refreshCredentials settings store credentials connected ;;
  match r with
  | Returns _ => on_timers Timers.scheduleCredentialRefresh
  | Throws _ _ =>
      error "Credential refresh failed:" ;;
      on_timers Timers.scheduleReconnect
  | Hangs => ret tt
  end.

(** The callback of the state timer, lines 453-459; [cloud_connected] is
    the value of [this.cloud.connected]. *)
Definition onStateRefreshTimer (store : Store) (cloud_connected : bool)
  : Op unit :=
  when cloud_connected
    (tell CloudRequestState ;; requestTemperatureIfSupported store) ;;
  on_timers Timers.scheduleStateRefresh.

(** The callback of the reconnect timer, lines 466-469. *)
Definition onReconnectTimer (settings : Settings) (store : Store)
           (login : Outcome unit) (credentials : Outcome AwsCredentials)
           (connected : Outcome unit) : Op unit :=
  log "Attempting reconnect..." ;;
  connectToCloud settings store login credentials connected.

(** The listeners of [connected] and [disconnected] that [onInit]
    registers, lines 157-167. *)
Definition onConnected : Op unit :=
  log "MQTT connected" ;;
  tell SetAvailable ;;
  tell CloudRequestState.

Definition onDisconnected : Op unit :=
  log "MQTT disconnected" ;;
  tell (SetUnavailable "Connection lost") ;;
  on_timers Timers.scheduleReconnect.

(** [onUninit], lines 520-523, and [onDeleted], lines 514-518, up to its
    log line. *)
Definition onUninit : Op unit :=
  on_timers Timers.clearTimers ;;
  tell CloudDisconnect.

Definition is_call (e : Event) : bool :=
  match e with
  | ApiLogin _ _ | ApiGetAwsCredentials _ _ | CloudConnect _ _
  | CloudDisconnect | CloudRequestState | CloudRequestTemperature _ => true
  | _ => false
  end.

Definition is_SetUnavailable (e : Event) : bool :=
  match e with SetUnavailable _ => true | _ => false end.

Definition settled {A : Type} (o : Outcome A) : bool :=
  match o with Hangs => false | _ => true end.

Definition returned {A : Type} (o : Outcome A) : bool :=
  match o with Returns _ => true | _ => false end.
End Lifecycle.

(** The outcome of awaited calls made one after the other: that of the
    first that does not return, else that of the last. *)
Definition after_returns {A B : Type} (first : Lifecycle.Outcome A)
           (next : Lifecycle.Outcome B) : Lifecycle.Outcome B :=
  match first with
  | Lifecycle.Returns _ => next
  | Lifecycle.Throws name message => Lifecycle.Throws name message
  | Lifecycle.Hangs => Lifecycle.Hangs
  end.

(** How the [try] block of [connectToCloud] ends, from the settings and
    the outcomes of the three calls it awaits. *)
Definition connect_outcome (settings : Lifecycle.Settings)
           (store : Lifecycle.Store) (login : Lifecycle.Outcome unit)
           (credentials : Lifecycle.Outcome AwsCredentials)
           (connected : Lifecycle.Outcome unit) : Lifecycle.Outcome unit :=
  if negb (Lifecycle.truthy (Lifecycle.email settings)
           && Lifecycle.truthy (Lifecycle.password settings))
  then Lifecycle.Throws "Error" "Missing email or password in device settings"
  else if negb (Lifecycle.truthy (Lifecycle.motorUnitSerial store))
  then Lifecycle.Throws "Error" "Missing motorUnitSerial in device store"
  else after_returns login (after_returns credentials connected).

(** What [connectToCloud] and the timer callbacks do to the timers, by the
    way their awaited calls ended. *)
Definition rearmed (own : Timers.State -> Timers.State)
           (outcome : Lifecycle.Outcome unit) (t : Timers.State)
  : Timers.State :=
  match outcome with
  | Lifecycle.Returns _ => own t
  | Lifecycle.Throws _ _ => Timers.scheduleReconnect t
  | Lifecycle.Hangs => t
  end.

(* ================================================================== *)
(** * Part II. Properties                                              *)
(* ================================================================== *)

(** ** State interpreter *)

(** C2.  For every pair of strings, [calculateState] returns the status of
    the first matching precedence rule (1)-(7); it is total, and the status
    is unique: any status that the ordered rules assign to the pair is the
    one the function returns, and it is one of the seven derived statuses. *)
Theorem calculateState_first_matching_rule :
  forall pwsState robotState : string,
    first_match (precedence_rules pwsState robotState)
                (calculateState pwsState robotState)
    /\ (forall s, first_match (precedence_rules pwsState robotState) s ->
                  s = calculateState pwsState robotState)
    /\ In (calculateState pwsState robotState) CalculatedState.all.
Proof.
  intros p r.
  assert (Hex : first_match (precedence_rules p r) (calculateState p r)).
  { unfold calculateState, precedence_rules,
      PwsState.Error, PwsState.Programming, PwsState.HoldDelay,
      PwsState.HoldWeekly, PwsState.On, RobotState.Fault,
      RobotState.Programming, RobotState.Init, RobotState.Finished,
      RobotState.NotConnected.
    destruct (String.eqb_spec p "error") as [Hpe|Hpe];
    destruct (String.eqb_spec r "fault") as [Hrf|Hrf]; cbn [orb];
      try (apply first_match_here; tauto).
    apply first_match_later; [tauto|].
    destruct (String.eqb_spec p "programming") as [Hpp|Hpp];
    destruct (String.eqb_spec r "programming") as [Hrp|Hrp]; cbn [andb];
      try (apply first_match_here; tauto);
      (apply first_match_later; [tauto|]);
      (destruct (String.eqb_spec p "holdDelay") as [Hhd|Hhd];
       [apply first_match_here; tauto | apply first_match_later; [tauto|]]);
      (destruct (String.eqb_spec p "holdWeekly") as [Hhw|Hhw];
       [apply first_match_here; tauto | apply first_match_later; [tauto|]]);
      destruct (String.eqb_spec p "on") as [Hon|Hon];
      destruct (String.eqb_spec r "init") as [Hri|Hri]; cbn [andb orb];
      try (apply first_match_here; tauto);
      (apply first_match_later; [tauto|]);
      destruct (String.eqb_spec r "finished") as [Hfi|Hfi];
      destruct (String.eqb_spec r "notConnected") as [Hnc|Hnc];
      cbn [andb orb negb];
      try (apply first_match_here; tauto);
      try (apply first_match_later; [subst; intuition congruence|];
           apply first_match_here; exact I). }
  split; [exact Hex|]. split.
  - intros s Hs. revert Hex. generalize (calculateState p r) as s0.
    revert Hs. generalize (precedence_rules p r) as rules.
    intros rules Hs. induction Hs as [P s rest HP | P s rest s' HnP Hs IH];
      intros s0 H0; inversion H0; subst; try tauto.
    apply IH; assumption.
  - unfold CalculatedState.all.
    destruct (calculateState p r); simpl; tauto.
Qed.

(** C3.  [getFilterBagStatus] is a total function on the integers with the
    listed boundary values, and every negative value and every value above
    102 maps to [unknown]. *)
Theorem getFilterBagStatus_boundaries :
  getFilterBagStatus 0 = "empty"
  /\ getFilterBagStatus 25 = "partially_full"
  /\ getFilterBagStatus 26 = "getting_full"
  /\ getFilterBagStatus 74 = "getting_full"
  /\ getFilterBagStatus 75 = "almost_full"
  /\ getFilterBagStatus 99 = "almost_full"
  /\ getFilterBagStatus 100 = "full"
  /\ getFilterBagStatus 101 = "fault"
  /\ getFilterBagStatus 102 = "not_available"
  /\ getFilterBagStatus (-1) = "unknown"
  /\ getFilterBagStatus 103 = "unknown"
  /\ (forall v : Z, v < 0 \/ 102 < v -> getFilterBagStatus v = "unknown")
  /\ (forall v : Z,
        In (getFilterBagStatus v)
           ["unknown"; "empty"; "partially_full"; "getting_full";
            "almost_full"; "full"; "fault"; "not_available"]).
Proof.
  repeat (split; [reflexivity|]).
  split.
  - intros v Hv. unfold getFilterBagStatus.
    destruct (Z.ltb_spec v 0) as [|H0]; [reflexivity|].
    destruct (Z.eqb_spec v 0); [lia|].
    destruct (Z.leb_spec v 25); [lia|].
    destruct (Z.leb_spec v 74); [lia|].
    destruct (Z.leb_spec v 99); [lia|].
    destruct (Z.eqb_spec v 100); [lia|].
    destruct (Z.eqb_spec v 101); [lia|].
    destruct (Z.eqb_spec v 102); [lia|].
    reflexivity.
  - intros v. unfold getFilterBagStatus.
    repeat (match goal with
            | |- context [if ?b then _ else _] => destruct b
            end; [simpl; tauto|]).
    simpl; tauto.
Qed.

Lemma getFilterBagStatus_boundaries_witness :
  getFilterBagStatus (-7) = "unknown" /\ getFilterBagStatus 250 = "unknown".
Proof.
  split.
  - apply getFilterBagStatus_boundaries. left. lia.
  - apply getFilterBagStatus_boundaries. right. lia.
Defined.

(** ** The state-and-trace monad *)

Section StateTraceFacts.
Context {S E : Type}.
Implicit Types (s : S).

Lemma bind_unfold {A B : Type} (m : M S E A) (k : A -> M S E B) s :
  bind m k s =
  (value_of (k (value_of (m s)) (state_of (m s))),
   state_of (k (value_of (m s)) (state_of (m s))),
   (trace_of (m s) ++ trace_of (k (value_of (m s)) (state_of (m s))))%list).
Proof.
  unfold bind, value_of, state_of, trace_of.
  destruct (m s) as [[a s1] t1]; simpl.
  destruct (k a s1) as [[b s2] t2]; reflexivity.
Qed.

Lemma state_of_bind {A B : Type} (m : M S E A) (k : A -> M S E B) s :
  state_of (bind m k s) = state_of (k (value_of (m s)) (state_of (m s))).
Proof. rewrite bind_unfold. reflexivity. Qed.

Lemma trace_of_bind {A B : Type} (m : M S E A) (k : A -> M S E B) s :
  trace_of (bind m k s) =
  (trace_of (m s) ++ trace_of (k (value_of (m s)) (state_of (m s))))%list.
Proof. rewrite bind_unfold. reflexivity. Qed.

Lemma value_of_bind {A B : Type} (m : M S E A) (k : A -> M S E B) s :
  value_of (bind m k s) = value_of (k (value_of (m s)) (state_of (m s))).
Proof. rewrite bind_unfold. reflexivity. Qed.
End StateTraceFacts.

(** ** Shadow session: publishing commands *)

Lemma connected_client_None (s : Cloud.State) :
  Cloud.client (Cloud.session s) = None
  \/ Cloud._connected (Cloud.session s) = false ->
  Cloud.connected_client s = (None, s, []).
Proof.
  intros H. unfold Cloud.connected_client, Cloud.this_client,
    Cloud.this_connected, bind, ret. simpl.
  destruct (Cloud.client (Cloud.session s)) as [c|]; [|reflexivity].
  destruct H as [H|H]; [discriminate|]. rewrite H. reflexivity.
Qed.

Lemma connected_client_Some (s : Cloud.State) (c : Cloud.ClientId) :
  Cloud.client (Cloud.session s) = Some c ->
  Cloud._connected (Cloud.session s) = true ->
  Cloud.connected_client s = (Some c, s, []).
Proof.
  intros Hc Hb. unfold Cloud.connected_client, Cloud.this_client,
    Cloud.this_connected, bind, ret. simpl. rewrite Hc, Hb. reflexivity.
Qed.

(** C4.  When the client handle is absent or the connected flag is false,
    [sendCommand] returns normally, its whole trace is one [error]
    notification (so nothing is published) and the state is the one it
    started from.  When a client is held and the flag is set, it publishes
    the serialisation of [{state: {desired}}] to the shadow update topic of
    the stored device id, on that client, emits no notification and leaves
    the state as it was. *)
Theorem sendCommand_publishes_or_reports (desired : JSON.value)
        (s : Cloud.State) :
  (Cloud.client (Cloud.session s) = None
   \/ Cloud._connected (Cloud.session s) = false ->
   Cloud.sendCommand desired s
   = (tt, s, [Cloud.Emit (Cloud.error "Cannot send command: not connected")]))
  /\ (forall c : Cloud.ClientId,
        Cloud.client (Cloud.session s) = Some c ->
        Cloud._connected (Cloud.session s) = true ->
        state_of (Cloud.sendCommand desired s) = s
        /\ List.filter Cloud.is_publish (trace_of (Cloud.sendCommand desired s))
           = [Cloud.MqttPublish c
                (getShadowUpdateTopic (Cloud.motorUnitSerial (Cloud.session s)))
                (JSON.stringify
                   (JSON.Object
                      [("state", JSON.Object [("desired", desired)])]))]
        /\ List.filter Cloud.is_error_notification
             (trace_of (Cloud.sendCommand desired s)) = []).
Proof.
  split.
  - intros H. unfold Cloud.sendCommand. unfold bind at 1.
    rewrite (connected_client_None s H). reflexivity.
  - intros c Hc Hb.
    assert (Heq : Cloud.sendCommand desired s
                  = (tt, s,
                     [Cloud.Log
                        ("[MQTT] Sending command to "
                         ++ getShadowUpdateTopic
                              (Cloud.motorUnitSerial (Cloud.session s))
                         ++ ": "
                         ++ JS.slice0 200
                              (JSON.stringify
                                 (JSON.Object
                                    [("state",
                                      JSON.Object [("desired", desired)])])));
                      Cloud.MqttPublish c
                        (getShadowUpdateTopic
                           (Cloud.motorUnitSerial (Cloud.session s)))
                        (JSON.stringify
                           (JSON.Object
                              [("state",
                                JSON.Object [("desired", desired)])]))])).
    { unfold Cloud.sendCommand. unfold bind at 1.
      rewrite (connected_client_Some s c Hc Hb). reflexivity. }
    rewrite Heq. repeat split.
Qed.

Lemma sendCommand_publishes_or_reports_witness :
  let off := Cloud.initial in
  let on :=
    {| Cloud.session := {| Cloud.client := Some 0%nat;
                           Cloud.motorUnitSerial := "D1";
                           Cloud._connected := true |};
       Cloud.live := [0%nat]; Cloud.created := 1 |} in
  let desired :=
    JSON.Object [("led", JSON.Object [("ledMode", JSON.Number 2)])] in
  Cloud.sendCommand desired off
  = (tt, off, [Cloud.Emit (Cloud.error "Cannot send command: not connected")])
  /\ List.filter Cloud.is_publish (trace_of (Cloud.sendCommand desired on))
     = [Cloud.MqttPublish 0%nat "$aws/things/D1/shadow/update"
          (JSON.stringify
             (JSON.Object [("state", JSON.Object [("desired", desired)])]))].
Proof.
  intros off on desired. split.
  - apply (sendCommand_publishes_or_reports desired off). left. reflexivity.
  - apply (proj2 (sendCommand_publishes_or_reports desired on) 0%nat);
      reflexivity.
Defined.

(** ** Shadow session: the connected flag and the [disconnected]
    notification *)

Lemma emitted_app (n : Cloud.Notification) (t1 t2 : list Cloud.Event) :
  Cloud.emitted n (t1 ++ t2)%list
  = (Cloud.emitted n t1 + Cloud.emitted n t2)%nat.
Proof.
  unfold Cloud.emitted. rewrite List.filter_app, List.length_app. reflexivity.
Qed.

Ltac destruct_cloud_state s :=
  let cl := fresh "cl" in
  let ms := fresh "ms" in
  let cn := fresh "cn" in
  let lv := fresh "lv" in
  let cr := fresh "cr" in
  destruct s as [[cl ms cn] lv cr]; destruct cl as [?c|]; destruct cn.

Section SessionFacts.
Variable signWebSocketUrl : string -> string -> AwsCredentials -> Z -> string.

#[local] Abbreviation step := (Cloud.step signWebSocketUrl).
#[local] Abbreviation run := (Cloud.run signWebSocketUrl).

Lemma run_cons (sig : Cloud.Signal) (sigs : list Cloud.Signal)
      (s : Cloud.State) :
  state_of (run (sig :: sigs) s) = state_of (run sigs (state_of (step sig s)))
  /\ trace_of (run (sig :: sigs) s)
     = (trace_of (step sig s)
        ++ trace_of (run sigs (state_of (step sig s))))%list.
Proof using Type.
  cbn [Cloud.run]. rewrite state_of_bind, trace_of_bind. split; reflexivity.
Qed.

(** One signal: what it emits of [disconnected], and what it leaves in
    the flag, against whether it is a successful transport connect. *)
Lemma step_disconnected_budget (sig : Cloud.Signal) (s : Cloud.State) :
  (Cloud.emitted Cloud.disconnected (trace_of (step sig s))
   + (if Cloud._connected (Cloud.session (state_of (step sig s)))
      then 1 else 0)
   <= (if is_transport_connect sig then 1 else 0)
      + (if Cloud._connected (Cloud.session s) then 1 else 0))%nat.
Proof using Type.
  destruct sig as [m creds now stamp| | |desired|payload|suback|msg|msg|c|];
    destruct_cloud_state s; try destruct suback; cbn; lia.
Qed.

Lemma close_step (c : Cloud.ClientId) (s : Cloud.State) :
  Cloud.emitted Cloud.disconnected
    (trace_of (step (Cloud.TransportClose c) s))
  = (if Cloud._connected (Cloud.session s) then 1 else 0)%nat
  /\ Cloud._connected
       (Cloud.session (state_of (step (Cloud.TransportClose c) s))) = false.
Proof using Type.
  destruct_cloud_state s; cbn; split; reflexivity.
Qed.
End SessionFacts.


Lemma run_closes_disconnected
      (signWebSocketUrl : string -> string -> AwsCredentials -> Z -> string)
      (cs : list Cloud.ClientId) (s : Cloud.State) :
  Cloud.emitted Cloud.disconnected
    (trace_of (Cloud.run signWebSocketUrl (List.map Cloud.TransportClose cs) s))
  = (if Cloud._connected (Cloud.session s)
     then match cs with [] => 0 | _ :: _ => 1 end
     else 0)%nat
  /\ (cs <> [] ->
      Cloud._connected
        (Cloud.session
           (state_of
              (Cloud.run signWebSocketUrl (List.map Cloud.TransportClose cs) s)))
      = false).
Proof.
  revert s. induction cs as [|c cs IH]; intros s.
  - split; [|congruence]. cbn. destruct (Cloud._connected (Cloud.session s));
      reflexivity.
  - cbn [List.map].
    destruct (run_cons signWebSocketUrl (Cloud.TransportClose c)
                (List.map Cloud.TransportClose cs) s) as [Hst Htr].
    destruct (close_step signWebSocketUrl c s) as [Hem Hfl].
    destruct (IH (state_of (Cloud.step signWebSocketUrl
                              (Cloud.TransportClose c) s))) as [IHem IHfl].
    split.
    + rewrite Htr, emitted_app, Hem, IHem, Hfl.
      destruct (Cloud._connected (Cloud.session s)); reflexivity.
    + intros _. rewrite Hst. destruct cs as [|c' cs'].
      * cbn [List.map Cloud.run]. exact Hfl.
      * apply IHfl. congruence.
Qed.

(** C6.  A close signal emits [disconnected] exactly when the connected
    flag was set, and clears the flag.  Hence a run of close signals emits
    it once if the session was connected and never otherwise, however many
    closes arrive; and along any sequence of calls and signals the number of
    [disconnected] notifications is bounded by the number of successful
    transport connects, plus one if the session started connected. *)
Theorem disconnected_once_per_transition
        (signWebSocketUrl : string -> string -> AwsCredentials -> Z -> string) :
  (forall (c : Cloud.ClientId) (s : Cloud.State),
      Cloud.emitted Cloud.disconnected
        (trace_of (Cloud.step signWebSocketUrl (Cloud.TransportClose c) s))
      = (if Cloud._connected (Cloud.session s) then 1 else 0)%nat
      /\ Cloud._connected
           (Cloud.session
              (state_of
                 (Cloud.step signWebSocketUrl (Cloud.TransportClose c) s)))
         = false)
  /\ (forall (cs : list Cloud.ClientId) (s : Cloud.State),
        Cloud.emitted Cloud.disconnected
          (trace_of
             (Cloud.run signWebSocketUrl (List.map Cloud.TransportClose cs) s))
        = (if Cloud._connected (Cloud.session s)
           then match cs with [] => 0 | _ :: _ => 1 end
           else 0)%nat)
  /\ (forall (sigs : list Cloud.Signal) (s : Cloud.State),
        (Cloud.emitted Cloud.disconnected
           (trace_of (Cloud.run signWebSocketUrl sigs s))
         <= List.length (List.filter is_transport_connect sigs)
            + (if Cloud._connected (Cloud.session s) then 1 else 0))%nat).
Proof.
  split; [exact (close_step signWebSocketUrl)|]. split.
  - intros cs s. apply run_closes_disconnected.
  - intros sigs. induction sigs as [|sig sigs IH]; intros s.
    + cbn. lia.
    + destruct (run_cons signWebSocketUrl sig sigs s) as [_ Htr].
      rewrite Htr, emitted_app.
      pose proof (step_disconnected_budget signWebSocketUrl sig s) as Hb.
      pose proof (IH (state_of (Cloud.step signWebSocketUrl sig s))) as Hr.
      cbn [List.filter]. destruct (is_transport_connect sig);
        cbn [List.length]; lia.
Qed.


(** ** Shadow session: one live transport *)

Lemma at_most_one_live_length (s : Cloud.State) :
  at_most_one_live s -> (List.length (Cloud.live s) <= 1)%nat.
Proof.
  intros [H | (c & H & _)]; rewrite H; cbn; lia.
Qed.

Ltac invariant_cases H :=
  let c := fresh "c" in
  let Hl := fresh "Hl" in
  let Hc := fresh "Hc" in
  let Hk := fresh "Hk" in
  destruct H as [[Hl | (c & Hl & Hc)] Hk];
  unfold handle_known in Hk; cbn in Hl, Hk; try (cbn in Hc);
  subst; try discriminate;
  try (match goal with
       | Hc : Some _ = Some _ |- _ => injection Hc as Hc; subst
       end).

Ltac solve_invariant :=
  unfold session_invariant, at_most_one_live, handle_known; cbn;
  try rewrite Nat.eqb_refl; cbn;
  first
    [ split; [left; reflexivity | solve [auto | lia]]
    | split; [right; eexists; split; reflexivity | solve [auto | lia]] ].

Section OneLiveTransport.
Variable signWebSocketUrl : string -> string -> AwsCredentials -> Z -> string.

Lemma step_preserves_invariant (sig : Cloud.Signal) (s : Cloud.State) :
  session_invariant s ->
  session_invariant (state_of (Cloud.step signWebSocketUrl sig s)).
Proof using Type.
  intros H.
  destruct sig as [m creds now stamp| | |desired|payload|suback|msg|msg|c'|];
    destruct_cloud_state s; try destruct suback; invariant_cases H;
    try solve_invariant.
  all: unfold session_invariant, at_most_one_live, handle_known; cbn.
  all: match goal with
       | |- context [Nat.eqb ?a ?b] => destruct (Nat.eqb a b)
       end; cbn; (split; [|lia]);
    [left; reflexivity | right; eexists; split; reflexivity].
Qed.

Lemma step_keeps_none_live (sig : Cloud.Signal) (s : Cloud.State) :
  Async.starts_call (Async.Now sig) = false ->
  Cloud.live s = [] ->
  Cloud.live (state_of (Cloud.step signWebSocketUrl sig s)) = [].
Proof using Type.
  intros Hsig Hlive.
  destruct sig as [m creds now stamp| | |desired|payload|suback|msg|msg|c'|];
    try discriminate;
    destruct_cloud_state s; try destruct suback; cbn in Hlive; subst;
    reflexivity.
Qed.

Lemma async_step_preserves_invariant (sig : Async.Signal) (s : Async.State) :
  async_invariant s ->
  negb (Async.starts_call sig)
  || match Async.suspended s with [] => true | _ :: _ => false end = true ->
  async_invariant (fst (Async.step signWebSocketUrl sig s)).
Proof using Type.
  intros [Hk H] Hok. destruct s as [cs sus].
  cbn [Async.cloud Async.suspended] in *.
  destruct sig as [m creds| |i now stamp|sig].
  - (* a connect starts: nothing else is suspended *)
    cbn [Async.starts_call negb orb] in Hok.
    destruct sus as [|p sus]; [|discriminate].
    assert (Hinv : session_invariant cs) by (split; assumption).
    clear Hk H. destruct_cloud_state cs; invariant_cases Hinv;
      unfold async_invariant, handle_known; cbn;
      try rewrite Nat.eqb_refl; cbn; (split; [solve [auto | lia]|reflexivity]).
  - (* a disconnect starts *)
    cbn [Async.starts_call negb orb] in Hok.
    destruct sus as [|p sus]; [|discriminate].
    assert (Hinv : session_invariant cs) by (split; assumption).
    clear Hk H. destruct_cloud_state cs; invariant_cases Hinv;
      unfold async_invariant, handle_known, at_most_one_live; cbn;
      try rewrite Nat.eqb_refl; cbn;
      (split; [solve [auto | lia]|]); try reflexivity; left; reflexivity.
  - (* a suspended call goes on *)
    unfold Async.step, Async.resume. cbn [Async.suspended Async.cloud].
    destruct sus as [|p [|p' sus]]; [| |destruct H].
    + destruct i; (split; [exact Hk|exact H]).
    + destruct i as [|i]; [|split; [exact Hk|exact H]].
      cbn [lookup list_lookup fst]. unfold async_invariant.
      cbn [Async.cloud Async.suspended delete list_delete].
      destruct p as [[c0|] m creds|c0]; destruct_cloud_state cs;
        cbn in H, Hk; subst; unfold handle_known, at_most_one_live; cbn;
        (split; [solve [auto | lia]|]);
        solve [left; reflexivity | right; eexists; split; reflexivity].
  - (* any other signal *)
    unfold Async.step. cbn [fst]. unfold async_invariant.
    cbn [Async.cloud Async.suspended].
    destruct sus as [|p [|p' sus]]; [| |destruct H].
    + destruct (step_preserves_invariant sig cs (conj H Hk)) as [Hl Hh].
      split; assumption.
    + assert (Hcall : Async.starts_call (Async.Now sig) = false).
      { destruct (Async.starts_call (Async.Now sig));
          [discriminate|reflexivity]. }
      split.
      * apply (step_preserves_invariant sig cs).
        split; [left; exact H|exact Hk].
      * apply step_keeps_none_live; assumption.
Qed.
End OneLiveTransport.


Lemma async_run_preserves_invariant
      (signWebSocketUrl : string -> string -> AwsCredentials -> Z -> string)
      (sigs : list Async.Signal) (s : Async.State) :
  async_invariant s ->
  Async.calls_do_not_overlap signWebSocketUrl sigs s = true ->
  async_invariant (fst (Async.run signWebSocketUrl sigs s)).
Proof.
  revert s. induction sigs as [|sig sigs IH]; intros s Hinv Hok.
  - exact Hinv.
  - cbn [Async.calls_do_not_overlap] in Hok.
    apply andb_prop in Hok as [Hsig Hrest].
    pose proof (async_step_preserves_invariant signWebSocketUrl sig s
                  Hinv Hsig) as Hstep.
    specialize (IH _ Hstep Hrest).
    cbn [Async.run].
    destruct (Async.step signWebSocketUrl sig s) as [s1 t1].
    cbn [fst] in IH.
    destruct (Async.run signWebSocketUrl sigs s1) as [s2 t2]. exact IH.
Qed.

Lemma async_invariant_one_live (s : Async.State) :
  async_invariant s -> at_most_one_live (Async.cloud s).
Proof.
  intros [_ H]. destruct (Async.suspended s) as [|p [|p' sus]].
  - exact H.
  - left. exact H.
  - destruct H.
Qed.

(** C7, as amended.  As long as no call of [connect] or [disconnect] starts
    while an earlier one is suspended at its [await], every state of the
    session, the states inside a call included, has at most one live
    transport, and it is the one the session holds.  A call of [connect]
    that runs without overlap is its entry, then [disconnect] run to
    completion, then the opening of a new client: once [disconnect] is done
    the handle is null and no transport is live, and [connect] ends with
    exactly the new client live and held, a client different from the prior
    one, which was ended before the new one was created.  [disconnect]
    without a client changes nothing and does nothing. *)
Theorem one_live_transport_without_overlap
        (signWebSocketUrl : string -> string -> AwsCredentials -> Z -> string) :
  (forall sigs : list Async.Signal,
      Async.calls_do_not_overlap signWebSocketUrl sigs Async.initial = true ->
      let s :=
        Async.cloud (fst (Async.run signWebSocketUrl sigs Async.initial)) in
      at_most_one_live s /\ (List.length (Cloud.live s) <= 1)%nat)
  /\ (forall (s : Cloud.State) (m : string) (creds : AwsCredentials)
             (now stamp : Z),
        session_invariant s ->
        let s1 := state_of (Cloud.connect_enter m s) in
        let s2 := state_of (Cloud.disconnect s1) in
        let r := Cloud.connect signWebSocketUrl m creds now stamp s in
        Async.cloud
          (fst (Async.run signWebSocketUrl
                  [Async.BeginConnect m creds; Async.Resume 0%nat now stamp]
                  {| Async.cloud := s; Async.suspended := [] |}))
        = state_of r
        /\ Cloud.client (Cloud.session s2) = None
        /\ Cloud.live s2 = []
        /\ value_of r = Cloud.created s
        /\ Cloud.client (Cloud.session (state_of r)) = Some (Cloud.created s)
        /\ Cloud.live (state_of r) = [Cloud.created s]
        /\ Cloud.client (Cloud.session s) <> Some (Cloud.created s)
        /\ List.filter is_mqtt_lifecycle (trace_of r)
           = (match Cloud.client (Cloud.session s) with
              | Some old => [Cloud.MqttEnd old]
              | None => []
              end
              ++ [Cloud.MqttConnect (Cloud.created s)
                    (signWebSocketUrl AWS_IOT_ENDPOINT AWS_REGION creds now)
                    ("homey_dolphin_" ++ m ++ "_" ++ pretty stamp)])%list)
  /\ (forall s : Cloud.State,
        Cloud.client (Cloud.session s) = None ->
        Cloud.disconnect s = (tt, s, [])).
Proof.
  split; [|split].
  - intros sigs Hok s.
    assert (Hinit : async_invariant Async.initial).
    { split; [exact I | left; reflexivity]. }
    pose proof (async_invariant_one_live _
                  (async_run_preserves_invariant signWebSocketUrl sigs
                     Async.initial Hinit Hok)) as H.
    split; [exact H|]. apply at_most_one_live_length, H.
  - intros s m creds now stamp H.
    destruct_cloud_state s; invariant_cases H; cbn;
      try rewrite Nat.eqb_refl; cbn;
      repeat split; try reflexivity;
      try discriminate; try (intros Heq; injection Heq; lia).
  - intros [[cl ms cn] lv cr]; cbn. intros ->. reflexivity.
Qed.

Lemma one_live_transport_without_overlap_witness :
  let c := {| Token := "t"; AccessKeyId := "AK"; SecretAccessKey := "sk" |} in
  let sigs :=
    [Async.BeginConnect "D1" c; Async.Resume 0%nat 0 0;
     Async.Now (Cloud.TransportConnect None);
     Async.BeginConnect "D1" c; Async.Now (Cloud.TransportClose 0%nat);
     Async.Resume 0%nat 1000 1000] in
  let s :=
    Async.cloud (fst (Async.run SigV4.signWebSocketUrl sigs Async.initial)) in
  at_most_one_live s /\ (List.length (Cloud.live s) <= 1)%nat.
Proof.
  intros c sigs s.
  exact (proj1 (one_live_transport_without_overlap SigV4.signWebSocketUrl)
           sigs eq_refl).
Defined.

(** C7, as stated, fails: two calls of [connect] made one after the other,
    before either has gone past its [await], each find no client to end and
    each open one.  Both transports are live, and the session holds only
    the second. *)
Lemma overlapping_connects_leave_two_transports :
  let c := {| Token := "t"; AccessKeyId := "AK"; SecretAccessKey := "sk" |} in
  let sigs :=
    [Async.BeginConnect "D1" c; Async.BeginConnect "D1" c;
     Async.Resume 0%nat 0 0; Async.Resume 0%nat 0 0] in
  let s :=
    Async.cloud (fst (Async.run SigV4.signWebSocketUrl sigs Async.initial)) in
  Cloud.live s = [1; 0]%nat
  /\ Cloud.client (Cloud.session s) = Some 1%nat
  /\ ~ at_most_one_live s
  /\ ~ (List.length (Cloud.live s) <= 1)%nat.
Proof.
  intros c sigs s.
  assert (Hlive : Cloud.live s = [1; 0]%nat) by reflexivity.
  split; [exact Hlive|]. split; [reflexivity|]. split.
  - intros [H | (x & H & _)]; rewrite Hlive in H; discriminate.
  - rewrite Hlive. cbn. lia.
Qed.

(** ** Device: traces of [onStateUpdate] *)

Lemma fired_app (card : string) (t1 t2 : list Device.Event) :
  Device.fired card (t1 ++ t2)%list
  = (Device.fired card t1 + Device.fired card t2)%nat.
Proof.
  unfold Device.fired. rewrite List.filter_app, List.length_app. reflexivity.
Qed.

Lemma written_app (capability : string) (t1 t2 : list Device.Event) :
  Device.written capability (t1 ++ t2)%list
  = (Device.written capability t1 ++ Device.written capability t2)%list.
Proof.
  induction t1 as [|e t1 IH]; [reflexivity|].
  destruct e as [c v|card tokens]; cbn.
  - destruct (c === capability); cbn; rewrite IH; reflexivity.
  - exact IH.
Qed.

(** The six blocks of [onStateUpdate], one after the other. *)
Lemma onStateUpdate_blocks (now : Z) (st : ReportedState)
      (d : Device.DolphinDevice) :
  let r1 := Device.update_systemState st d in
  let r2 := Device.update_cycleInfo now st (value_of r1) (state_of r1) in
  let r3 := Device.update_filterBag st (state_of r2) in
  let r4 := Device.update_wifi st (state_of r3) in
  let r5 := Device.update_robotError st (state_of r4) in
  let r6 := Device.update_led st (state_of r5) in
  state_of (Device.onStateUpdate now st d) = state_of r6
  /\ trace_of (Device.onStateUpdate now st d)
     = (trace_of r1 ++ trace_of r2 ++ trace_of r3 ++ trace_of r4
        ++ trace_of r5 ++ trace_of r6)%list.
Proof.
  unfold Device.onStateUpdate.
  repeat (rewrite ?state_of_bind, ?trace_of_bind). split; reflexivity.
Qed.

(** Case analysis on every test a block makes. *)
Ltac block_cases :=
  repeat match goal with
         | |- context [match ?x with _ => _ end] =>
             lazymatch x with
             | context [match _ with _ => _ end] => fail
             | _ => destruct x eqn:?
             end
         end;
  try reflexivity.

Lemma update_cycleInfo_frame (now : Z) (st : ReportedState)
      (cs : option CalculatedState.t) (d : Device.DolphinDevice) :
  let r := Device.update_cycleInfo now st cs d in
  Device.previousStatus (state_of r) = Device.previousStatus d
  /\ Device.fired "cleaning_started" (trace_of r) = 0%nat
  /\ Device.fired "cleaning_finished" (trace_of r) = 0%nat
  /\ Device.fired "filter_bag_full" (trace_of r) = 0%nat
  /\ Device.written "filter_status" (trace_of r) = [].
Proof.
  unfold Device.update_cycleInfo, when. repeat split; block_cases.
Qed.

Lemma update_filterBag_frame (st : ReportedState) (d : Device.DolphinDevice) :
  let r := Device.update_filterBag st d in
  Device.previousStatus (state_of r) = Device.previousStatus d
  /\ Device.fired "cleaning_started" (trace_of r) = 0%nat
  /\ Device.fired "cleaning_finished" (trace_of r) = 0%nat
  /\ Device.written "cleaning_mode" (trace_of r) = [].
Proof.
  unfold Device.update_filterBag, when. repeat split; block_cases.
Qed.

Lemma update_wifi_frame (st : ReportedState) (d : Device.DolphinDevice) :
  let r := Device.update_wifi st d in
  Device.previousStatus (state_of r) = Device.previousStatus d
  /\ Device.fired "cleaning_started" (trace_of r) = 0%nat
  /\ Device.fired "cleaning_finished" (trace_of r) = 0%nat
  /\ Device.fired "filter_bag_full" (trace_of r) = 0%nat
  /\ Device.written "filter_status" (trace_of r) = []
  /\ Device.written "cleaning_mode" (trace_of r) = [].
Proof.
  unfold Device.update_wifi, when. repeat split; block_cases.
Qed.

Lemma update_robotError_frame (st : ReportedState)
      (d : Device.DolphinDevice) :
  let r := Device.update_robotError st d in
  Device.previousStatus (state_of r) = Device.previousStatus d
  /\ Device.fired "cleaning_started" (trace_of r) = 0%nat
  /\ Device.fired "cleaning_finished" (trace_of r) = 0%nat
  /\ Device.fired "filter_bag_full" (trace_of r) = 0%nat
  /\ Device.written "filter_status" (trace_of r) = []
  /\ Device.written "cleaning_mode" (trace_of r) = [].
Proof.
  unfold Device.update_robotError, when. repeat split; block_cases.
Qed.

Lemma update_led_frame (st : ReportedState) (d : Device.DolphinDevice) :
  let r := Device.update_led st d in
  Device.previousStatus (state_of r) = Device.previousStatus d
  /\ Device.fired "cleaning_started" (trace_of r) = 0%nat
  /\ Device.fired "cleaning_finished" (trace_of r) = 0%nat
  /\ Device.fired "filter_bag_full" (trace_of r) = 0%nat
  /\ Device.written "filter_status" (trace_of r) = []
  /\ Device.written "cleaning_mode" (trace_of r) = [].
Proof.
  unfold Device.update_led. repeat split; block_cases.
Qed.


Ltac run_device :=
  cbv beta iota zeta delta
    [bind ret when tell modify get put state_of trace_of value_of fst snd
     Device.setCapabilityValue Device.trigger Device.this_previousStatus
     Device.set_previousStatus Device.set_currentLedState
     Device.handleStatusChange Device.previousStatus Device.capabilities
     Device.currentLedState List.app negb andb orb].

Ltac device_cases :=
  repeat (run_device;
          first
            [ match goal with
              | |- context [if ?c then _ else _] =>
                  match c with
                  | context [String.eqb ?a ?b] =>
                      destruct (String.eqb a b) eqn:?
                  end
              end
            | match goal with
              | |- context [match ?x with _ => _ end] =>
                  lazymatch x with
                  | context [match _ with _ => _ end] => fail
                  | _ => destruct x eqn:?
                  end
              end ]);
  run_device.

Ltac eqb_props :=
  repeat match goal with
         | H : (_ === _) = true |- _ => apply String.eqb_eq in H
         | H : (_ === _) = false |- _ => apply String.eqb_neq in H
         end; subst.

Lemma update_systemState_frame (st : ReportedState)
      (d : Device.DolphinDevice) :
  let r := Device.update_systemState st d in
  Device.fired "filter_bag_full" (trace_of r) = 0%nat
  /\ Device.written "filter_status" (trace_of r) = []
  /\ Device.written "cleaning_mode" (trace_of r) = [].
Proof.
  unfold Device.update_systemState. destruct d as [ps ls caps].
  repeat split; device_cases; reflexivity.
Qed.

Lemma update_systemState_triggers (st : ReportedState) (ss : SystemState)
      (d : Device.DolphinDevice) :
  systemState st = Some ss ->
  let current :=
    CalculatedState.value (calculateState (pwsState ss) (robotState ss)) in
  let previous := Device.previousStatus d in
  let r := Device.update_systemState st d in
  Device.previousStatus (state_of r) = current
  /\ Device.fired "cleaning_started" (trace_of r)
     = (if (previous !== "cleaning") && (current === "cleaning")
        then 1 else 0)%nat
  /\ Device.fired "cleaning_finished" (trace_of r)
     = (if (previous === "cleaning") && (current !== "cleaning")
        then 1 else 0)%nat.
Proof.
  intros H. unfold Device.update_systemState. rewrite H.
  destruct d as [ps ls caps]. cbn [Device.previousStatus].
  generalize (CalculatedState.value
                (calculateState (pwsState ss) (robotState ss))) as cur.
  intros cur.
  change (CalculatedState.value CalculatedState.Cleaning) with "cleaning".
  unfold Device.handleStatusChange.
  change (CalculatedState.value CalculatedState.Cleaning) with "cleaning".
  repeat split; device_cases; try reflexivity;
    eqb_props; try congruence; try reflexivity.
Qed.

Lemma onStateUpdate_cleaning (now : Z) (st : ReportedState)
      (d : Device.DolphinDevice) :
  let r := Device.onStateUpdate now st d in
  let previous := Device.previousStatus d in
  observed_cleaning_triggers (trace_of r)
  = match derived_status st with
    | Some current =>
        ((if (previous !== "cleaning") && (current === "cleaning")
          then 1 else 0)%nat,
         (if (previous === "cleaning") && (current !== "cleaning")
          then 1 else 0)%nat)
    | None => (0, 0)%nat
    end
  /\ Device.previousStatus (state_of r)
     = default previous (derived_status st).
Proof.
  cbv zeta.
  destruct (onStateUpdate_blocks now st d) as [Hst Htr]. cbv zeta in Hst, Htr.
  rewrite Hst, Htr. clear Hst Htr.
  unfold observed_cleaning_triggers. rewrite !fired_app.
  set (r1 := Device.update_systemState st d).
  set (r2 := Device.update_cycleInfo now st (value_of r1) (state_of r1)).
  set (r3 := Device.update_filterBag st (state_of r2)).
  set (r4 := Device.update_wifi st (state_of r3)).
  set (r5 := Device.update_robotError st (state_of r4)).
  set (r6 := Device.update_led st (state_of r5)).
  destruct (update_cycleInfo_frame now st (value_of r1) (state_of r1))
    as (P2 & S2 & F2 & _).
  destruct (update_filterBag_frame st (state_of r2)) as (P3 & S3 & F3 & _).
  destruct (update_wifi_frame st (state_of r3)) as (P4 & S4 & F4 & _).
  destruct (update_robotError_frame st (state_of r4)) as (P5 & S5 & F5 & _).
  destruct (update_led_frame st (state_of r5)) as (P6 & S6 & F6 & _).
  cbv zeta in *. fold r2 in P2, S2, F2, P3, S3, F3.
  fold r3 in P3, S3, F3, P4, S4, F4. fold r4 in P4, S4, F4, P5, S5, F5.
  fold r5 in P5, S5, F5, P6, S6, F6. fold r6 in P6, S6, F6.
  rewrite S2, F2, S3, F3, S4, F4, S5, F5, S6, F6, P6, P5, P4, P3, P2.
  rewrite !Nat.add_0_r.
  unfold derived_status. destruct (systemState st) as [ss|] eqn:Hss.
  - destruct (update_systemState_triggers st ss d Hss) as (P1 & S1 & F1).
    cbv zeta in P1, S1, F1. fold r1 in P1, S1, F1.
    rewrite P1, S1, F1. split; reflexivity.
  - subst r1. unfold Device.update_systemState. rewrite Hss.
    split; reflexivity.
Qed.

(** C5.  Along every run of reported-state updates the two cleaning
    triggers fire as the specification asks: [cleaning_started] once at each
    update whose derived status is [cleaning] while the recorded one is not,
    [cleaning_finished] once at each update whose derived status is not
    [cleaning] while the recorded one is, and neither at an update whose
    derived status equals the recorded one; after an update with a
    [systemState] fragment the recorded status is its derived status. *)
Theorem cleaning_triggers_fire_on_transitions :
  (forall (updates : list (Z * ReportedState)) (d : Device.DolphinDevice),
      List.map observed_cleaning_triggers (Device.onStateUpdates updates d)
      = expected_cleaning_triggers (Device.previousStatus d) updates)
  /\ (forall (now : Z) (st : ReportedState) (ss : SystemState)
             (d : Device.DolphinDevice),
        systemState st = Some ss ->
        let current :=
          CalculatedState.value
            (calculateState (pwsState ss) (robotState ss)) in
        let previous := Device.previousStatus d in
        let r := Device.onStateUpdate now st d in
        (previous <> "cleaning" -> current = "cleaning" ->
         Device.fired "cleaning_started" (trace_of r) = 1%nat
         /\ Device.fired "cleaning_finished" (trace_of r) = 0%nat)
        /\ (previous = "cleaning" -> current <> "cleaning" ->
            Device.fired "cleaning_finished" (trace_of r) = 1%nat
            /\ Device.fired "cleaning_started" (trace_of r) = 0%nat)
        /\ (current = previous ->
            Device.fired "cleaning_started" (trace_of r) = 0%nat
            /\ Device.fired "cleaning_finished" (trace_of r) = 0%nat)
        /\ Device.previousStatus (state_of r) = current).
Proof.
  split.
  - intros updates. induction updates as [|[now st] rest IH]; intros d.
    + reflexivity.
    + cbn [Device.onStateUpdates List.map expected_cleaning_triggers].
      destruct (onStateUpdate_cleaning now st d) as [Hobs Hprev].
      cbv zeta in Hobs, Hprev. rewrite Hobs, IH, Hprev.
      destruct (derived_status st); reflexivity.
  - intros now st ss d Hss current previous r.
    destruct (onStateUpdate_cleaning now st d) as [Hobs Hprev].
    cbv zeta in Hobs, Hprev. fold r in Hobs, Hprev.
    unfold derived_status in Hobs, Hprev. rewrite Hss in Hobs, Hprev.
    fold current previous in Hobs, Hprev. cbn [default] in Hprev.
    unfold observed_cleaning_triggers in Hobs.
    injection Hobs as Hs Hf. rewrite Hs, Hf.
    repeat split; try assumption; intros;
      destruct (String.eqb_spec previous "cleaning");
      destruct (String.eqb_spec current "cleaning");
      cbn [negb andb]; try reflexivity; congruence.
Qed.

Lemma cleaning_triggers_fire_on_transitions_witness :
  let st :=
    {| systemState :=
         Some {| pwsState := "on"; robotState := "scanning";
                 rTurnOnCount := None |};
       cycleInfo := None; led := None; filterBagIndication := None;
       debug := None; wifi := None; robotError := None; pwsError := None;
       activity := None |} in
  Device.fired "cleaning_started"
    (trace_of (Device.onStateUpdate 0 st Device.initial)) = 1%nat
  /\ Device.fired "cleaning_finished"
       (trace_of (Device.onStateUpdate 0 st Device.initial)) = 0%nat.
Proof.
  intros st.
  refine (proj1 (proj2 cleaning_triggers_fire_on_transitions 0 st _
                   Device.initial eq_refl) _ _).
  - discriminate.
  - reflexivity.
Defined.


(** ** Device: the capability store *)

Lemma replays_ret {A : Type} (a : A) : replays (ret a).
Proof. intros d. reflexivity. Qed.

Lemma replays_bind {A B : Type} (m : Device.Op A) (k : A -> Device.Op B) :
  replays m -> (forall a, replays (k a)) -> replays (bind m k).
Proof.
  intros Hm Hk d. rewrite state_of_bind, trace_of_bind.
  rewrite Hk, Hm. unfold replay. rewrite fold_left_app. reflexivity.
Qed.

Lemma replays_setCapabilityValue (name : string) (v : Device.Value) :
  replays (Device.setCapabilityValue name v).
Proof. intros d. reflexivity. Qed.

Lemma replays_trigger (card : string) (tokens : list (string * Device.Value)) :
  replays (Device.trigger card tokens).
Proof. intros d. reflexivity. Qed.

Lemma replays_set_previousStatus (s : string) :
  replays (Device.set_previousStatus s).
Proof. intros d. reflexivity. Qed.

Lemma replays_set_currentLedState (l : LedState) :
  replays (Device.set_currentLedState l).
Proof. intros d. reflexivity. Qed.

Lemma replays_this_previousStatus : replays Device.this_previousStatus.
Proof. intros d. reflexivity. Qed.

Lemma replays_when (c : bool) (m : Device.Op unit) :
  replays m -> replays (when c m).
Proof. intros Hm. destruct c; [exact Hm | apply replays_ret]. Qed.

Ltac replays_steps :=
  repeat first
    [ apply replays_ret
    | apply replays_setCapabilityValue
    | apply replays_trigger
    | apply replays_set_previousStatus
    | apply replays_set_currentLedState
    | apply replays_this_previousStatus
    | apply replays_when
    | apply replays_bind; [|intros ?]
    | match goal with
      | |- replays (match ?x with _ => _ end) => destruct x
      | |- replays (let _ := _ in _) => cbv zeta
      end ].

Lemma replays_onStateUpdate (now : Z) (st : ReportedState) :
  replays (Device.onStateUpdate now st).
Proof.
  unfold Device.onStateUpdate, Device.update_systemState,
    Device.update_cycleInfo, Device.update_filterBag, Device.update_wifi,
    Device.update_robotError, Device.update_led, Device.handleStatusChange.
  replays_steps.
Qed.

Lemma replay_lookup (k : string) (t : list Device.Event)
      (caps : gmap string Device.Value) :
  replay caps t !! k
  = match last (Device.written k t) with
    | Some v => Some v
    | None => caps !! k
    end.
Proof.
  revert caps. induction t as [|e t IH]; intros caps; [reflexivity|].
  unfold replay in *. cbn [fold_left]. rewrite IH.
  destruct e as [name v|card tokens]; cbn [apply_write Device.written].
  - destruct (String.eqb_spec name k) as [->|Hne].
    + rewrite last_cons. destruct (last (Device.written k t));
        [reflexivity | apply lookup_insert_eq].
    + rewrite lookup_insert_ne by exact Hne. reflexivity.
  - reflexivity.
Qed.


(** ** Device: filter bag and cleaning mode *)

Lemma update_filterBag_effect (st : ReportedState) (fb : FilterBagIndication)
      (d : Device.DolphinDevice) :
  filterBagIndication st = Some fb ->
  let r := Device.update_filterBag st d in
  Device.fired "filter_bag_full" (trace_of r)
  = (if (0 <=? state fb) && (state fb <=? 100) && (100 <=? state fb)
     then 1%nat else 0%nat)
  /\ Device.written "filter_status" (trace_of r)
     = (if (0 <=? state fb) && (state fb <=? 100)
        then [Device.Num (state fb)] else []).
Proof.
  intros H. unfold Device.update_filterBag, when. rewrite H.
  destruct ((0 <=? state fb) && (state fb <=? 100));
    destruct (100 <=? state fb); split; reflexivity.
Qed.

Lemma update_cycleInfo_mode (now : Z) (st : ReportedState) (ci : CycleInfo)
      (cm : CleaningMode) (cs : option CalculatedState.t)
      (d : Device.DolphinDevice) :
  cycleInfo st = Some ci ->
  cleaningMode ci = Some cm ->
  Device.written "cleaning_mode"
    (trace_of (Device.update_cycleInfo now st cs d))
  = (if JS.truthy (mode cm) && (mode cm !== "pickup")
     then [Device.Text (mode cm)] else []).
Proof.
  intros Hci Hcm. unfold Device.update_cycleInfo, when. rewrite Hci, Hcm.
  destruct (JS.truthy (mode cm)); [|reflexivity].
  destruct (mode cm === "pickup"); cbn [negb andb]; block_cases.
Qed.

Lemma onStateUpdate_written (now : Z) (st : ReportedState)
      (d : Device.DolphinDevice) :
  let r1 := Device.update_systemState st d in
  let r2 := Device.update_cycleInfo now st (value_of r1) (state_of r1) in
  let r3 := Device.update_filterBag st (state_of r2) in
  let r := Device.onStateUpdate now st d in
  Device.fired "filter_bag_full" (trace_of r)
  = Device.fired "filter_bag_full" (trace_of r3)
  /\ Device.written "filter_status" (trace_of r)
     = Device.written "filter_status" (trace_of r3)
  /\ Device.written "cleaning_mode" (trace_of r)
     = Device.written "cleaning_mode" (trace_of r2).
Proof.
  cbv zeta.
  destruct (onStateUpdate_blocks now st d) as [_ Htr]. cbv zeta in Htr.
  rewrite Htr. clear Htr.
  rewrite !fired_app, !written_app.
  set (r1 := Device.update_systemState st d).
  set (r2 := Device.update_cycleInfo now st (value_of r1) (state_of r1)).
  set (r3 := Device.update_filterBag st (state_of r2)).
  set (r4 := Device.update_wifi st (state_of r3)).
  set (r5 := Device.update_robotError st (state_of r4)).
  destruct (update_systemState_frame st d) as (F1 & W1 & M1).
  destruct (update_cycleInfo_frame now st (value_of r1) (state_of r1))
    as (_ & _ & _ & F2 & W2).
  destruct (update_filterBag_frame st (state_of r2)) as (_ & _ & _ & M3).
  destruct (update_wifi_frame st (state_of r3)) as (_ & _ & _ & F4 & W4 & M4).
  destruct (update_robotError_frame st (state_of r4))
    as (_ & _ & _ & F5 & W5 & M5).
  destruct (update_led_frame st (state_of r5)) as (_ & _ & _ & F6 & W6 & M6).
  cbv zeta in *. fold r1 in F1, W1, M1. fold r2 in F2, W2, M3.
  fold r3 in M3, F4, W4, M4. fold r4 in F4, W4, M4, F5, W5, M5.
  fold r5 in F5, W5, M5, F6, W6, M6.
  rewrite F1, W1, M1, F2, W2, M3, F4, W4, M4, F5, W5, M5, F6, W6, M6.
  rewrite !Nat.add_0_r, !app_nil_r. repeat split; reflexivity.
Qed.

(** C9, as amended.  For every update that carries a
    [filterBagIndication] fragment with state [v], whatever the device
    state before it: when [0 <= v <= 100] the only write to [filter_status]
    is [v] and the store then holds [v]; the [filter_bag_full] trigger
    fires once on every update with [0 <= v <= 100] and [v >= 100], that is
    with [v = 100], also when the update before it had done so already,
    since the outcome does not depend on what was recorded before.  On no
    other update does the trigger fire, the updates with [v > 100] among
    them, and outside [0..100] the capability is not written. *)
Theorem filter_full_is_level_triggered
        (now : Z) (st : ReportedState) (fb : FilterBagIndication)
        (d : Device.DolphinDevice) :
  filterBagIndication st = Some fb ->
  let v := state fb in
  let r := Device.onStateUpdate now st d in
  (0 <= v <= 100 ->
   Device.written "filter_status" (trace_of r) = [Device.Num v]
   /\ Device.capabilities (state_of r) !! "filter_status"
      = Some (Device.Num v))
  /\ (0 <= v <= 100 -> 100 <= v ->
      Device.fired "filter_bag_full" (trace_of r) = 1%nat
      /\ forall now' : Z,
          Device.fired "filter_bag_full"
            (trace_of (Device.onStateUpdate now' st (state_of r))) = 1%nat)
  /\ (v < 100 \/ 100 < v ->
      Device.fired "filter_bag_full" (trace_of r) = 0%nat)
  /\ (v < 0 \/ 100 < v ->
      Device.written "filter_status" (trace_of r) = []).
Proof.
  intros Hfb v r.
  assert (Hall : forall now0 d0,
             Device.fired "filter_bag_full"
               (trace_of (Device.onStateUpdate now0 st d0))
             = (if (0 <=? v) && (v <=? 100) && (100 <=? v)
                then 1%nat else 0%nat)
             /\ Device.written "filter_status"
                  (trace_of (Device.onStateUpdate now0 st d0))
                = (if (0 <=? v) && (v <=? 100) then [Device.Num v] else [])).
  { intros now0 d0.
    destruct (onStateUpdate_written now0 st d0) as (HF & HW & _).
    cbv zeta in HF, HW. rewrite HF, HW.
    apply (update_filterBag_effect st fb _ Hfb). }
  destruct (Hall now d) as [HF HW]. subst r.
  repeat split.
  - rewrite HW. destruct (Z.leb_spec 0 v); [|lia].
    destruct (Z.leb_spec v 100); [reflexivity|lia].
  - rewrite (replays_onStateUpdate now st d : _ = _).
    rewrite replay_lookup, HW.
    destruct (Z.leb_spec 0 v); [|lia].
    destruct (Z.leb_spec v 100); [reflexivity|lia].
  - rewrite HF. destruct (Z.leb_spec 0 v); [|lia].
    destruct (Z.leb_spec v 100); [|lia].
    destruct (Z.leb_spec 100 v); [reflexivity|lia].
  - intros now'. rewrite (proj1 (Hall now' _)).
    destruct (Z.leb_spec 0 v); [|lia].
    destruct (Z.leb_spec v 100); [|lia].
    destruct (Z.leb_spec 100 v); [reflexivity|lia].
  - intros Hv. rewrite HF.
    destruct (Z.leb_spec 0 v); [|reflexivity].
    destruct (Z.leb_spec v 100); [|reflexivity].
    destruct (Z.leb_spec 100 v); [lia|reflexivity].
  - intros Hv. rewrite HW.
    destruct (Z.leb_spec 0 v); [|reflexivity].
    destruct (Z.leb_spec v 100); [lia|reflexivity].
Qed.

Lemma filter_full_is_level_triggered_witness :
  let st :=
    {| systemState := None; cycleInfo := None; led := None;
       filterBagIndication := Some {| state := 100; resetFBI := None |};
       debug := None; wifi := None; robotError := None; pwsError := None;
       activity := None |} in
  let r := Device.onStateUpdate 0 st Device.initial in
  Device.capabilities (state_of r) !! "filter_status" = Some (Device.Num 100)
  /\ Device.fired "filter_bag_full" (trace_of r) = 1%nat
  /\ Device.fired "filter_bag_full"
       (trace_of (Device.onStateUpdate 1 st (state_of r))) = 1%nat.
Proof.
  intros st r.
  pose proof (filter_full_is_level_triggered 0 st
                {| state := 100; resetFBI := None |} Device.initial eq_refl)
    as (Hset & Hfire & _).
  cbv zeta in Hset, Hfire. cbn [state] in Hset, Hfire.
  split; [apply Hset; lia|]. split.
  - apply Hfire; lia.
  - apply Hfire; lia.
Defined.

(** C9 as worded fails above 100: an update that carries the fragment with
    state 101 or 102 satisfies the threshold condition [state >= 100], and
    the trigger does not fire, nor is the capability written. *)
Lemma filter_full_not_fired_above_100 :
  let update := fun v : Z =>
    {| systemState := None; cycleInfo := None; led := None;
       filterBagIndication := Some {| state := v; resetFBI := None |};
       debug := None; wifi := None; robotError := None; pwsError := None;
       activity := None |} in
  let r := Device.onStateUpdate 0 (update 101) Device.initial in
  100 <= 101
  /\ Device.fired "filter_bag_full" (trace_of r) = 0%nat
  /\ Device.written "filter_status" (trace_of r) = []
  /\ Device.fired "filter_bag_full"
       (trace_of (Device.onStateUpdate 0 (update 102) Device.initial)) = 0%nat
  /\ ~ (forall (now : Z) (st : ReportedState) (fb : FilterBagIndication)
               (d : Device.DolphinDevice),
           filterBagIndication st = Some fb ->
           100 <= state fb ->
           Device.fired "filter_bag_full"
             (trace_of (Device.onStateUpdate now st d)) = 1%nat).
Proof.
  intros update r. split; [lia|]. split; [reflexivity|].
  split; [reflexivity|]. split; [reflexivity|].
  intros H.
  specialize (H 0 (update 101) {| state := 101; resetFBI := None |}
                Device.initial eq_refl ltac:(cbn; lia)).
  discriminate H.
Qed.


(** C10.  For every update whose [cycleInfo.cleaningMode.mode] is
    ['pickup'], the mode that [returnToBase] asks for, [onStateUpdate] makes
    no write to the [cleaning_mode] capability and the store keeps the value
    it had; for every other non-empty mode the only write to
    [cleaning_mode] is that mode, and the store then holds it. *)
Theorem pickup_mode_is_not_written
        (now : Z) (st : ReportedState) (ci : CycleInfo) (cm : CleaningMode)
        (d : Device.DolphinDevice) :
  cycleInfo st = Some ci ->
  cleaningMode ci = Some cm ->
  let r := Device.onStateUpdate now st d in
  (mode cm = "pickup" ->
   Device.written "cleaning_mode" (trace_of r) = []
   /\ Device.capabilities (state_of r) !! "cleaning_mode"
      = Device.capabilities d !! "cleaning_mode")
  /\ (mode cm <> EmptyString -> mode cm <> "pickup" ->
      Device.written "cleaning_mode" (trace_of r) = [Device.Text (mode cm)]
      /\ Device.capabilities (state_of r) !! "cleaning_mode"
         = Some (Device.Text (mode cm)))
  /\ Device.returnToBase
     = Cloud.sendCommand
         (JSON.Object
            [("cleaningMode", JSON.Object [("mode", JSON.Str "pickup")])]).
Proof.
  intros Hci Hcm r. subst r.
  destruct (onStateUpdate_written now st d) as (_ & _ & HM).
  cbv zeta in HM.
  rewrite (update_cycleInfo_mode now st ci cm _ _ Hci Hcm) in HM.
  rewrite (replays_onStateUpdate now st d : _ = _), replay_lookup, HM.
  unfold JS.truthy.
  split; [|split; [|reflexivity]].
  - intros ->. split; reflexivity.
  - intros Hne Hnp.
    destruct (String.eqb_spec (mode cm) EmptyString); [congruence|].
    destruct (String.eqb_spec (mode cm) "pickup"); [congruence|].
    split; reflexivity.
Qed.

Lemma pickup_mode_is_not_written_witness :
  let update m :=
    {| systemState := None;
       cycleInfo :=
         Some {| cleaningMode :=
                   Some {| mode := m; cycleTime := None;
                           cycleStartTimeUTC := None |} |};
       led := None; filterBagIndication := None; debug := None;
       wifi := None; robotError := None; pwsError := None;
       activity := None |} in
  let d := state_of (Device.onStateUpdate 0 (update "floor") Device.initial) in
  Device.capabilities d !! "cleaning_mode" = Some (Device.Text "floor")
  /\ Device.capabilities (state_of (Device.onStateUpdate 1 (update "pickup") d))
     !! "cleaning_mode"
     = Device.capabilities d !! "cleaning_mode".
Proof.
  intros update d. split.
  - refine (proj2 (proj1 (proj2
              (pickup_mode_is_not_written 0 (update "floor") _ _
                 Device.initial eq_refl eq_refl)) _ _));
      discriminate.
  - exact (proj2 (proj1
              (pickup_mode_is_not_written 1 (update "pickup") _ _ d
                 eq_refl eq_refl) eq_refl)).
Defined.


(** ** Request signer: strings and dates *)

Lemma append_assoc (a b c : string) : (a ++ b) ++ c = a ++ (b ++ c).
Proof.
  induction a as [|x a IH]; [reflexivity|].
  change (String x ((a ++ b) ++ c) = String x (a ++ (b ++ c))).
  f_equal. exact IH.
Qed.

Lemma append_empty_r (a : string) : a ++ EmptyString = a.
Proof.
  induction a as [|x a IH]; [reflexivity|].
  change (String x (a ++ EmptyString) = String x a). f_equal. exact IH.
Qed.

Lemma all_chars_app (p : ascii -> bool) (a b : string) :
  all_chars p (a ++ b) = all_chars p a && all_chars p b.
Proof.
  induction a as [|x a IH]; [reflexivity|].
  change (p x && all_chars p (a ++ b)
          = p x && all_chars p a && all_chars p b).
  rewrite IH, andb_assoc. reflexivity.
Qed.

Lemma all_chars_weaken (p q : ascii -> bool) (s : string) :
  (forall c, p c = true -> q c = true) ->
  all_chars p s = true -> all_chars q s = true.
Proof.
  intros Hpq. induction s as [|x s IH]; cbn; [reflexivity|].
  intros H. apply andb_prop in H as [Hx Hs].
  rewrite (Hpq x Hx), (IH Hs). reflexivity.
Qed.

Lemma decimal_digit_is_digit (x : Z) :
  JS.is_digit (ascii_of_N (Z.to_N (48 + x mod 10))) = true.
Proof.
  pose proof (Z.mod_pos_bound x 10 ltac:(lia)) as Hb.
  assert (H : x mod 10 = 0 \/ x mod 10 = 1 \/ x mod 10 = 2 \/ x mod 10 = 3
              \/ x mod 10 = 4 \/ x mod 10 = 5 \/ x mod 10 = 6
              \/ x mod 10 = 7 \/ x mod 10 = 8 \/ x mod 10 = 9) by lia.
  destruct H as [H|[H|[H|[H|[H|[H|[H|[H|[H|H]]]]]]]]]; rewrite H; reflexivity.
Qed.

Lemma digits_are_digits (w : nat) (x : Z) :
  all_chars JS.is_digit (JS.digits w x) = true.
Proof.
  revert x. induction w as [|w IH]; intros x; cbn [JS.digits]; [reflexivity|].
  rewrite all_chars_app, IH. cbn [all_chars andb].
  rewrite decimal_digit_is_digit. reflexivity.
Qed.

Lemma digit_is_iso_char (c : ascii) : JS.is_digit c = true -> iso_char c = true.
Proof. intros H. unfold iso_char. rewrite H. reflexivity. Qed.

Lemma year_string_iso (y : Z) : all_chars iso_char (JS.year_string y) = true.
Proof.
  unfold JS.year_string.
  destruct ((0 <=? y) && (y <=? 9999)).
  - apply (all_chars_weaken JS.is_digit); [exact digit_is_iso_char|].
    apply digits_are_digits.
  - rewrite all_chars_app.
    rewrite (all_chars_weaken JS.is_digit iso_char _ digit_is_iso_char
               (digits_are_digits 6 (Z.abs y))).
    destruct (y <? 0); reflexivity.
Qed.

Lemma iso_seconds_chars (q : Z) : all_chars iso_char (iso_seconds q) = true.
Proof.
  unfold iso_seconds. destruct (JS.civil_from_days (q / 86400)) as [[y m] d].
  repeat rewrite all_chars_app.
  rewrite year_string_iso.
  repeat rewrite (all_chars_weaken JS.is_digit iso_char _ digit_is_iso_char
                    (digits_are_digits 2 _)).
  reflexivity.
Qed.

Lemma toISOString_split (t : Z) :
  JS.toISOString t
  = iso_seconds (t / 1000) ++ "." ++ JS.digits 3 (t mod 1000) ++ "Z".
Proof.
  unfold JS.toISOString, iso_seconds.
  replace (t / 1000 / 86400) with (t / 86400000)
    by (rewrite Z.div_div by lia; reflexivity).
  destruct (JS.civil_from_days (t / 86400000)) as [[y m] d].
  replace (t mod 86400000 / 3600000) with ((t / 1000) mod 86400 / 3600)
    by (Z.div_mod_to_equations; lia).
  replace (t mod 86400000 / 60000 mod 60)
    with ((t / 1000) mod 86400 / 60 mod 60) by (Z.div_mod_to_equations; lia).
  replace (t mod 86400000 / 1000 mod 60) with ((t / 1000) mod 86400 mod 60)
    by (Z.div_mod_to_equations; lia).
  replace (t mod 86400000 mod 1000) with (t mod 1000)
    by (Z.div_mod_to_equations; lia).
  repeat rewrite append_assoc. reflexivity.
Qed.

Lemma iso_char_not_dot (c : ascii) :
  iso_char c = true -> Ascii.eqb c "." = false.
Proof.
  intros H. destruct (Ascii.eqb_spec c "."); [subst; discriminate|reflexivity].
Qed.

Lemma strip_iso_char (c : ascii) (s : string) :
  iso_char c = true ->
  JS.strip_iso_punctuation (String c s)
  = if Ascii.eqb c ":" || Ascii.eqb c "-" then JS.strip_iso_punctuation s
    else String c (JS.strip_iso_punctuation s).
Proof.
  intros H. cbn [JS.strip_iso_punctuation].
  rewrite (iso_char_not_dot c H). cbn [andb].
  destruct (Ascii.eqb c ":" || Ascii.eqb c "-"); [reflexivity|].
  destruct s as [|d1 [|d2 [|d3 s']]]; reflexivity.
Qed.

Lemma strip_iso_app (a b : string) :
  all_chars iso_char a = true ->
  JS.strip_iso_punctuation (a ++ b)
  = remove_colon_hyphen a ++ JS.strip_iso_punctuation b.
Proof.
  induction a as [|c a IH]; intros H; [reflexivity|].
  cbn [all_chars] in H. apply andb_prop in H as [Hc Ha].
  change (String c a ++ b) with (String c (a ++ b)).
  rewrite (strip_iso_char c _ Hc), (IH Ha). cbn [remove_colon_hyphen].
  destruct (Ascii.eqb c ":" || Ascii.eqb c "-"); reflexivity.
Qed.

Lemma strip_milliseconds (x : Z) :
  JS.strip_iso_punctuation ("." ++ JS.digits 3 x ++ "Z") = "Z".
Proof.
  assert (Hdot : forall a b c s,
             JS.is_digit a = true -> JS.is_digit b = true ->
             JS.is_digit c = true ->
             JS.strip_iso_punctuation
               (String "." (String a (String b (String c s))))
             = JS.strip_iso_punctuation s).
  { intros a b c s Ha Hb Hc.
    change (JS.strip_iso_punctuation
              (String "." (String a (String b (String c s)))))
      with (if true && JS.is_digit a && JS.is_digit b && JS.is_digit c
            then JS.strip_iso_punctuation s
            else String "."
                   (JS.strip_iso_punctuation
                      (String a (String b (String c s))))).
    rewrite Ha, Hb, Hc. reflexivity. }
  change ("." ++ JS.digits 3 x ++ "Z")
    with (String "."
            (String (ascii_of_N (Z.to_N (48 + (x / 10 / 10) mod 10)))
               (String (ascii_of_N (Z.to_N (48 + (x / 10) mod 10)))
                  (String (ascii_of_N (Z.to_N (48 + x mod 10))) "Z")))).
  rewrite Hdot by apply decimal_digit_is_digit. reflexivity.
Qed.

(** The stripped timestamp, in terms of the whole seconds only. *)
Lemma strip_toISOString (t : Z) :
  JS.strip_iso_punctuation (JS.toISOString t)
  = remove_colon_hyphen (iso_seconds (t / 1000)) ++ "Z".
Proof.
  rewrite toISOString_split, strip_iso_app by apply iso_seconds_chars.
  rewrite strip_milliseconds. reflexivity.
Qed.

Lemma stamps_depend_on_seconds (t1 t2 : Z) :
  t1 / 1000 = t2 / 1000 ->
  SigV4Steps.dateStamp t1 = SigV4Steps.dateStamp t2
  /\ SigV4Steps.amzDate t1 = SigV4Steps.amzDate t2.
Proof.
  intros H. unfold SigV4Steps.dateStamp, SigV4Steps.amzDate.
  rewrite !strip_toISOString, H. split; reflexivity.
Qed.

(** C8.  The signed URL is a function of the endpoint, the region, the
    credentials and the instant alone: equal inputs give the same URL,
    character by character, for either revision of the signer; the signer
    takes no state and returns nothing but the URL.  Of the instant only
    the whole seconds matter: two instants within the same second give the
    same URL. *)
Theorem signWebSocketUrl_deterministic :
  (forall (endpoint1 endpoint2 region1 region2 : string)
          (credentials1 credentials2 : AwsCredentials) (nowUtc1 nowUtc2 : Z),
      endpoint1 = endpoint2 -> region1 = region2 ->
      credentials1 = credentials2 -> nowUtc1 = nowUtc2 ->
      SigV4.signWebSocketUrl endpoint1 region1 credentials1 nowUtc1
      = SigV4.signWebSocketUrl endpoint2 region2 credentials2 nowUtc2
      /\ SigV4Sorted.signWebSocketUrl endpoint1 region1 credentials1 nowUtc1
         = SigV4Sorted.signWebSocketUrl endpoint2 region2 credentials2 nowUtc2)
  /\ (forall (endpoint region : string) (credentials : AwsCredentials)
             (nowUtc1 nowUtc2 : Z),
        nowUtc1 / 1000 = nowUtc2 / 1000 ->
        SigV4.signWebSocketUrl endpoint region credentials nowUtc1
        = SigV4.signWebSocketUrl endpoint region credentials nowUtc2
        /\ SigV4Sorted.signWebSocketUrl endpoint region credentials nowUtc1
           = SigV4Sorted.signWebSocketUrl endpoint region credentials nowUtc2).
Proof.
  split.
  - intros e1 e2 r1 r2 c1 c2 t1 t2 -> -> -> ->. split; reflexivity.
  - intros e r c t1 t2 H.
    destruct (stamps_depend_on_seconds t1 t2 H) as [Hd Ha].
    unfold SigV4.signWebSocketUrl, SigV4.canonicalQueryString,
      SigV4Sorted.signWebSocketUrl, SigV4Sorted.canonicalQueryString,
      SigV4Sorted.queryParams, SigV4Steps.signature, SigV4Steps.stringToSign,
      SigV4Steps.kSigning, SigV4Steps.credentialScope.
    rewrite Hd, Ha. split; reflexivity.
Qed.

Lemma signWebSocketUrl_deterministic_witness :
  let c := {| Token := "t"; AccessKeyId := "AK"; SecretAccessKey := "sk" |} in
  SigV4.signWebSocketUrl "h" "eu-west-1" c 1704164645123
  = SigV4.signWebSocketUrl "h" "eu-west-1" c 1704164645999
  /\ SigV4Sorted.signWebSocketUrl "h" "eu-west-1" c 1704164645123
     = SigV4Sorted.signWebSocketUrl "h" "eu-west-1" c 1704164645123.
Proof.
  intros c. split.
  - exact (proj1 (proj2 signWebSocketUrl_deterministic "h" "eu-west-1" c
                    1704164645123 1704164645999 eq_refl)).
  - exact (proj2 (proj1 signWebSocketUrl_deterministic
                    "h" "h" "eu-west-1" "eu-west-1" c c
                    1704164645123 1704164645123
                    eq_refl eq_refl eq_refl eq_refl)).
Defined.

(** ** Request signer: the query string *)

Lemma iso_char_not_amp (c : ascii) :
  iso_char c = true -> not_char "&" c = true.
Proof.
  intros H. unfold not_char.
  destruct (Ascii.eqb_spec c "&"); [subst; discriminate|reflexivity].
Qed.

Lemma remove_colon_hyphen_chars (p : ascii -> bool) (s : string) :
  all_chars p s = true -> all_chars p (remove_colon_hyphen s) = true.
Proof.
  induction s as [|c s IH]; [reflexivity|]. cbn [all_chars remove_colon_hyphen].
  intros H. apply andb_prop in H as [Hc Hs].
  destruct (Ascii.eqb c ":" || Ascii.eqb c "-"); [exact (IH Hs)|].
  cbn [all_chars]. rewrite Hc, (IH Hs). reflexivity.
Qed.

Lemma slice0_chars (p : ascii -> bool) (n : nat) (s : string) :
  all_chars p s = true -> all_chars p (JS.slice0 n s) = true.
Proof.
  unfold JS.slice0. revert s. induction n as [|n IH]; intros s H.
  - destruct s; reflexivity.
  - destruct s as [|c s]; [reflexivity|]. cbn [substring all_chars] in *.
    apply andb_prop in H as [Hc Hs]. rewrite Hc, (IH s Hs). reflexivity.
Qed.

Lemma amzDate_no_amp (t : Z) :
  all_chars (not_char "&") (SigV4Steps.amzDate t) = true.
Proof.
  unfold SigV4Steps.amzDate. rewrite strip_toISOString, all_chars_app.
  rewrite slice0_chars; [reflexivity|].
  rewrite all_chars_app, remove_colon_hyphen_chars; [reflexivity|].
  apply (all_chars_weaken iso_char); [exact iso_char_not_amp|].
  apply iso_seconds_chars.
Qed.

Lemma HEX_digit_not_amp (d : N) : not_char "&" (JS.HEX_digit d) = true.
Proof.
  unfold JS.HEX_digit. generalize (N.to_nat d) as n. intros n.
  do 16 (destruct n as [|n]; [reflexivity|]). destruct n; reflexivity.
Qed.

Lemma encodeURIComponent_no_amp (s : string) :
  all_chars (not_char "&") (JS.encodeURIComponent s) = true.
Proof.
  induction s as [|c s IH]; [reflexivity|]. cbn [JS.encodeURIComponent].
  destruct (JS.is_unreserved c) eqn:Hu; cbn [all_chars].
  - rewrite IH, andb_true_r. unfold not_char.
    destruct (Ascii.eqb_spec c "&"); [subst; discriminate|reflexivity].
  - rewrite !HEX_digit_not_amp, IH. reflexivity.
Qed.

Lemma split_on_cons (sep c : ascii) (s : string) :
  Query.split_on sep (String c s)
  = if Ascii.eqb c sep then EmptyString :: Query.split_on sep s
    else match Query.split_on sep s with
         | [] => [String c EmptyString]
         | w :: ws => String c w :: ws
         end.
Proof. reflexivity. Qed.

Lemma split_on_app_sep (sep : ascii) (a b : string) :
  all_chars (not_char sep) a = true ->
  Query.split_on sep (a ++ String sep b) = a :: Query.split_on sep b.
Proof.
  induction a as [|c a IH]; intros H.
  - change (EmptyString ++ String sep b) with (String sep b).
    rewrite split_on_cons, Ascii.eqb_refl. reflexivity.
  - cbn [all_chars] in H. apply andb_prop in H as [Hc Ha].
    change (String c a ++ String sep b) with (String c (a ++ String sep b)).
    rewrite split_on_cons, (IH Ha).
    unfold not_char in Hc. apply negb_true_iff in Hc. rewrite Hc.
    reflexivity.
Qed.

Lemma split_on_no_sep (sep : ascii) (a : string) :
  all_chars (not_char sep) a = true -> Query.split_on sep a = [a].
Proof.
  induction a as [|c a IH]; intros H; [reflexivity|].
  cbn [all_chars] in H. apply andb_prop in H as [Hc Ha].
  rewrite split_on_cons, (IH Ha).
  unfold not_char in Hc. apply negb_true_iff in Hc. rewrite Hc. reflexivity.
Qed.

Lemma name_of_param (name value : string) :
  all_chars (not_char "=") name = true ->
  Query.name_of (name ++ "=" ++ value) = name.
Proof.
  intros H. unfold Query.name_of.
  change (name ++ "=" ++ value) with (name ++ String "=" value).
  rewrite (split_on_app_sep "=" name value H). reflexivity.
Qed.

(** X20.  The revision of lines 100-157 does what its doc comment asks:
    the signed query string has the four signing parameters and no other,
    it is the same whatever the token is, and the token follows the
    signature, when it is not empty. *)
Lemma token_appended_after_signature
      (endpoint region : string) (credentials : AwsCredentials) (now : Z) :
  let signed := SigV4.canonicalQueryString region credentials now in
  Query.names signed
  = ["X-Amz-Algorithm"; "X-Amz-Credential"; "X-Amz-Date";
     "X-Amz-SignedHeaders"]
  /\ (forall token : string,
        SigV4.canonicalQueryString region
          {| Token := token;
             AccessKeyId := AccessKeyId credentials;
             SecretAccessKey := SecretAccessKey credentials |} now
        = signed)
  /\ SigV4.signWebSocketUrl endpoint region credentials now
     = "wss://" ++ endpoint ++ "/mqtt?" ++ signed ++ "&X-Amz-Signature="
       ++ SigV4Steps.signature endpoint region credentials now signed
       ++ (if Token credentials === EmptyString then EmptyString
           else "&X-Amz-Security-Token="
                ++ JS.encodeURIComponent (Token credentials)).
Proof.
  cbv zeta. split; [|split].
  - unfold SigV4.canonicalQueryString, Query.names.
    cbn [JS.join String.concat].
    set (cred := JS.encodeURIComponent _).
    change ("X-Amz-Algorithm=AWS4-HMAC-SHA256" ++ "&"
            ++ ("X-Amz-Credential=" ++ cred) ++ "&"
            ++ ("X-Amz-Date=" ++ SigV4Steps.amzDate now) ++ "&"
            ++ "X-Amz-SignedHeaders=host")
      with ("X-Amz-Algorithm=AWS4-HMAC-SHA256"
            ++ String "&"
                 (("X-Amz-Credential=" ++ cred)
                  ++ String "&"
                       (("X-Amz-Date=" ++ SigV4Steps.amzDate now)
                        ++ String "&" "X-Amz-SignedHeaders=host"))).
    rewrite split_on_app_sep by reflexivity.
    rewrite split_on_app_sep
      by (rewrite all_chars_app; subst cred;
          rewrite encodeURIComponent_no_amp; reflexivity).
    rewrite split_on_app_sep
      by (rewrite all_chars_app, amzDate_no_amp; reflexivity).
    rewrite split_on_no_sep by reflexivity.
    cbn [List.map].
    change ("X-Amz-Credential=" ++ cred)
      with ("X-Amz-Credential" ++ "=" ++ cred).
    change ("X-Amz-Date=" ++ SigV4Steps.amzDate now)
      with ("X-Amz-Date" ++ "=" ++ SigV4Steps.amzDate now).
    rewrite !name_of_param by reflexivity. reflexivity.
  - intros token. reflexivity.
  - unfold SigV4.signWebSocketUrl, JS.truthy.
    destruct (Token credentials === EmptyString); cbn [negb].
    + rewrite append_empty_r. reflexivity.
    + repeat rewrite append_assoc. reflexivity.
Qed.

(** C1, on the revision of lines 18-79.  With a non-empty session token
    this revision puts the token inside the canonical query string over
    which the signature is computed, as the parameter
    [X-Amz-Security-Token] between [X-Amz-Date] and [X-Amz-SignedHeaders],
    and the URL ends with the signature: nothing is appended after
    [X-Amz-Signature]. *)
Theorem sorted_revision_signs_the_token
        (endpoint region : string) (credentials : AwsCredentials) (now : Z) :
  Token credentials <> EmptyString ->
  let signed := SigV4Sorted.canonicalQueryString region credentials now in
  signed
  = "X-Amz-Algorithm=AWS4-HMAC-SHA256&X-Amz-Credential="
    ++ JS.encodeURIComponent
         (AccessKeyId credentials ++ "/"
          ++ SigV4Steps.credentialScope region now)
    ++ "&X-Amz-Date=" ++ JS.encodeURIComponent (SigV4Steps.amzDate now)
    ++ "&X-Amz-Security-Token=" ++ JS.encodeURIComponent (Token credentials)
    ++ "&X-Amz-SignedHeaders=host"
  /\ Query.names signed
     = ["X-Amz-Algorithm"; "X-Amz-Credential"; "X-Amz-Date";
        "X-Amz-Security-Token"; "X-Amz-SignedHeaders"]
  /\ SigV4Sorted.signWebSocketUrl endpoint region credentials now
     = "wss://" ++ endpoint ++ "/mqtt?" ++ signed ++ "&X-Amz-Signature="
       ++ SigV4Steps.signature endpoint region credentials now signed.
Proof.
  intros Htoken. cbv zeta.
  assert (Hsigned :
            SigV4Sorted.canonicalQueryString region credentials now
            = "X-Amz-Algorithm=AWS4-HMAC-SHA256&X-Amz-Credential="
              ++ JS.encodeURIComponent
                   (AccessKeyId credentials ++ "/"
                    ++ SigV4Steps.credentialScope region now)
              ++ "&X-Amz-Date="
              ++ JS.encodeURIComponent (SigV4Steps.amzDate now)
              ++ "&X-Amz-Security-Token="
              ++ JS.encodeURIComponent (Token credentials)
              ++ "&X-Amz-SignedHeaders=host").
  { unfold SigV4Sorted.canonicalQueryString, SigV4Sorted.queryParams,
      JS.truthy.
    destruct (String.eqb_spec (Token credentials) EmptyString);
      [congruence|]. cbn [negb].
    generalize (AccessKeyId credentials ++ "/"
                ++ SigV4Steps.credentialScope region now).
    generalize (SigV4Steps.amzDate now). generalize (Token credentials).
    intros tok date cred. reflexivity. }
  split; [exact Hsigned|]. split; [|reflexivity].
  rewrite Hsigned. unfold Query.names.
  set (cred := JS.encodeURIComponent (AccessKeyId credentials ++ _)).
  set (date := JS.encodeURIComponent (SigV4Steps.amzDate now)).
  set (tok := JS.encodeURIComponent (Token credentials)).
  change ("X-Amz-Algorithm=AWS4-HMAC-SHA256&X-Amz-Credential=" ++ cred
          ++ "&X-Amz-Date=" ++ date ++ "&X-Amz-Security-Token=" ++ tok
          ++ "&X-Amz-SignedHeaders=host")
    with ("X-Amz-Algorithm=AWS4-HMAC-SHA256"
          ++ String "&"
               ("X-Amz-Credential=" ++ cred
                ++ String "&"
                     ("X-Amz-Date=" ++ date
                      ++ String "&"
                           ("X-Amz-Security-Token=" ++ tok
                            ++ String "&" "X-Amz-SignedHeaders=host")))).
  rewrite <- !(append_assoc _ _ (String "&" _)).
  rewrite split_on_app_sep by reflexivity.
  do 3 (rewrite split_on_app_sep
         by (rewrite all_chars_app; subst cred date tok;
             rewrite encodeURIComponent_no_amp; reflexivity)).
  rewrite split_on_no_sep by reflexivity.
  cbn [List.map].
  change ("X-Amz-Credential=" ++ cred)
    with ("X-Amz-Credential" ++ "=" ++ cred).
  change ("X-Amz-Date=" ++ date) with ("X-Amz-Date" ++ "=" ++ date).
  change ("X-Amz-Security-Token=" ++ tok)
    with ("X-Amz-Security-Token" ++ "=" ++ tok).
  rewrite !name_of_param by reflexivity. reflexivity.
Qed.

Lemma sorted_revision_signs_the_token_witness :
  let c :=
    {| Token := "tok"; AccessKeyId := "AKIA"; SecretAccessKey := "s" |} in
  Query.names
    (SigV4Sorted.canonicalQueryString AWS_REGION c 1704164645123)
  = ["X-Amz-Algorithm"; "X-Amz-Credential"; "X-Amz-Date";
     "X-Amz-Security-Token"; "X-Amz-SignedHeaders"].
Proof.
  intros c.
  exact (proj1 (proj2
           (sorted_revision_signs_the_token AWS_IOT_ENDPOINT AWS_REGION c
              1704164645123 ltac:(discriminate)))).
Defined.

(* ================================================================== *)
(** * Part III. Further properties of the code                         *)
(* ================================================================== *)

(** ** Incoming messages *)

Lemma prefix_cons (a b : ascii) (p s : string) :
  String.prefix (String a p) (String b s)
  = if ascii_dec a b then String.prefix p s else false.
Proof. reflexivity. Qed.

Lemma prefix_app (pat rest : string) : String.prefix pat (pat ++ rest) = true.
Proof.
  induction pat as [|c pat IH]; [destruct rest; reflexivity|].
  change (String c pat ++ rest) with (String c (pat ++ rest)).
  rewrite prefix_cons. destruct (ascii_dec c c); [exact IH|congruence].
Qed.

Lemma includes_here (pat rest : string) :
  JSText.includes pat (pat ++ rest) = true.
Proof.
  destruct (pat ++ rest) eqn:E; cbn [JSText.includes];
    rewrite <- E, prefix_app; reflexivity.
Qed.

Lemma includes_later (pat a s : string) :
  JSText.includes pat s = true -> JSText.includes pat (a ++ s) = true.
Proof.
  intros H. induction a as [|c a IH]; [exact H|].
  change (String c a ++ s) with (String c (a ++ s)).
  cbn [JSText.includes]. rewrite IH. apply orb_true_r.
Qed.

Lemma includes_cons (pat : string) (c : ascii) (s : string) :
  JSText.includes pat (String c s)
  = String.prefix pat (String c s) || JSText.includes pat s.
Proof. reflexivity. Qed.





Lemma length_append (a b : string) :
  String.length (a ++ b) = (String.length a + String.length b)%nat.
Proof.
  induction a as [|c a IH]; [reflexivity|].
  change (String c a ++ b) with (String c (a ++ b)).
  cbn [String.length]. rewrite IH. reflexivity.
Qed.




Lemma accepted_topic_recognised (motorUnitSerial topic : string) :
  topic = getShadowGetAcceptedTopic motorUnitSerial
  \/ topic = getShadowUpdateTopic motorUnitSerial ++ "/accepted" ->
  JSText.includes "/shadow/get/accepted" topic
  || JSText.includes "/shadow/update/accepted" topic = true.
Proof.
  intros [-> | ->].
  - unfold getShadowGetAcceptedTopic.
    rewrite (includes_later _ "$aws/things/"), orb_true_l; [reflexivity|].
    apply includes_later.
    rewrite <- (append_empty_r "/shadow/get/accepted") at 2.
    apply includes_here.
  - unfold getShadowUpdateTopic. apply orb_true_iff. right.
    rewrite !append_assoc.
    apply (includes_later _ "$aws/things/"), includes_later.
    change ("/shadow/update" ++ "/accepted") with "/shadow/update/accepted".
    rewrite <- (append_empty_r "/shadow/update/accepted") at 2.
    apply includes_here.
Qed.

(** X2.  On the get/accepted and update/accepted topics of any device id,
    a document whose [state.reported] is present and truthy yields exactly
    [stateUpdate(reported, version || 0)]; a document without it yields no
    notification; and the document [null] yields a parse-error
    notification, the exception of reading [null.state] being caught. *)
Theorem handleMessage_accepted
        (JSON_parse : string -> option JSON.value)
        (motorUnitSerial topic payload : string) (data : JSON.value) :
  topic = getShadowGetAcceptedTopic motorUnitSerial
  \/ topic = getShadowUpdateTopic motorUnitSerial ++ "/accepted" ->
  JSON_parse payload = Some data ->
  let emitted :=
    Messages.notifications
      (Messages.handleMessage JSON_parse topic payload) in
  (forall reported : JSON.value,
      Messages.reported_of data = inr (Some reported) ->
      JSText.truthy reported = true ->
      emitted = [Messages.stateUpdate reported (Messages.version_or_0 data)])
  /\ (Messages.reported_of data = inr None -> emitted = [])
  /\ (data = JSON.Null ->
      emitted = [Messages.parse_error topic Messages.TypeError])
  /\ (Messages.version_of data = None ->
      Messages.version_or_0 data = JSON.Number 0).
Proof.
  intros Htopic Hparse emitted. subst emitted.
  unfold Messages.handleMessage. rewrite Hparse.
  rewrite (accepted_topic_recognised motorUnitSerial topic Htopic).
  cbn [Messages.notifications]. repeat split.
  - intros reported Hrep Htruthy. rewrite Hrep, Htruthy. reflexivity.
  - intros Hrep. rewrite Hrep. reflexivity.
  - intros ->. reflexivity.
  - intros Hv. unfold Messages.version_or_0. rewrite Hv. reflexivity.
Qed.

Lemma handleMessage_accepted_witness :
  let reported := JSON.Object [("led", JSON.Null)] in
  let data := JSON.Object [("state", JSON.Object [("reported", reported)])] in
  Messages.notifications
    (Messages.handleMessage (fun _ => Some data)
       (getShadowGetAcceptedTopic "D1") "payload")
  = [Messages.stateUpdate reported (JSON.Number 0)].
Proof.
  intros reported data.
  exact (proj1 (handleMessage_accepted (fun _ => Some data) "D1"
                  (getShadowGetAcceptedTopic "D1") "payload" data
                  (or_introl eq_refl) eq_refl)
           reported eq_refl eq_refl).
Defined.





(** ** Shadow session: publishers, subscription, disconnect *)

(** X4.  The publishers other than [sendCommand] drop their message
    without a trace of it when the client is absent or the flag is false:
    [sendDynamic], [requestTemperature], [sendJoystick] and
    [exitJoystickMode] do nothing at all, [requestState] only logs; none of
    them emits an [error] notification, unlike [sendCommand]. *)
Theorem publishers_drop_silently (s : Cloud.State) :
  Cloud.client (Cloud.session s) = None
  \/ Cloud._connected (Cloud.session s) = false ->
  (forall payload, Cloud.sendDynamic payload s = (tt, s, []))
  /\ (forall serialNumber,
         Publishers.requestTemperature serialNumber s = (tt, s, []))
  /\ (forall direction, Publishers.sendJoystick direction s = (tt, s, []))
  /\ Publishers.exitJoystickMode s = (tt, s, [])
  /\ Cloud.requestState s
     = (tt, s, [Cloud.Log "[MQTT] requestState: not connected, skipping"]).
Proof.
  intros H.
  assert (Hd : forall payload, Cloud.sendDynamic payload s = (tt, s, [])).
  { intros payload. unfold Cloud.sendDynamic. unfold bind at 1.
    rewrite (connected_client_None s H). reflexivity. }
  split; [exact Hd|]. split; [|split; [|split]].
  - intros serialNumber. unfold Publishers.requestTemperature.
    unfold bind at 1, Cloud.this_motorUnitSerial. rewrite Hd. reflexivity.
  - intros direction. apply Hd.
  - apply Hd.
  - unfold Cloud.requestState. unfold bind at 1.
    rewrite (connected_client_None s H). reflexivity.
Qed.

Lemma publishers_drop_silently_witness :
  Publishers.sendJoystick "forward" Cloud.initial = (tt, Cloud.initial, []).
Proof.
  exact (proj1 (proj2 (proj2
           (publishers_drop_silently Cloud.initial (or_introl eq_refl))))
           "forward").
Defined.

Lemma sendDynamic_connected (payload : JSON.value) (s : Cloud.State)
      (c : Cloud.ClientId) :
  Cloud.client (Cloud.session s) = Some c ->
  Cloud._connected (Cloud.session s) = true ->
  state_of (Cloud.sendDynamic payload s) = s
  /\ List.filter Cloud.is_publish (trace_of (Cloud.sendDynamic payload s))
     = [Cloud.MqttPublish c
          (getDynamicTopic (Cloud.motorUnitSerial (Cloud.session s)))
          (JSON.stringify payload)]
  /\ List.filter Cloud.is_error_notification
       (trace_of (Cloud.sendDynamic payload s)) = [].
Proof.
  intros Hc Hb. unfold Cloud.sendDynamic.
  rewrite state_of_bind, trace_of_bind.
  rewrite (connected_client_Some s c Hc Hb). repeat split.
Qed.

(** X5.  On a connected session the publishers send one message each, on
    the client the session holds and to the topic of the stored device id:
    [requestState] the empty object to the shadow get topic,
    [requestTemperature] a temperature request naming the robot and the
    stored motor unit, [sendJoystick] a joystick request whose speed is 0
    for the direction ['stop'] and 100 for every other direction.  None
    changes the session. *)
Theorem publishers_when_connected (s : Cloud.State) (c : Cloud.ClientId) :
  Cloud.client (Cloud.session s) = Some c ->
  Cloud._connected (Cloud.session s) = true ->
  let serial := Cloud.motorUnitSerial (Cloud.session s) in
  (state_of (Cloud.requestState s) = s
   /\ List.filter Cloud.is_publish (trace_of (Cloud.requestState s))
      = [Cloud.MqttPublish c (getShadowGetTopic serial) "{}"])
  /\ (forall serialNumber,
         state_of (Publishers.requestTemperature serialNumber s) = s
         /\ List.filter Cloud.is_publish
              (trace_of (Publishers.requestTemperature serialNumber s))
            = [Cloud.MqttPublish c (getDynamicTopic serial)
                 (JSON.stringify
                    (JSON.Object
                       [("type", JSON.Str "pwsRequest");
                        ("description", JSON.Str "temperature");
                        ("robotSerial", JSON.Str serialNumber);
                        ("msmu", JSON.Str serial)]))])
  /\ (forall direction,
         state_of (Publishers.sendJoystick direction s) = s
         /\ List.filter Cloud.is_publish
              (trace_of (Publishers.sendJoystick direction s))
            = [Cloud.MqttPublish c (getDynamicTopic serial)
                 (JSON.stringify
                    (JSON.Object
                       [("type", JSON.Str "pwsRequest");
                        ("description", JSON.Str "joystick");
                        ("content",
                         JSON.Object
                           [("speed",
                             JSON.Number
                               (if direction === "stop" then 0 else 100));
                            ("direction", JSON.Str direction)])]))]).
Proof.
  intros Hc Hb serial. subst serial. split; [|split].
  - unfold Cloud.requestState. rewrite state_of_bind, trace_of_bind.
    rewrite (connected_client_Some s c Hc Hb). split; reflexivity.
  - intros serialNumber. unfold Publishers.requestTemperature.
    rewrite state_of_bind, trace_of_bind.
    cbn [Cloud.this_motorUnitSerial value_of state_of trace_of fst snd
         List.app].
    destruct (sendDynamic_connected
                (JSON.Object
                   [("type", JSON.Str "pwsRequest");
                    ("description", JSON.Str "temperature");
                    ("robotSerial", JSON.Str serialNumber);
                    ("msmu",
                     JSON.Str (Cloud.motorUnitSerial (Cloud.session s)))])
                s c Hc Hb) as (Hs & Hp & _).
    split; assumption.
  - intros direction. unfold Publishers.sendJoystick.
    destruct (sendDynamic_connected (Publishers.joystick_payload direction)
                s c Hc Hb) as (Hs & Hp & _).
    split; assumption.
Qed.

Lemma publishers_when_connected_witness :
  let s :=
    {| Cloud.session := {| Cloud.client := Some 0%nat;
                           Cloud.motorUnitSerial := "D1";
                           Cloud._connected := true |};
       Cloud.live := [0%nat]; Cloud.created := 1 |} in
  List.filter Cloud.is_publish (trace_of (Cloud.requestState s))
  = [Cloud.MqttPublish 0%nat "$aws/things/D1/shadow/get" "{}"].
Proof.
  intros s.
  exact (proj2 (proj1 (publishers_when_connected s 0%nat eq_refl eq_refl))).
Defined.

Section SessionSafety.
Variable signWebSocketUrl : string -> string -> AwsCredentials -> Z -> string.

Lemma step_publishes_nothing_when_off (sig : Cloud.Signal) (s : Cloud.State) :
  Cloud._connected (Cloud.session s) = false ->
  is_transport_connect sig = false ->
  List.filter Cloud.is_publish
    (trace_of (Cloud.step signWebSocketUrl sig s)) = []
  /\ Cloud._connected
       (Cloud.session (state_of (Cloud.step signWebSocketUrl sig s))) = false.
Proof using Type.
  intros Hoff Hsig.
  destruct sig as [m creds now stamp| | |desired|payload|suback|msg|msg|c'|];
    try discriminate;
    destruct_cloud_state s; try discriminate; cbn; split; reflexivity.
Qed.

Lemma run_publishes_nothing_when_off (sigs : list Cloud.Signal)
      (s : Cloud.State) :
  Cloud._connected (Cloud.session s) = false ->
  List.forallb (fun sig => negb (is_transport_connect sig)) sigs = true ->
  List.filter Cloud.is_publish
    (trace_of (Cloud.run signWebSocketUrl sigs s)) = [].
Proof using Type.
  revert s. induction sigs as [|sig sigs IH]; intros s Hoff Hsigs.
  - reflexivity.
  - cbn [List.forallb] in Hsigs. apply andb_prop in Hsigs as [Hsig Hsigs].
    apply negb_true_iff in Hsig.
    destruct (run_cons signWebSocketUrl sig sigs s) as [_ Htr].
    destruct (step_publishes_nothing_when_off sig s Hoff Hsig) as [Hp Hf].
    rewrite Htr, List.filter_app, Hp, (IH _ Hf Hsigs). reflexivity.
Qed.
End SessionSafety.

(** X6.  While the connected flag is false nothing is published, whatever
    is called: along any sequence of calls and client signals that has no
    transport connect in it, a session whose flag is false publishes no
    message.  The same holds of any session once a close signal has arrived
    or [disconnect] has been called. *)
Theorem nothing_published_until_connected
        (signWebSocketUrl : string -> string -> AwsCredentials -> Z -> string)
        (sigs : list Cloud.Signal) (s : Cloud.State) :
  List.forallb (fun sig => negb (is_transport_connect sig)) sigs = true ->
  (Cloud._connected (Cloud.session s) = false ->
   List.filter Cloud.is_publish
     (trace_of (Cloud.run signWebSocketUrl sigs s)) = [])
  /\ (forall c : Cloud.ClientId,
         List.filter Cloud.is_publish
           (trace_of
              (Cloud.run signWebSocketUrl (Cloud.TransportClose c :: sigs) s))
         = [])
  /\ (Cloud.client (Cloud.session s) <> None ->
      List.filter Cloud.is_publish
        (trace_of (Cloud.run signWebSocketUrl (Cloud.CallDisconnect :: sigs) s))
      = []).
Proof.
  intros Hsigs. split; [|split].
  - intros Hoff. apply run_publishes_nothing_when_off; assumption.
  - intros c.
    destruct (run_cons signWebSocketUrl (Cloud.TransportClose c) sigs s)
      as [_ Htr].
    rewrite Htr, List.filter_app.
    rewrite (run_publishes_nothing_when_off signWebSocketUrl sigs).
    + destruct_cloud_state s; reflexivity.
    + destruct_cloud_state s; reflexivity.
    + exact Hsigs.
  - intros Hc.
    destruct (run_cons signWebSocketUrl Cloud.CallDisconnect sigs s)
      as [_ Htr].
    rewrite Htr, List.filter_app.
    rewrite (run_publishes_nothing_when_off signWebSocketUrl sigs).
    + destruct_cloud_state s; try (exfalso; apply Hc; reflexivity);
        reflexivity.
    + destruct_cloud_state s; try (exfalso; apply Hc; reflexivity);
        reflexivity.
    + exact Hsigs.
Qed.

Lemma nothing_published_until_connected_witness :
  let s :=
    {| Cloud.session := {| Cloud.client := Some 0%nat;
                           Cloud.motorUnitSerial := "D1";
                           Cloud._connected := true |};
       Cloud.live := [0%nat]; Cloud.created := 1 |} in
  List.filter Cloud.is_publish
    (trace_of
       (Cloud.run (fun _ _ _ _ => "wss://signed")
          [Cloud.TransportClose 0%nat;
           Cloud.CallSendCommand (JSON.Object []);
           Cloud.CallRequestState;
           Cloud.CallSendDynamic (JSON.Object [])] s)) = [].
Proof.
  intros s.
  exact (proj1 (proj2
           (nothing_published_until_connected (fun _ _ _ _ => "wss://signed")
              [Cloud.CallSendCommand (JSON.Object []);
               Cloud.CallRequestState;
               Cloud.CallSendDynamic (JSON.Object [])] s eq_refl)) 0%nat).
Defined.

(** X7.  [disconnect] announces nothing: it emits no notification at all,
    leaves the handle absent, and a second [disconnect] does nothing.  When
    a client was held the flag is false afterwards, so the close signals
    that follow an explicit disconnect emit no [disconnected]; when no
    client was held [disconnect] returns at once and the flag keeps its
    value. *)
Theorem disconnect_is_silent
        (signWebSocketUrl : string -> string -> AwsCredentials -> Z -> string)
        (s : Cloud.State) :
  let s' := state_of (Cloud.disconnect s) in
  List.filter (fun e => match e with Cloud.Emit _ => true | _ => false end)
    (trace_of (Cloud.disconnect s)) = []
  /\ Cloud.client (Cloud.session s') = None
  /\ Cloud.disconnect s' = (tt, s', [])
  /\ (Cloud.client (Cloud.session s) = None -> Cloud.disconnect s = (tt, s, []))
  /\ (forall c : Cloud.ClientId,
         Cloud.client (Cloud.session s) = Some c ->
         Cloud._connected (Cloud.session s') = false
         /\ List.filter is_mqtt_lifecycle (trace_of (Cloud.disconnect s))
            = [Cloud.MqttEnd c]
         /\ forall cs : list Cloud.ClientId,
             Cloud.emitted Cloud.disconnected
               (trace_of
                  (Cloud.run signWebSocketUrl
                     (Cloud.CallDisconnect :: List.map Cloud.TransportClose cs)
                     s)) = 0%nat).
Proof.
  intros s'. subst s'. split; [|split; [|split; [|split]]].
  - destruct_cloud_state s; reflexivity.
  - destruct_cloud_state s; reflexivity.
  - destruct_cloud_state s; reflexivity.
  - intros Hc. destruct_cloud_state s; try discriminate; reflexivity.
  - intros c Hc. split; [|split].
    + destruct_cloud_state s; try discriminate; reflexivity.
    + destruct_cloud_state s; try discriminate; injection Hc as ->;
        reflexivity.
    + intros cs.
      destruct (run_cons signWebSocketUrl Cloud.CallDisconnect
                  (List.map Cloud.TransportClose cs) s) as [_ Htr].
      rewrite Htr, emitted_app.
      destruct (run_closes_disconnected signWebSocketUrl cs
                  (state_of (Cloud.step signWebSocketUrl Cloud.CallDisconnect s)))
        as [Hem _].
      rewrite Hem.
      destruct_cloud_state s; try discriminate; reflexivity.
Qed.

Lemma disconnect_is_silent_witness :
  let s :=
    {| Cloud.session := {| Cloud.client := Some 0%nat;
                           Cloud.motorUnitSerial := "D1";
                           Cloud._connected := true |};
       Cloud.live := [0%nat]; Cloud.created := 1 |} in
  Cloud.emitted Cloud.disconnected
    (trace_of
       (Cloud.run (fun _ _ _ _ => "wss://signed")
          [Cloud.CallDisconnect; Cloud.TransportClose 0%nat] s)) = 0%nat.
Proof.
  intros s.
  exact (proj2 (proj2 (proj2 (proj2 (proj2 (proj2
           (disconnect_is_silent (fun _ _ _ _ => "wss://signed") s))))
           0%nat eq_refl)) [0%nat]).
Defined.

(** X8.  The [connect] listener sets the flag, subscribes on the held
    client to the shadow wildcard topic and the dynamic topic of the stored
    device id, and only then announces: when the subscription succeeds it
    emits [connected] once and resolves the promise of [connect].  When the
    subscription fails it emits one [error] ("Subscribe failed: ...") and
    then ends by throwing the error of the subscription, which nothing
    catches; it does not emit [connected], and neither resolves nor rejects
    the promise of [connect], although the flag stays set. *)
Theorem onConnect_subscribes_then_announces (s : Cloud.State)
        (c : Cloud.ClientId) (suback : option string) :
  Cloud.client (Cloud.session s) = Some c ->
  let r := Cloud.onConnect suback s in
  let serial := Cloud.motorUnitSerial (Cloud.session s) in
  Cloud._connected (Cloud.session (state_of r)) = true
  /\ Cloud.client (Cloud.session (state_of r)) = Some c
  /\ List.filter
       (fun e => match e with Cloud.MqttSubscribe _ _ => true | _ => false end)
       (trace_of r)
     = [Cloud.MqttSubscribe c
          [getShadowWildcardTopic serial; getDynamicTopic serial]]
  /\ List.filter
       (fun e => match e with
                 | Cloud.Emit _ | Cloud.Resolve | Cloud.Reject _
                 | Cloud.Thrown _ => true
                 | _ => false
                 end) (trace_of r)
     = match suback with
       | None => [Cloud.Emit Cloud.connected; Cloud.Resolve]
       | Some err =>
           [Cloud.Emit (Cloud.error ("Subscribe failed: " ++ err));
            Cloud.Thrown err]
       end.
Proof.
  intros Hc r serial. subst r serial.
  destruct_cloud_state s; try discriminate; injection Hc as ->;
    destruct suback; cbn; repeat split.
Qed.

Lemma onConnect_subscribes_then_announces_witness :
  let s :=
    {| Cloud.session := {| Cloud.client := Some 0%nat;
                           Cloud.motorUnitSerial := "D1";
                           Cloud._connected := false |};
       Cloud.live := [0%nat]; Cloud.created := 1 |} in
  List.filter
    (fun e => match e with
              | Cloud.Emit _ | Cloud.Resolve | Cloud.Reject _
              | Cloud.Thrown _ => true
              | _ => false
              end) (trace_of (Cloud.onConnect (Some "denied") s))
  = [Cloud.Emit (Cloud.error "Subscribe failed: denied");
     Cloud.Thrown "denied"].
Proof.
  intros s.
  exact (proj2 (proj2 (proj2
           (onConnect_subscribes_then_announces s 0%nat (Some "denied")
              eq_refl)))).
Defined.

(** X9.  [connect] for a device, the client's connect signal, then
    [sendCommand] and [requestState]: whatever the session was before, one
    client is made, with the URL of the signer for the fixed endpoint and
    region and the client id [homey_dolphin_<device>_<Date.now()>], after the
    client held before (if any) has been ended; the subscription and both
    publishes go to the topics of the device passed to [connect], on the new
    client. *)
Theorem connect_then_publish
        (signWebSocketUrl : string -> string -> AwsCredentials -> Z -> string)
        (motorUnitSerial : string) (credentials : AwsCredentials)
        (now stamp : Z) (desired : JSON.value) (s : Cloud.State) :
  let t :=
    trace_of
      (Cloud.run signWebSocketUrl
         [Cloud.CallConnect motorUnitSerial credentials now stamp;
          Cloud.TransportConnect None;
          Cloud.CallSendCommand desired;
          Cloud.CallRequestState] s) in
  let c := Cloud.created s in
  List.filter is_mqtt_lifecycle t
  = (match Cloud.client (Cloud.session s) with
     | Some c0 => [Cloud.MqttEnd c0]
     | None => []
     end
     ++ [Cloud.MqttConnect c
           (signWebSocketUrl AWS_IOT_ENDPOINT AWS_REGION credentials now)
           ("homey_dolphin_" ++ motorUnitSerial ++ "_" ++ pretty stamp)])%list
  /\ List.filter
       (fun e => match e with Cloud.MqttSubscribe _ _ => true | _ => false end)
       t
     = [Cloud.MqttSubscribe c
          [getShadowWildcardTopic motorUnitSerial;
           getDynamicTopic motorUnitSerial]]
  /\ List.filter Cloud.is_publish t
     = [Cloud.MqttPublish c (getShadowUpdateTopic motorUnitSerial)
          (JSON.stringify
             (JSON.Object [("state", JSON.Object [("desired", desired)])]));
        Cloud.MqttPublish c (getShadowGetTopic motorUnitSerial) "{}"]
  /\ Cloud.emitted Cloud.connected t = 1%nat.
Proof.
  intros t c. subst t c.
  destruct_cloud_state s; cbn; repeat split.
Qed.

(** ** Device: what an update writes *)

Lemma capabilities_written_app (t1 t2 : list Device.Event) :
  capabilities_written (t1 ++ t2)%list
  = (capabilities_written t1 ++ capabilities_written t2)%list.
Proof. unfold capabilities_written. apply omap_app. Qed.

Ltac sublist_steps :=
  repeat first
    [ apply sublist_nil | apply sublist_skip | apply sublist_cons ].

Lemma update_systemState_capabilities (st : ReportedState)
      (d : Device.DolphinDevice) :
  sublist (capabilities_written (trace_of (Device.update_systemState st d)))
          ["onoff"; "robot_status"; "cycle_count"].
Proof.
  unfold Device.update_systemState. destruct d as [ps ls caps].
  device_cases; cbn; sublist_steps.
Qed.

Lemma update_cycleInfo_capabilities (now : Z) (st : ReportedState)
      (cs : option CalculatedState.t) (d : Device.DolphinDevice) :
  sublist
    (capabilities_written (trace_of (Device.update_cycleInfo now st cs d)))
    ["cleaning_mode"; "cycle_time_remaining"].
Proof.
  unfold Device.update_cycleInfo, when. block_cases; cbn; sublist_steps.
Qed.

Lemma update_filterBag_capabilities (st : ReportedState)
      (d : Device.DolphinDevice) :
  sublist (capabilities_written (trace_of (Device.update_filterBag st d)))
          ["filter_status"].
Proof.
  unfold Device.update_filterBag, when. block_cases; cbn; sublist_steps.
Qed.

Lemma update_wifi_capabilities (st : ReportedState)
      (d : Device.DolphinDevice) :
  sublist (capabilities_written (trace_of (Device.update_wifi st d)))
          ["wifi_signal"; "network_name"].
Proof.
  unfold Device.update_wifi, when. block_cases; cbn; sublist_steps.
Qed.

Lemma update_robotError_capabilities (st : ReportedState)
      (d : Device.DolphinDevice) :
  sublist (capabilities_written (trace_of (Device.update_robotError st d)))
          ["robot_error"].
Proof.
  unfold Device.update_robotError, when. block_cases; cbn; sublist_steps.
Qed.

Lemma update_led_capabilities (st : ReportedState)
      (d : Device.DolphinDevice) :
  sublist (capabilities_written (trace_of (Device.update_led st d)))
          ["led_mode"; "dim"].
Proof.
  unfold Device.update_led. block_cases; cbn; sublist_steps.
Qed.

(** X10.  One update writes each capability at most once, and only the
    eleven capabilities of its six blocks, in the order of the blocks; no
    update writes [measure_temperature].  An update that carries none of
    the seven fragments the handler reads does nothing at all, and the
    fragments [pwsError] and [activity] are never read. *)
Theorem onStateUpdate_writes_each_capability_once
        (now : Z) (st : ReportedState) (d : Device.DolphinDevice) :
  sublist (capabilities_written (trace_of (Device.onStateUpdate now st d)))
          state_capabilities
  /\ Device.written "measure_temperature"
       (trace_of (Device.onStateUpdate now st d)) = []
  /\ (forall (e : option ErrorInfo) (a : option string),
         Device.onStateUpdate now
           {| systemState := None; cycleInfo := None; led := None;
              filterBagIndication := None; debug := None; wifi := None;
              robotError := None; pwsError := e; activity := a |} d
         = (tt, d, []))
  /\ (forall (e : option ErrorInfo) (a : option string),
         Device.onStateUpdate now st d
         = Device.onStateUpdate now
             {| systemState := systemState st; cycleInfo := cycleInfo st;
                led := led st;
                filterBagIndication := filterBagIndication st;
                debug := debug st; wifi := wifi st;
                robotError := robotError st;
                pwsError := e; activity := a |} d).
Proof.
  assert (Hsub :
            sublist
              (capabilities_written
                 (trace_of (Device.onStateUpdate now st d)))
              state_capabilities).
  { destruct (onStateUpdate_blocks now st d) as [_ Htr]. cbv zeta in Htr.
    rewrite Htr, !capabilities_written_app.
    change state_capabilities
      with (["onoff"; "robot_status"; "cycle_count"]
            ++ ["cleaning_mode"; "cycle_time_remaining"]
            ++ ["filter_status"] ++ ["wifi_signal"; "network_name"]
            ++ ["robot_error"] ++ ["led_mode"; "dim"])%list.
    repeat apply sublist_app.
    - apply update_systemState_capabilities.
    - apply update_cycleInfo_capabilities.
    - apply update_filterBag_capabilities.
    - apply update_wifi_capabilities.
    - apply update_robotError_capabilities.
    - apply update_led_capabilities. }
  split; [exact Hsub|]. split; [|split].
  - assert (Hin : forall t : list Device.Event,
               ~ In "measure_temperature" (capabilities_written t) ->
               Device.written "measure_temperature" t = []).
    { induction t as [|e t IH]; [reflexivity|].
      destruct e as [c v|card tokens]; cbn.
      - intros Hn. destruct (String.eqb_spec c "measure_temperature") as [->|_].
        + exfalso. apply Hn. left. reflexivity.
        + apply IH. intros Hc. apply Hn. right. exact Hc.
      - exact IH. }
    apply Hin. intros Hc. apply list_elem_of_In in Hc.
    pose proof (elem_of_sublist _ _ _ Hc Hsub) as H.
    unfold state_capabilities in H.
    repeat (apply elem_of_cons in H as [H|H]; [discriminate|]).
    apply elem_of_nil in H. exact H.
  - intros e a. reflexivity.
  - intros e a. destruct st; reflexivity.
Qed.

(** The writes of an update to one capability, block by block. *)
Lemma written_onStateUpdate (k : string) (now : Z) (st : ReportedState)
      (d : Device.DolphinDevice) :
  let r1 := Device.update_systemState st d in
  let r2 := Device.update_cycleInfo now st (value_of r1) (state_of r1) in
  let r3 := Device.update_filterBag st (state_of r2) in
  let r4 := Device.update_wifi st (state_of r3) in
  let r5 := Device.update_robotError st (state_of r4) in
  let r6 := Device.update_led st (state_of r5) in
  Device.written k (trace_of (Device.onStateUpdate now st d))
  = (Device.written k (trace_of r1) ++ Device.written k (trace_of r2)
     ++ Device.written k (trace_of r3) ++ Device.written k (trace_of r4)
     ++ Device.written k (trace_of r5) ++ Device.written k (trace_of r6))%list.
Proof.
  cbv zeta. destruct (onStateUpdate_blocks now st d) as [_ Htr].
  cbv zeta in Htr. rewrite Htr, !written_app. reflexivity.
Qed.

Lemma fired_onStateUpdate (k : string) (now : Z) (st : ReportedState)
      (d : Device.DolphinDevice) :
  let r1 := Device.update_systemState st d in
  let r2 := Device.update_cycleInfo now st (value_of r1) (state_of r1) in
  let r3 := Device.update_filterBag st (state_of r2) in
  let r4 := Device.update_wifi st (state_of r3) in
  let r5 := Device.update_robotError st (state_of r4) in
  let r6 := Device.update_led st (state_of r5) in
  Device.fired k (trace_of (Device.onStateUpdate now st d))
  = (Device.fired k (trace_of r1) + Device.fired k (trace_of r2)
     + Device.fired k (trace_of r3) + Device.fired k (trace_of r4)
     + Device.fired k (trace_of r5) + Device.fired k (trace_of r6))%nat.
Proof.
  cbv zeta. destruct (onStateUpdate_blocks now st d) as [_ Htr].
  cbv zeta in Htr. rewrite Htr, !fired_app. lia.
Qed.

(** A block that writes nothing to a capability and fires nothing on a
    card, whatever it is given. *)
Ltac silent_block :=
  first
    [ progress unfold Device.update_cycleInfo, Device.update_filterBag,
        Device.update_wifi, Device.update_robotError, Device.update_led, when;
      block_cases
    | match goal with
      | |- context [Device.update_systemState _ ?d] =>
          unfold Device.update_systemState;
          let ps := fresh "ps" in
          let ls := fresh "ls" in
          let caps := fresh "caps" in
          destruct d as [ps ls caps]; device_cases; reflexivity
      end ].

Lemma written_other_blocks (k : string) (now : Z) (st : ReportedState)
      (d : Device.DolphinDevice) :
  k = "onoff" \/ k = "robot_status" \/ k = "cycle_count" ->
  Device.written k (trace_of (Device.onStateUpdate now st d))
  = Device.written k (trace_of (Device.update_systemState st d)).
Proof.
  intros Hk. rewrite written_onStateUpdate.
  set (r1 := Device.update_systemState st d).
  set (r2 := Device.update_cycleInfo now st (value_of r1) (state_of r1)).
  set (r3 := Device.update_filterBag st (state_of r2)).
  set (r4 := Device.update_wifi st (state_of r3)).
  set (r5 := Device.update_robotError st (state_of r4)).
  set (r6 := Device.update_led st (state_of r5)).
  assert (H2 : Device.written k (trace_of r2) = []).
  { subst r2. destruct Hk as [ -> | [ -> | -> ] ]; silent_block. }
  assert (H3 : Device.written k (trace_of r3) = []).
  { subst r3. destruct Hk as [ -> | [ -> | -> ] ]; silent_block. }
  assert (H4 : Device.written k (trace_of r4) = []).
  { subst r4. destruct Hk as [ -> | [ -> | -> ] ]; silent_block. }
  assert (H5 : Device.written k (trace_of r5) = []).
  { subst r5. destruct Hk as [ -> | [ -> | -> ] ]; silent_block. }
  assert (H6 : Device.written k (trace_of r6) = []).
  { subst r6. destruct Hk as [ -> | [ -> | -> ] ]; silent_block. }
  rewrite H2, H3, H4, H5, H6, !app_nil_r. reflexivity.
Qed.

Lemma update_systemState_writes (st : ReportedState) (ss : SystemState)
      (d : Device.DolphinDevice) :
  systemState st = Some ss ->
  let status := calculateState (pwsState ss) (robotState ss) in
  let t := trace_of (Device.update_systemState st d) in
  Device.written "onoff" t
  = [Device.Boolean
       match status with
       | CalculatedState.Cleaning | CalculatedState.Init => true
       | _ => false
       end]
  /\ Device.written "robot_status" t
     = [Device.Text (CalculatedState.value status)]
  /\ Device.written "cycle_count" t
     = match rTurnOnCount ss with
       | Some n => [Device.Num n]
       | None => []
       end.
Proof.
  intros H. cbv zeta. unfold Device.update_systemState. rewrite H.
  destruct d as [ps ls caps].
  destruct (calculateState (pwsState ss) (robotState ss));
    destruct (rTurnOnCount ss);
    cbn [CalculatedState.value String.eqb Ascii.eqb Bool.eqb orb];
    repeat split; device_cases; reflexivity.
Qed.

(** X11.  An update with a [systemState] fragment writes [robot_status]
    with the derived status and [onoff] with whether that status is
    [cleaning] or [init], once each, and [cycle_count] exactly when the
    fragment has an [rTurnOnCount] (zero included); afterwards the store
    holds these values.  An update without the fragment writes none of the
    three and leaves what the store held. *)
Theorem onoff_follows_status (now : Z) (st : ReportedState)
        (d : Device.DolphinDevice) :
  let r := Device.onStateUpdate now st d in
  let store := Device.capabilities (state_of r) in
  match systemState st with
  | Some ss =>
      let status := calculateState (pwsState ss) (robotState ss) in
      let isCleaning :=
        match status with
        | CalculatedState.Cleaning | CalculatedState.Init => true
        | _ => false
        end in
      Device.written "onoff" (trace_of r) = [Device.Boolean isCleaning]
      /\ Device.written "robot_status" (trace_of r)
         = [Device.Text (CalculatedState.value status)]
      /\ Device.written "cycle_count" (trace_of r)
         = match rTurnOnCount ss with
           | Some n => [Device.Num n]
           | None => []
           end
      /\ store !! "onoff" = Some (Device.Boolean isCleaning)
      /\ store !! "robot_status"
         = Some (Device.Text (CalculatedState.value status))
  | None =>
      Device.written "onoff" (trace_of r) = []
      /\ Device.written "robot_status" (trace_of r) = []
      /\ Device.written "cycle_count" (trace_of r) = []
      /\ store !! "onoff" = Device.capabilities d !! "onoff"
      /\ store !! "robot_status" = Device.capabilities d !! "robot_status"
  end.
Proof.
  cbv zeta.
  pose proof (replays_onStateUpdate now st d) as Hstore.
  rewrite Hstore, !replay_lookup.
  rewrite !written_other_blocks by tauto.
  destruct (systemState st) as [ss|] eqn:Hss.
  - destruct (update_systemState_writes st ss d Hss) as (H1 & H2 & H3).
    cbv zeta in H1, H2, H3. rewrite H1, H2, H3. repeat split.
  - unfold Device.update_systemState. rewrite Hss. repeat split.
Qed.

Lemma written_cycle_time_remaining (now : Z) (st : ReportedState)
      (d : Device.DolphinDevice) :
  let r1 := Device.update_systemState st d in
  Device.written "cycle_time_remaining"
    (trace_of (Device.onStateUpdate now st d))
  = Device.written "cycle_time_remaining"
      (trace_of (Device.update_cycleInfo now st (value_of r1) (state_of r1))).
Proof.
  cbv zeta. rewrite written_onStateUpdate.
  set (r1 := Device.update_systemState st d).
  set (r2 := Device.update_cycleInfo now st (value_of r1) (state_of r1)).
  set (r3 := Device.update_filterBag st (state_of r2)).
  set (r4 := Device.update_wifi st (state_of r3)).
  set (r5 := Device.update_robotError st (state_of r4)).
  set (r6 := Device.update_led st (state_of r5)).
  assert (H1 : Device.written "cycle_time_remaining" (trace_of r1) = []).
  { subst r1. silent_block. }
  assert (H3 : Device.written "cycle_time_remaining" (trace_of r3) = []).
  { subst r3. silent_block. }
  assert (H4 : Device.written "cycle_time_remaining" (trace_of r4) = []).
  { subst r4. silent_block. }
  assert (H5 : Device.written "cycle_time_remaining" (trace_of r5) = []).
  { subst r5. silent_block. }
  assert (H6 : Device.written "cycle_time_remaining" (trace_of r6) = []).
  { subst r6. silent_block. }
  rewrite H1, H3, H4, H5, H6, !app_nil_r. reflexivity.
Qed.

Lemma update_systemState_value (st : ReportedState)
      (d : Device.DolphinDevice) :
  value_of (Device.update_systemState st d)
  = match systemState st with
    | Some ss => Some (calculateState (pwsState ss) (robotState ss))
    | None => None
    end.
Proof.
  unfold Device.update_systemState. destruct d as [ps ls caps].
  device_cases; reflexivity.
Qed.

(** X12.  For an update whose cycle fragment names a mode: when the cycle
    time [T] and the cycle start are both present and not zero,
    [cycle_time_remaining] is written once, with [T] less the whole minutes
    elapsed since the start, and never below zero.  It is zero once [T]
    minutes have elapsed; within the first minute after the start it is
    [max(0, T)], that is [T] itself for a positive cycle time and zero for
    a negative one; and it is no more than [max(0, T)] when the start is
    not in the future.  When either is missing or zero, the capability is
    set to 0 if the status derived from the same update is [off], and is
    not written otherwise. *)
Theorem cycle_time_remaining_bounds
        (now : Z) (st : ReportedState) (ci : CycleInfo) (cm : CleaningMode)
        (d : Device.DolphinDevice) :
  cycleInfo st = Some ci ->
  cleaningMode ci = Some cm ->
  mode cm <> EmptyString ->
  let t := trace_of (Device.onStateUpdate now st d) in
  (forall T start : Z,
      cycleTime cm = Some T -> cycleStartTimeUTC cm = Some start ->
      T <> 0 -> start <> 0 ->
      exists n : Z,
        Device.written "cycle_time_remaining" t = [Device.Num n]
        /\ n = Z.max 0 (T - (now / 1000 - start) / 60)
        /\ 0 <= n
        /\ (T * 60 <= now / 1000 - start -> n = 0)
        /\ (0 <= now / 1000 - start < 60 -> n = Z.max 0 T)
        /\ (start <= now / 1000 -> n <= Z.max 0 T)
        /\ (0 < T -> 0 <= now / 1000 - start < 60 -> n = T)
        /\ (T < 0 -> start <= now / 1000 -> n = 0))
  /\ (Device.truthy_number (cycleTime cm)
      && Device.truthy_number (cycleStartTimeUTC cm) = false ->
      Device.written "cycle_time_remaining" t
      = match systemState st with
        | Some ss =>
            match calculateState (pwsState ss) (robotState ss) with
            | CalculatedState.Off => [Device.Num 0]
            | _ => []
            end
        | None => []
        end).
Proof.
  intros Hci Hcm Hmode t. subst t.
  rewrite written_cycle_time_remaining. cbv zeta.
  rewrite update_systemState_value.
  unfold Device.update_cycleInfo, when. rewrite Hci, Hcm.
  assert (Ht : JS.truthy (mode cm) = true).
  { unfold JS.truthy. apply negb_true_iff, String.eqb_neq. exact Hmode. }
  rewrite Ht. split.
  - intros T start HT Hstart HT0 Hs0. rewrite HT, Hstart.
    cbn [Device.truthy_number default option_map].
    rewrite (proj2 (Z.eqb_neq T 0) HT0), (proj2 (Z.eqb_neq start 0) Hs0).
    cbn [negb andb].
    exists (Z.max 0 (T - (now / 1000 - start) / 60)).
    split; [destruct (mode cm === "pickup"); reflexivity|].
    split; [reflexivity|].
    repeat split; intros; Z.div_mod_to_equations; lia.
  - intros Hfalse. rewrite Hfalse.
    destruct (systemState st) as [ss|];
      [destruct (calculateState (pwsState ss) (robotState ss))|];
      destruct (mode cm === "pickup"); reflexivity.
Qed.

Lemma cycle_time_remaining_bounds_witness :
  let cm := {| mode := "all"; cycleTime := Some 120;
               cycleStartTimeUTC := Some 1700000000 |} in
  let st := {| systemState := None;
               cycleInfo := Some {| cleaningMode := Some cm |};
               led := None; filterBagIndication := None; debug := None;
               wifi := None; robotError := None; pwsError := None;
               activity := None |} in
  exists n : Z,
    Device.written "cycle_time_remaining"
      (trace_of (Device.onStateUpdate 1700003000999 st Device.initial))
    = [Device.Num n]
    /\ n = Z.max 0 (120 - (1700003000999 / 1000 - 1700000000) / 60)
    /\ 0 <= n
    /\ (120 * 60 <= 1700003000999 / 1000 - 1700000000 -> n = 0)
    /\ (0 <= 1700003000999 / 1000 - 1700000000 < 60 -> n = Z.max 0 120)
    /\ (1700000000 <= 1700003000999 / 1000 -> n <= Z.max 0 120)
    /\ (0 < 120 -> 0 <= 1700003000999 / 1000 - 1700000000 < 60 -> n = 120)
    /\ (120 < 0 -> 1700000000 <= 1700003000999 / 1000 -> n = 0).
Proof.
  intros cm st.
  exact (proj1 (cycle_time_remaining_bounds 1700003000999 st
                  {| cleaningMode := Some cm |} cm Device.initial
                  eq_refl eq_refl ltac:(discriminate))
           120 1700000000 eq_refl eq_refl ltac:(discriminate)
           ltac:(discriminate)).
Defined.

Lemma robot_error_blocks (now : Z) (st : ReportedState)
      (d : Device.DolphinDevice) (s5 : Device.DolphinDevice) :
  Device.written "robot_error" (trace_of (Device.onStateUpdate now st d))
  = Device.written "robot_error" (trace_of (Device.update_robotError st s5))
  /\ Device.fired "robot_error_occurred"
       (trace_of (Device.onStateUpdate now st d))
     = Device.fired "robot_error_occurred"
         (trace_of (Device.update_robotError st s5)).
Proof.
  rewrite written_onStateUpdate, fired_onStateUpdate.
  set (r1 := Device.update_systemState st d).
  set (r2 := Device.update_cycleInfo now st (value_of r1) (state_of r1)).
  set (r3 := Device.update_filterBag st (state_of r2)).
  set (r4 := Device.update_wifi st (state_of r3)).
  set (r5 := Device.update_robotError st (state_of r4)).
  set (r6 := Device.update_led st (state_of r5)).
  assert (H1 : Device.written "robot_error" (trace_of r1) = []
               /\ Device.fired "robot_error_occurred" (trace_of r1) = 0%nat).
  { subst r1. split; silent_block. }
  assert (H2 : Device.written "robot_error" (trace_of r2) = []
               /\ Device.fired "robot_error_occurred" (trace_of r2) = 0%nat).
  { subst r2. split; silent_block. }
  assert (H3 : Device.written "robot_error" (trace_of r3) = []
               /\ Device.fired "robot_error_occurred" (trace_of r3) = 0%nat).
  { subst r3. split; silent_block. }
  assert (H4 : Device.written "robot_error" (trace_of r4) = []
               /\ Device.fired "robot_error_occurred" (trace_of r4) = 0%nat).
  { subst r4. split; silent_block. }
  assert (H6 : Device.written "robot_error" (trace_of r6) = []
               /\ Device.fired "robot_error_occurred" (trace_of r6) = 0%nat).
  { subst r6. split; silent_block. }
  destruct H1 as [W1 F1], H2 as [W2 F2], H3 as [W3 F3], H4 as [W4 F4],
    H6 as [W6 F6].
  rewrite W1, W2, W3, W4, W6, F1, F2, F3, F4, F6, !app_nil_r.
  cbn [List.app]. rewrite !Nat.add_0_r. cbn [Nat.add].
  subst r5. unfold Device.update_robotError, when.
  split; block_cases.
Qed.

(** X13.  An update with a [robotError] fragment writes [robot_error] once:
    ["Error <code>"] when the code is above zero, ["None"] otherwise (zero
    and negative codes alike); the [robot_error_occurred] trigger fires once
    on every update whose code is above zero, with the code as its
    [error_code] token, whatever was reported before, and on no other
    update.  Without the fragment the capability is not written. *)
Theorem robot_error_is_level_triggered
        (now : Z) (st : ReportedState) (d : Device.DolphinDevice) :
  let t := trace_of (Device.onStateUpdate now st d) in
  match robotError st with
  | Some err =>
      let code := errorCode err in
      Device.written "robot_error" t
      = [Device.Text (if 0 <? code then "Error " ++ pretty code else "None")]
      /\ Device.fired "robot_error_occurred" t
         = (if 0 <? code then 1%nat else 0%nat)
      /\ List.filter
           (fun e => match e with
                     | Device.Trigger card _ => card === "robot_error_occurred"
                     | _ => false
                     end) t
         = (if 0 <? code
            then [Device.Trigger "robot_error_occurred"
                    [("error_code", Device.Num code)]]
            else [])
      /\ Device.capabilities (state_of (Device.onStateUpdate now st d))
         !! "robot_error"
         = Some (Device.Text
                   (if 0 <? code then "Error " ++ pretty code else "None"))
  | None =>
      Device.written "robot_error" t = []
      /\ Device.fired "robot_error_occurred" t = 0%nat
  end.
Proof.
  cbv zeta.
  pose proof (replays_onStateUpdate now st d) as Hstore.
  rewrite Hstore, replay_lookup.
  destruct (robot_error_blocks now st d d) as [HW HF].
  rewrite HW, HF.
  destruct (onStateUpdate_blocks now st d) as [_ Htr]. cbv zeta in Htr.
  rewrite Htr, !List.filter_app.
  set (is_card := fun e : Device.Event => _).
  set (r1 := Device.update_systemState st d).
  set (r2 := Device.update_cycleInfo now st (value_of r1) (state_of r1)).
  set (r3 := Device.update_filterBag st (state_of r2)).
  set (r4 := Device.update_wifi st (state_of r3)).
  set (r5 := Device.update_robotError st (state_of r4)).
  set (r6 := Device.update_led st (state_of r5)).
  assert (H1 : List.filter is_card (trace_of r1) = []).
  { subst r1 is_card. silent_block. }
  assert (H2 : List.filter is_card (trace_of r2) = []).
  { subst r2 is_card. silent_block. }
  assert (H3 : List.filter is_card (trace_of r3) = []).
  { subst r3 is_card. silent_block. }
  assert (H4 : List.filter is_card (trace_of r4) = []).
  { subst r4 is_card. silent_block. }
  assert (H6 : List.filter is_card (trace_of r6) = []).
  { subst r6 is_card. silent_block. }
  rewrite H1, H2, H3, H4, H6, !app_nil_r. cbn [List.app].
  subst r5 is_card. unfold Device.update_robotError, when.
  destruct (robotError st) as [err|]; [|split; reflexivity].
  destruct (0 <? errorCode err); repeat split.
Qed.

Lemma led_blocks (k : string) (now : Z) (st : ReportedState)
      (d : Device.DolphinDevice) (s5 : Device.DolphinDevice) :
  k = "led_mode" \/ k = "dim" ->
  Device.written k (trace_of (Device.onStateUpdate now st d))
  = Device.written k (trace_of (Device.update_led st s5)).
Proof.
  intros Hk. rewrite written_onStateUpdate.
  set (r1 := Device.update_systemState st d).
  set (r2 := Device.update_cycleInfo now st (value_of r1) (state_of r1)).
  set (r3 := Device.update_filterBag st (state_of r2)).
  set (r4 := Device.update_wifi st (state_of r3)).
  set (r5 := Device.update_robotError st (state_of r4)).
  assert (H1 : Device.written k (trace_of r1) = []).
  { subst r1. destruct Hk as [ -> | -> ]; silent_block. }
  assert (H2 : Device.written k (trace_of r2) = []).
  { subst r2. destruct Hk as [ -> | -> ]; silent_block. }
  assert (H3 : Device.written k (trace_of r3) = []).
  { subst r3. destruct Hk as [ -> | -> ]; silent_block. }
  assert (H4 : Device.written k (trace_of r4) = []).
  { subst r4. destruct Hk as [ -> | -> ]; silent_block. }
  assert (H5 : Device.written k (trace_of r5) = []).
  { subst r5. destruct Hk as [ -> | -> ]; silent_block. }
  rewrite H1, H2, H3, H4, H5. cbn [List.app].
  unfold Device.update_led. destruct (led st); reflexivity.
Qed.

Lemma block_keeps_led (st : ReportedState) (now : Z)
      (cs : option CalculatedState.t) (d : Device.DolphinDevice) :
  Device.currentLedState (state_of (Device.update_systemState st d))
  = Device.currentLedState d
  /\ Device.currentLedState (state_of (Device.update_cycleInfo now st cs d))
     = Device.currentLedState d
  /\ Device.currentLedState (state_of (Device.update_filterBag st d))
     = Device.currentLedState d
  /\ Device.currentLedState (state_of (Device.update_wifi st d))
     = Device.currentLedState d
  /\ Device.currentLedState (state_of (Device.update_robotError st d))
     = Device.currentLedState d.
Proof.
  split; [|repeat split].
  - unfold Device.update_systemState. destruct d as [ps ls caps].
    device_cases; reflexivity.
  - unfold Device.update_cycleInfo, when. block_cases.
  - unfold Device.update_filterBag, when. block_cases.
  - unfold Device.update_wifi, when. block_cases.
  - unfold Device.update_robotError, when. block_cases.
Qed.

Lemma onStateUpdate_currentLedState (now : Z) (st : ReportedState)
      (d : Device.DolphinDevice) :
  Device.currentLedState (state_of (Device.onStateUpdate now st d))
  = default (Device.currentLedState d) (led st).
Proof.
  destruct (onStateUpdate_blocks now st d) as [Hst _]. cbv zeta in Hst.
  rewrite Hst.
  set (r1 := Device.update_systemState st d).
  set (r2 := Device.update_cycleInfo now st (value_of r1) (state_of r1)).
  set (r3 := Device.update_filterBag st (state_of r2)).
  set (r4 := Device.update_wifi st (state_of r3)).
  set (r5 := Device.update_robotError st (state_of r4)).
  assert (H5 : Device.currentLedState (state_of r5)
               = Device.currentLedState d).
  { subst r5.
    rewrite (proj2 (proj2 (proj2 (proj2
               (block_keeps_led st now None (state_of r4)))))).
    subst r4.
    rewrite (proj1 (proj2 (proj2 (proj2
               (block_keeps_led st now None (state_of r3)))))).
    subst r3.
    rewrite (proj1 (proj2 (proj2
               (block_keeps_led st now None (state_of r2))))).
    subst r2.
    rewrite (proj1 (proj2
               (block_keeps_led st now (value_of r1) (state_of r1)))).
    subst r1. apply (block_keeps_led st now None d). }
  rewrite <- H5. unfold Device.update_led.
  destruct (led st); reflexivity.
Qed.

(** X14.  An update with an [led] fragment shows the LED mode by its name
    (ids 1, 2 and 3; any other id shows as [blinking]), writes [dim] as the
    reported intensity over 100, and records the fragment.  Choosing the
    shown name again then sends a command with that mode id, the reported
    intensity and [ledEnable: true]: for the ids 1 to 3 the robot's own mode
    goes back, for any other id mode 1 does; [setLed] with the shown name
    sends the same mode with the brightness it is given.  An update without
    the fragment leaves the recorded LED state as it was. *)
Theorem led_mode_round_trip
        (now : Z) (st : ReportedState) (d : Device.DolphinDevice) :
  let r := Device.onStateUpdate now st d in
  match led st with
  | Some l =>
      let shown := default "blinking" (LED_MODES (ledMode l)) in
      Device.written "led_mode" (trace_of r) = [Device.Text shown]
      /\ Device.written "dim" (trace_of r)
         = [Device.Ratio (ledIntensity l) 100]
      /\ Device.currentLedState (state_of r) = l
      /\ Led.onCapabilityLedMode shown (state_of r)
         = Cloud.sendCommand
             (JSON.Object
                [("led",
                  JSON.Object
                    [("ledEnable", JSON.Bool true);
                     ("ledIntensity", JSON.Number (ledIntensity l));
                     ("ledMode",
                      JSON.Number
                        (if (1 <=? ledMode l) && (ledMode l <=? 3)
                         then ledMode l else 1))])])
      /\ (forall brightness : Z,
             Led.setLed shown brightness
             = Cloud.sendCommand
                 (JSON.Object
                    [("led",
                      JSON.Object
                        [("ledEnable", JSON.Bool true);
                         ("ledIntensity", JSON.Number brightness);
                         ("ledMode",
                          JSON.Number
                            (if (1 <=? ledMode l) && (ledMode l <=? 3)
                             then ledMode l else 1))])]))
  | None =>
      Device.written "led_mode" (trace_of r) = []
      /\ Device.written "dim" (trace_of r) = []
      /\ Device.currentLedState (state_of r) = Device.currentLedState d
  end.
Proof.
  cbv zeta.
  rewrite (led_blocks "led_mode" now st d d) by tauto.
  rewrite (led_blocks "dim" now st d d) by tauto.
  unfold Led.onCapabilityLedMode. rewrite onStateUpdate_currentLedState.
  unfold Device.update_led.
  destruct (led st) as [l|]; [|repeat split].
  cbn [default].
  split; [reflexivity|]. split; [reflexivity|]. split; [reflexivity|].
  unfold Led.setLed, LED_MODES, Led.ledMode_member.
  destruct (ledMode l =? 1) eqn:H1.
  { apply Z.eqb_eq in H1. rewrite H1. split; reflexivity. }
  destruct (ledMode l =? 2) eqn:H2.
  { apply Z.eqb_eq in H2. rewrite H2. split; reflexivity. }
  destruct (ledMode l =? 3) eqn:H3.
  { apply Z.eqb_eq in H3. rewrite H3. split; reflexivity. }
  apply Z.eqb_neq in H1, H2, H3.
  replace ((1 <=? ledMode l) && (ledMode l <=? 3)) with false
    by (symmetry; apply andb_false_iff;
        destruct (Z.leb_spec 1 (ledMode l)); [right|left; reflexivity];
        apply Z.leb_gt; lia).
  split; reflexivity.
Qed.

(** X15.  The condition card [is_cleaning] reads the capability
    [cleaning_mode], not the status: after an update it holds exactly when
    the mode last written is not ['off'].  An update that names a mode other
    than ['pickup'] therefore sets it (to true unless the mode is ['off']),
    whatever status the same update reports; any other update leaves it as
    it was; and it is false on a device that never received a mode. *)
Theorem is_cleaning_reads_cleaning_mode
        (now : Z) (st : ReportedState) (d : Device.DolphinDevice) :
  Driver.is_cleaning (state_of (Device.onStateUpdate now st d))
  = match Device.reported_mode st with
    | Some m =>
        if JS.truthy m && (m !== "pickup") then m !== "off"
        else Driver.is_cleaning d
    | None => Driver.is_cleaning d
    end
  /\ Driver.is_cleaning Device.initial = false.
Proof.
  split; [|reflexivity].
  unfold Driver.is_cleaning.
  pose proof (replays_onStateUpdate now st d) as Hstore.
  rewrite Hstore, replay_lookup.
  destruct (onStateUpdate_written now st d) as (_ & _ & Hm).
  cbv zeta in Hm. rewrite Hm. clear Hm.
  unfold Device.reported_mode.
  destruct (cycleInfo st) as [ci|] eqn:Hci.
  - destruct (cleaningMode ci) as [cm|] eqn:Hcm.
    + rewrite (update_cycleInfo_mode now st ci cm _ _ Hci Hcm).
      destruct (JS.truthy (mode cm) && (mode cm !== "pickup"));
        [|reflexivity].
      cbn [last]. rewrite andb_true_r. reflexivity.
    + unfold Device.update_cycleInfo. rewrite Hci, Hcm. reflexivity.
  - unfold Device.update_cycleInfo. rewrite Hci. reflexivity.
Qed.

(** ** Device: the timers *)

Lemma pending_of_without (cb : Timers.Callback) (i : nat)
      (l : list Timers.Timer) :
  Timers.pending_of cb (Timers.without i l)
  = Timers.without i (Timers.pending_of cb l).
Proof.
  unfold Timers.pending_of, Timers.without.
  induction l as [|t l IH]; [reflexivity|]. cbn [List.filter].
  destruct (negb (Nat.eqb (Timers.id t) i)) eqn:Hi;
    destruct (Timers.Callback_eqb (Timers.callback t) cb) eqn:Hc;
    cbn [List.filter]; rewrite ?Hi, ?Hc, IH; reflexivity.
Qed.

Lemma pending_of_app (cb : Timers.Callback) (l1 l2 : list Timers.Timer) :
  Timers.pending_of cb (l1 ++ l2)%list
  = (Timers.pending_of cb l1 ++ Timers.pending_of cb l2)%list.
Proof. apply List.filter_app. Qed.

Lemma one_held_without (i : nat) (l : list Timers.Timer) (f : option nat) :
  one_held l f -> one_held (Timers.without i l) f.
Proof.
  intros [->|(t & -> & Hf)]; [left; reflexivity|].
  unfold Timers.without. cbn [List.filter].
  destruct (negb (Nat.eqb (Timers.id t) i)).
  - right. exists t. split; [reflexivity|exact Hf].
  - left. reflexivity.
Qed.

Lemma one_held_cleared (l : list Timers.Timer) (f : option nat) :
  one_held l f ->
  match f with
  | Some i => Timers.without i l
  | None => l
  end = [].
Proof.
  intros [->|(t & -> & ->)].
  - destruct f; reflexivity.
  - unfold Timers.without. cbn [List.filter]. rewrite Nat.eqb_refl.
    reflexivity.
Qed.

Lemma one_held_anything (l : list Timers.Timer) (f g : option nat) :
  one_held l f ->
  one_held match g with
           | Some i => Timers.without i l
           | None => l
           end f.
Proof.
  intros H. destruct g; [apply one_held_without|]; exact H.
Qed.

Lemma timers_held_fields (s : Timers.State) :
  timers_held s <->
  one_held (Timers.pending_of Timers.refreshCredentials (Timers.pending s))
           (Timers.credentialRefreshTimer s)
  /\ one_held (Timers.pending_of Timers.refreshState (Timers.pending s))
              (Timers.stateRefreshTimer s)
  /\ one_held (Timers.pending_of Timers.reconnect (Timers.pending s))
              (Timers.reconnectTimer s).
Proof.
  split.
  - intros H. repeat split.
    + exact (H Timers.refreshCredentials).
    + exact (H Timers.refreshState).
    + exact (H Timers.reconnect).
  - intros (H1 & H2 & H3) cb. destruct cb; assumption.
Qed.

Lemma pending_of_cleared (cb : Timers.Callback) (f : option nat)
      (s : Timers.State) :
  Timers.pending_of cb (Timers.pending (Timers.clear_if_set f s))
  = match f with
    | Some i => Timers.without i (Timers.pending_of cb (Timers.pending s))
    | None => Timers.pending_of cb (Timers.pending s)
    end.
Proof.
  destruct f; [apply pending_of_without|reflexivity].
Qed.

Lemma without_of_nil (i : nat) (l : list Timers.Timer) :
  l = [] -> Timers.without i l = [].
Proof. intros ->. reflexivity. Qed.

Lemma without_nested (i j : nat) (l : list Timers.Timer) :
  Timers.without i l = [] -> Timers.without i (Timers.without j l) = [].
Proof.
  unfold Timers.without. induction l as [|t l IH]; [reflexivity|].
  cbn [List.filter].
  destruct (negb (Nat.eqb (Timers.id t) i)) eqn:Hi; [discriminate|].
  intros H. destruct (negb (Nat.eqb (Timers.id t) j)); cbn [List.filter];
    rewrite ?Hi; exact (IH H).
Qed.

Lemma pending_of_clearTimers (s : Timers.State) :
  timers_held s ->
  forall cb, Timers.pending_of cb (Timers.pending (Timers.clearTimers s)) = [].
Proof.
  intros H. rewrite timers_held_fields in H. destruct H as (H1 & H2 & H3).
  destruct s as [c1 c2 c3 p n].
  cbn [Timers.pending Timers.credentialRefreshTimer
       Timers.stateRefreshTimer Timers.reconnectTimer] in H1, H2, H3.
  pose proof (one_held_cleared _ _ H1) as E1.
  pose proof (one_held_cleared _ _ H2) as E2.
  pose proof (one_held_cleared _ _ H3) as E3.
  intros cb. unfold Timers.clearTimers, Timers.clearTimeout.
  destruct cb; destruct c1 as [i1|], c2 as [i2|], c3 as [i3|];
    cbn [Timers.pending Timers.credentialRefreshTimer
         Timers.stateRefreshTimer Timers.reconnectTimer];
    rewrite ?pending_of_without;
    eauto 6 using without_of_nil, without_nested.
Qed.

Lemma step_keeps_timers_held (sig : Timers.Signal) (s : Timers.State) :
  timers_held s -> timers_held (Timers.step sig s).
Proof.
  rewrite !timers_held_fields. intros (H1 & H2 & H3).
  destruct sig as [| | | |i]; cbn [Timers.step].
  - unfold Timers.scheduleCredentialRefresh, Timers.setTimeout.
    cbn [Timers.pending Timers.credentialRefreshTimer
         Timers.stateRefreshTimer Timers.reconnectTimer].
    rewrite !pending_of_app, !pending_of_cleared.
    rewrite (one_held_cleared _ _ H1).
    repeat split.
    + right. eexists. split; reflexivity.
    + cbn [Timers.pending_of List.filter Timers.callback Timers.Callback_eqb].
      rewrite app_nil_r.
      destruct s as [c1 c2 c3 p n]; destruct c1; cbn in *;
        [apply one_held_without|]; exact H2.
    + cbn [Timers.pending_of List.filter Timers.callback Timers.Callback_eqb].
      rewrite app_nil_r.
      destruct s as [c1 c2 c3 p n]; destruct c1; cbn in *;
        [apply one_held_without|]; exact H3.
  - unfold Timers.scheduleStateRefresh, Timers.setTimeout.
    cbn [Timers.pending Timers.credentialRefreshTimer
         Timers.stateRefreshTimer Timers.reconnectTimer].
    rewrite !pending_of_app, !pending_of_cleared.
    rewrite (one_held_cleared _ _ H2).
    repeat split.
    + cbn [Timers.pending_of List.filter Timers.callback Timers.Callback_eqb].
      rewrite app_nil_r.
      destruct s as [c1 c2 c3 p n]; destruct c2; cbn in *;
        [apply one_held_without|]; exact H1.
    + right. eexists. split; reflexivity.
    + cbn [Timers.pending_of List.filter Timers.callback Timers.Callback_eqb].
      rewrite app_nil_r.
      destruct s as [c1 c2 c3 p n]; destruct c2; cbn in *;
        [apply one_held_without|]; exact H3.
  - unfold Timers.scheduleReconnect, Timers.setTimeout.
    cbn [Timers.pending Timers.credentialRefreshTimer
         Timers.stateRefreshTimer Timers.reconnectTimer].
    rewrite !pending_of_app, !pending_of_cleared.
    rewrite (one_held_cleared _ _ H3).
    repeat split.
    + cbn [Timers.pending_of List.filter Timers.callback Timers.Callback_eqb].
      rewrite app_nil_r.
      destruct s as [c1 c2 c3 p n]; destruct c3; cbn in *;
        [apply one_held_without|]; exact H1.
    + cbn [Timers.pending_of List.filter Timers.callback Timers.Callback_eqb].
      rewrite app_nil_r.
      destruct s as [c1 c2 c3 p n]; destruct c3; cbn in *;
        [apply one_held_without|]; exact H2.
    + right. eexists. split; reflexivity.
  - assert (H : timers_held s)
      by (apply timers_held_fields; repeat split; assumption).
    rewrite !(pending_of_clearTimers s H). repeat split; left; reflexivity.
  - unfold Timers.fire, Timers.clearTimeout.
    cbn [Timers.pending Timers.credentialRefreshTimer
         Timers.stateRefreshTimer Timers.reconnectTimer].
    rewrite !pending_of_without.
    repeat split; apply one_held_without; assumption.
Qed.

Lemma run_keeps_timers_held (sigs : list Timers.Signal) (s : Timers.State) :
  timers_held s -> timers_held (Timers.run sigs s).
Proof.
  revert s. induction sigs as [|sig sigs IH]; intros s H; [exact H|].
  cbn [Timers.run fold_left]. apply IH, step_keeps_timers_held, H.
Qed.

Lemma no_pending_of_any (l : list Timers.Timer) :
  (forall cb, Timers.pending_of cb l = []) -> l = [].
Proof.
  destruct l as [|t l]; [reflexivity|]. intros H.
  specialize (H (Timers.callback t)). unfold Timers.pending_of in H.
  cbn [List.filter] in H.
  replace (Timers.Callback_eqb (Timers.callback t) (Timers.callback t))
    with true in H by (destruct (Timers.callback t); reflexivity).
  discriminate.
Qed.

Lemma clearTimers_clears (s : Timers.State) :
  timers_held s ->
  Timers.pending (Timers.clearTimers s) = []
  /\ forall cb, Timers.field cb (Timers.clearTimers s) = None.
Proof.
  intros H. split.
  - apply no_pending_of_any, pending_of_clearTimers, H.
  - intros cb. destruct s as [c1 c2 c3 p n].
    destruct cb; destruct c1, c2, c3; reflexivity.
Qed.

(** X16.  However the four timer methods are called and whichever timers
    fire in between, starting from a device with no timer: of each of the
    three callbacks at most one timer is pending, every pending timer is
    the one held in the field of its callback, and [clearTimers] then leaves
    no timer pending and the three fields empty.  In particular a
    [schedule...] method called again replaces its timer rather than adding
    one. *)
Theorem timers_never_pile_up (sigs : list Timers.Signal) :
  let s := Timers.run sigs Timers.initial in
  (forall cb : Timers.Callback,
      (List.length (Timers.pending_of cb (Timers.pending s)) <= 1)%nat)
  /\ (forall t : Timers.Timer,
         In t (Timers.pending s) ->
         Timers.field (Timers.callback t) s = Some (Timers.id t))
  /\ Timers.pending (Timers.clearTimers s) = []
  /\ (forall cb : Timers.Callback,
         Timers.field cb (Timers.clearTimers s) = None).
Proof.
  intros s.
  assert (H : timers_held s).
  { apply run_keeps_timers_held. intros cb. left. reflexivity. }
  split; [|split; [|apply clearTimers_clears, H]].
  - intros cb. destruct (H cb) as [->|(t & -> & _)]; cbn; lia.
  - intros t Hin.
    assert (Hof : In t (Timers.pending_of (Timers.callback t)
                          (Timers.pending s))).
    { apply List.filter_In. split; [exact Hin|].
      destruct (Timers.callback t); reflexivity. }
    destruct (H (Timers.callback t)) as [He|(t' & He & Hf)];
      rewrite He in Hof.
    + destruct Hof.
    + destruct Hof as [->|[]]. exact Hf.
Qed.

Lemma timers_never_pile_up_witness :
  let s :=
    Timers.run [Timers.ScheduleReconnect; Timers.ScheduleReconnect;
                Timers.ScheduleStateRefresh] Timers.initial in
  Timers.field Timers.reconnect s = Some 1%nat.
Proof.
  intros s.
  exact (proj1 (proj2
           (timers_never_pile_up
              [Timers.ScheduleReconnect; Timers.ScheduleReconnect;
               Timers.ScheduleStateRefresh]))
           {| Timers.id := 1; Timers.callback := Timers.reconnect;
              Timers.delay := RECONNECT_DELAY |}
           (or_introl eq_refl)).
Defined.

(** ** REST client: the encrypted serial *)

Lemma includes_char (c : ascii) (s : string) :
  JSText.includes (String c EmptyString) s
  = negb (all_chars (not_char c) s).
Proof.
  induction s as [|x s IH]; [reflexivity|].
  rewrite includes_cons, IH, prefix_cons. cbn [all_chars]. unfold not_char.
  destruct (ascii_dec c x) as [->|Hne].
  - rewrite Ascii.eqb_refl. destruct s; reflexivity.
  - replace (Ascii.eqb x c) with false
      by (symmetry; apply Ascii.eqb_neq; congruence).
    reflexivity.
Qed.

Lemma replace_plus_no_plus (s : string) :
  all_chars (not_char "+") (Api.replace_plus s) = true.
Proof.
  induction s as [|c s IH]; [reflexivity|]. cbn [Api.replace_plus].
  destruct (Ascii.eqb c "+") eqn:Hc.
  - change ("%2B" ++ Api.replace_plus s)
      with (String "%" (String "2" (String "B" (Api.replace_plus s)))).
    cbn [all_chars]. rewrite IH. reflexivity.
  - cbn [all_chars]. unfold not_char at 1. rewrite Hc, IH. reflexivity.
Qed.

Lemma replace_plus_id (s : string) :
  all_chars (not_char "+") s = true -> Api.replace_plus s = s.
Proof.
  induction s as [|c s IH]; [reflexivity|]. cbn [all_chars Api.replace_plus].
  intros H. apply andb_prop in H as [Hc Hs].
  unfold not_char in Hc. apply negb_true_iff in Hc. rewrite Hc, (IH Hs).
  reflexivity.
Qed.

Section Retry.
Variable candidate : string -> string -> nat -> string.
Variables email motorUnitSerial : string.

Lemma retry_some (remaining i : nat) (result : string) :
  Api.retry candidate email motorUnitSerial remaining i = Some result ->
  JSText.includes "+" result = false.
Proof using Type.
  revert i. induction remaining as [|n IH]; intros i; [discriminate|].
  cbn [Api.retry].
  destruct (JSText.includes "+" (candidate email motorUnitSerial i)) eqn:Hi;
    cbn [negb].
  - apply IH.
  - intros [= <-]. exact Hi.
Qed.

Lemma retry_first (remaining i k : nat) :
  (k < remaining)%nat ->
  (forall j, (j < k)%nat ->
        JSText.includes "+" (candidate email motorUnitSerial (i + j)) = true) ->
  JSText.includes "+" (candidate email motorUnitSerial (i + k)) = false ->
  Api.retry candidate email motorUnitSerial remaining i
  = Some (candidate email motorUnitSerial (i + k)).
Proof using Type.
  revert i k. induction remaining as [|n IH]; intros i k Hk Hbefore Hat;
    [lia|].
  cbn [Api.retry]. destruct k as [|k].
  - rewrite Nat.add_0_r in Hat. rewrite Hat. cbn [negb].
    rewrite Nat.add_0_r. reflexivity.
  - pose proof (Hbefore 0%nat ltac:(lia)) as H0.
    rewrite Nat.add_0_r in H0. rewrite H0. cbn [negb].
    replace (i + S k)%nat with (S i + k)%nat in * by lia.
    apply IH; [lia| |exact Hat].
    intros j Hj. replace (S i + j)%nat with (i + S j)%nat by lia.
    apply Hbefore. lia.
Qed.

Lemma retry_none (remaining i : nat) :
  (forall j, (j < remaining)%nat ->
        JSText.includes "+" (candidate email motorUnitSerial (i + j)) = true) ->
  Api.retry candidate email motorUnitSerial remaining i = None.
Proof using Type.
  revert i. induction remaining as [|n IH]; intros i H; [reflexivity|].
  cbn [Api.retry].
  pose proof (H 0%nat ltac:(lia)) as H0. rewrite Nat.add_0_r in H0.
  rewrite H0. cbn [negb]. apply IH.
  intros j Hj. replace (S i + j)%nat with (i + S j)%nat by lia.
  apply H. lia.
Qed.
End Retry.

(** X17.  Whatever the cipher and the random vectors give, the text that
    [encryptMotorUnitSerial] returns has no ['+'] in it.  It is the text of
    the first of the twenty passes whose text has none, unchanged; and when
    all twenty have one, it is the text of a twenty-first pass with every
    ['+'] replaced by ['%2B']. *)
Theorem encryptMotorUnitSerial_has_no_plus
        (candidate : string -> string -> nat -> string)
        (email motorUnitSerial : string) :
  let result := Api.encryptMotorUnitSerial candidate email motorUnitSerial in
  JSText.includes "+" result = false
  /\ (forall k : nat,
         (k < 20)%nat ->
         (forall j, (j < k)%nat ->
               JSText.includes "+" (candidate email motorUnitSerial j) = true) ->
         JSText.includes "+" (candidate email motorUnitSerial k) = false ->
         result = candidate email motorUnitSerial k)
  /\ ((forall j, (j < 20)%nat ->
             JSText.includes "+" (candidate email motorUnitSerial j) = true) ->
      result = Api.replace_plus (candidate email motorUnitSerial 20%nat)).
Proof.
  cbv zeta. unfold Api.encryptMotorUnitSerial. split; [|split].
  - destruct (Api.retry candidate email motorUnitSerial 20 0) as [r|] eqn:Hr.
    + exact (retry_some candidate email motorUnitSerial 20 0 r Hr).
    + rewrite includes_char, replace_plus_no_plus. reflexivity.
  - intros k Hk Hbefore Hat.
    rewrite (retry_first candidate email motorUnitSerial 20 0 k Hk Hbefore Hat).
    reflexivity.
  - intros Hall.
    rewrite (retry_none candidate email motorUnitSerial 20 0 Hall).
    reflexivity.
Qed.

Lemma encryptMotorUnitSerial_has_no_plus_witness :
  let candidate := fun (_ _ : string) (n : nat) =>
                     if (n <? 2)%nat then "a+b" else "ab/c=" in
  Api.encryptMotorUnitSerial candidate "me@example.com" "D1" = "ab/c=".
Proof.
  intros candidate.
  refine (proj1 (proj2 (encryptMotorUnitSerial_has_no_plus candidate
                          "me@example.com" "D1")) 2%nat _ _ eq_refl).
  - lia.
  - intros j Hj. destruct j as [|[|j]]; [reflexivity|reflexivity|lia].
Defined.

(** ** Request signer: the timestamp *)

(** The years of the instants from 1970-01-01 to 9999-12-31. *)
Lemma civil_year_bounds (days : Z) :
  0 <= days < 2932897 ->
  1970 <= fst (fst (JS.civil_from_days days)) <= 9999.
Proof.
  intros H. unfold JS.civil_from_days. cbv zeta. cbn [fst].
  match goal with
  | |- context [?x <? 10] => destruct (Z.ltb_spec x 10)
  end;
    match goal with
    | |- context [?a <=? 2] => destruct (Z.leb_spec a 2)
    end;
    Z.div_mod_to_equations; lia.
Qed.

Lemma length_digits (w : nat) (x : Z) : String.length (JS.digits w x) = w.
Proof.
  revert x. induction w as [|w IH]; intros x; [reflexivity|].
  cbn [JS.digits]. rewrite length_append, IH. cbn [String.length]. lia.
Qed.

Lemma remove_colon_hyphen_app (a b : string) :
  remove_colon_hyphen (a ++ b)
  = remove_colon_hyphen a ++ remove_colon_hyphen b.
Proof.
  induction a as [|c a IH]; [reflexivity|].
  change (String c a ++ b) with (String c (a ++ b)).
  cbn [remove_colon_hyphen].
  destruct (Ascii.eqb c ":" || Ascii.eqb c "-"); [exact IH|].
  change (String c (remove_colon_hyphen a) ++ remove_colon_hyphen b)
    with (String c (remove_colon_hyphen a ++ remove_colon_hyphen b)).
  rewrite IH. reflexivity.
Qed.

Lemma remove_colon_hyphen_digits (s : string) :
  all_chars JS.is_digit s = true -> remove_colon_hyphen s = s.
Proof.
  induction s as [|c s IH]; [reflexivity|]. cbn [all_chars remove_colon_hyphen].
  intros H. apply andb_prop in H as [Hc Hs]. rewrite (IH Hs).
  replace (Ascii.eqb c ":" || Ascii.eqb c "-") with false; [reflexivity|].
  destruct (Ascii.eqb_spec c ":") as [->|_]; [discriminate|].
  destruct (Ascii.eqb_spec c "-") as [->|_]; [discriminate|reflexivity].
Qed.

Lemma slice0_app_exact (n : nat) (a b : string) :
  String.length a = n -> JS.slice0 n (a ++ b) = a.
Proof.
  intros <-. unfold JS.slice0. induction a as [|c a IH].
  - destruct b; reflexivity.
  - change (String c a ++ b) with (String c (a ++ b)).
    cbn [String.length substring]. rewrite IH. reflexivity.
Qed.

(** The stripped timestamp of an instant whose year has four digits. *)
Lemma stripped_timestamp (now : Z) :
  0 <= now < 253402300800000 ->
  let '(y, m, d) := JS.civil_from_days (now / 86400000) in
  let r := (now / 1000) mod 86400 in
  SigV4Steps.dateStamp now = JS.digits 4 y ++ JS.digits 2 m ++ JS.digits 2 d
  /\ SigV4Steps.amzDate now
     = (JS.digits 4 y ++ JS.digits 2 m ++ JS.digits 2 d) ++ "T"
       ++ JS.digits 2 (r / 3600) ++ JS.digits 2 (r / 60 mod 60)
       ++ JS.digits 2 (r mod 60) ++ "Z".
Proof.
  intros Hnow.
  assert (Hdays : 0 <= now / 86400000 < 2932897)
    by (Z.div_mod_to_equations; lia).
  pose proof (civil_year_bounds _ Hdays) as Hy.
  unfold SigV4Steps.dateStamp, SigV4Steps.amzDate.
  rewrite strip_toISOString. unfold iso_seconds.
  replace (now / 1000 / 86400) with (now / 86400000)
    by (rewrite Z.div_div by lia; reflexivity).
  destruct (JS.civil_from_days (now / 86400000)) as [[y m] d].
  cbn [fst] in Hy. cbv zeta.
  unfold JS.year_string.
  replace ((0 <=? y) && (y <=? 9999)) with true
    by (symmetry; apply andb_true_iff; split; apply Z.leb_le; lia).
  set (r := (now / 1000) mod 86400).
  rewrite !remove_colon_hyphen_app.
  rewrite !(remove_colon_hyphen_digits _ (digits_are_digits _ _)).
  change (remove_colon_hyphen "-") with EmptyString.
  change (remove_colon_hyphen ":") with EmptyString.
  change (remove_colon_hyphen "T") with "T".
  assert (E0 : forall x : string, EmptyString ++ x = x) by reflexivity.
  assert (ET : forall x : string, "T" ++ x = String "T" x) by reflexivity.
  rewrite !E0, ET. clear E0 ET.
  set (D := JS.digits 4 y ++ JS.digits 2 m ++ JS.digits 2 d).
  set (tail := JS.digits 2 (r / 3600) ++ JS.digits 2 (r / 60 mod 60)
               ++ JS.digits 2 (r mod 60)).
  assert (HD : String.length D = 8%nat)
    by (subst D; rewrite !length_append, !length_digits; reflexivity).
  assert (Htail : String.length tail = 6%nat)
    by (subst tail; rewrite !length_append, !length_digits; reflexivity).
  assert (Hshape :
            JS.digits 4 y ++ JS.digits 2 m ++ JS.digits 2 d
            ++ String "T" tail
            = D ++ String "T" tail).
  { subst D. rewrite !append_assoc. reflexivity. }
  rewrite Hshape. split.
  - rewrite append_assoc. apply slice0_app_exact, HD.
  - rewrite slice0_app_exact.
    + subst tail. rewrite !append_assoc. reflexivity.
    + rewrite length_append. cbn [String.length]. rewrite HD, Htail.
      reflexivity.
Qed.

Lemma digit_is_unreserved (c : ascii) :
  JS.is_digit c = true -> JS.is_unreserved c = true.
Proof.
  intros H. unfold JS.is_unreserved. rewrite H.
  rewrite orb_true_r. reflexivity.
Qed.

Lemma encodeURIComponent_unreserved (s : string) :
  all_chars JS.is_unreserved s = true -> JS.encodeURIComponent s = s.
Proof.
  induction s as [|c s IH]; [reflexivity|].
  cbn [all_chars JS.encodeURIComponent]. intros H.
  apply andb_prop in H as [Hc Hs]. rewrite Hc, (IH Hs). reflexivity.
Qed.

Lemma amzDate_unreserved (now : Z) :
  0 <= now < 253402300800000 ->
  all_chars JS.is_unreserved (SigV4Steps.amzDate now) = true.
Proof.
  intros Hnow. pose proof (stripped_timestamp now Hnow) as H.
  destruct (JS.civil_from_days (now / 86400000)) as [[y m] d].
  cbv zeta in H. destruct H as [_ ->].
  repeat rewrite all_chars_app.
  repeat rewrite (all_chars_weaken JS.is_digit JS.is_unreserved _
                    digit_is_unreserved (digits_are_digits _ _)).
  reflexivity.
Qed.

(** X18.  For every instant from 1970-01-01 to the end of the year 9999,
    the [X-Amz-Date] value has the form [YYYYMMDDTHHMMSSZ] (sixteen
    characters, digits but for the [T] and the [Z]), and the date stamp of
    the credential scope is its first eight characters.  At the first
    instant of the year 10000 the value no longer has that form. *)
Theorem amzDate_is_basic_timestamp (now : Z) :
  0 <= now < 253402300800000 ->
  is_basic_timestamp (SigV4Steps.amzDate now) = true
  /\ String.length (SigV4Steps.amzDate now) = 16%nat
  /\ SigV4Steps.dateStamp now = JS.slice0 8 (SigV4Steps.amzDate now)
  /\ is_basic_timestamp (SigV4Steps.amzDate 253402300800000) = false.
Proof.
  intros Hnow. pose proof (stripped_timestamp now Hnow) as H.
  destruct (JS.civil_from_days (now / 86400000)) as [[y m] d].
  cbv zeta in H. destruct H as [Hd Ha]. rewrite Ha, Hd.
  set (r := (now / 1000) mod 86400).
  split; [|split; [|split]].
  - unfold is_basic_timestamp.
    cbv beta iota delta [JS.digits String.append list_ascii_of_string].
    cbn [forallb]. rewrite !decimal_digit_is_digit. reflexivity.
  - rewrite !length_append, !length_digits. reflexivity.
  - symmetry. apply slice0_app_exact.
    rewrite !length_append, !length_digits. reflexivity.
  - vm_compute. reflexivity.
Qed.

Lemma amzDate_is_basic_timestamp_witness :
  SigV4Steps.amzDate 1704164645123 = "20240102T030405Z"
  /\ is_basic_timestamp (SigV4Steps.amzDate 1704164645123) = true.
Proof.
  split; [reflexivity|].
  exact (proj1 (amzDate_is_basic_timestamp 1704164645123
                  ltac:(split; [discriminate|reflexivity]))).
Defined.

(** X19.  When the credentials carry no session token and the instant lies
    between 1970-01-01 and the end of the year 9999, the two revisions of
    the signer return the same URL: they differ only in what they do with
    the token. *)
Theorem revisions_agree_without_token
        (endpoint region : string) (credentials : AwsCredentials) (now : Z) :
  Token credentials = EmptyString ->
  0 <= now < 253402300800000 ->
  SigV4Sorted.canonicalQueryString region credentials now
  = SigV4.canonicalQueryString region credentials now
  /\ SigV4Sorted.signWebSocketUrl endpoint region credentials now
     = SigV4.signWebSocketUrl endpoint region credentials now.
Proof.
  intros Htoken Hnow.
  assert (Hq : SigV4Sorted.canonicalQueryString region credentials now
               = SigV4.canonicalQueryString region credentials now).
  { unfold SigV4Sorted.canonicalQueryString, SigV4Sorted.queryParams,
      SigV4.canonicalQueryString.
    rewrite Htoken. cbn [JS.truthy String.eqb negb].
    rewrite <- (encodeURIComponent_unreserved _ (amzDate_unreserved now Hnow))
      at 2.
    generalize (AccessKeyId credentials ++ "/"
                ++ SigV4Steps.credentialScope region now).
    generalize (SigV4Steps.amzDate now). intros date cred. reflexivity. }
  split; [exact Hq|].
  unfold SigV4Sorted.signWebSocketUrl, SigV4.signWebSocketUrl.
  rewrite Hq, Htoken. reflexivity.
Qed.

Lemma revisions_agree_without_token_witness :
  let c := {| Token := EmptyString; AccessKeyId := "AKIA";
              SecretAccessKey := "s" |} in
  SigV4Sorted.canonicalQueryString AWS_REGION c 1704164645123
  = SigV4.canonicalQueryString AWS_REGION c 1704164645123.
Proof.
  intros c.
  exact (proj1 (revisions_agree_without_token AWS_IOT_ENDPOINT AWS_REGION c
                  1704164645123 eq_refl
                  ltac:(split; [discriminate|reflexivity]))).
Defined.

(** ** Shadow session: a connection attempt that fails *)

(** X21.  When the client reports an error before it has connected, the
    promise of [connect] is rejected with that error and one [error]
    notification is emitted, but the session keeps the client: the handle,
    the flag and the transport are as before, and nothing is ended.  When
    the 30 s safety timer fires instead, the client held is ended, the
    handle is cleared and the promise is rejected with the time-out
    message; the flag is left as it was. *)
Theorem failed_connect_outcomes
        (signWebSocketUrl : string -> string -> AwsCredentials -> Z -> string)
        (s : Cloud.State) (c : Cloud.ClientId) :
  Cloud.client (Cloud.session s) = Some c ->
  let outcome :=
    List.filter
      (fun e => match e with
                | Cloud.Emit _ | Cloud.Resolve | Cloud.Reject _
                | Cloud.Thrown _ | Cloud.MqttEnd _ | Cloud.MqttConnect _ _ _ =>
                    true
                | _ => false
                end) in
  (forall message : string,
      let r := Cloud.step signWebSocketUrl
                 (Cloud.TransportFirstError message) s in
      state_of r = s
      /\ outcome (trace_of r)
         = [Cloud.Reject message; Cloud.Emit (Cloud.error message)])
  /\ (let r := Cloud.step signWebSocketUrl Cloud.TransportTimeout s in
      Cloud.client (Cloud.session (state_of r)) = None
      /\ Cloud._connected (Cloud.session (state_of r))
         = Cloud._connected (Cloud.session s)
      /\ Cloud.live (state_of r)
         = List.filter (fun c' => negb (Nat.eqb c' c)) (Cloud.live s)
      /\ outcome (trace_of r)
         = [Cloud.MqttEnd c;
            Cloud.Reject "MQTT connection timed out after 30 seconds"]).
Proof.
  intros Hc outcome. subst outcome.
  destruct s as [[cl ms cn] lv cr]. cbn in Hc. subst cl.
  split.
  - intros message. split; reflexivity.
  - repeat split.
Qed.

Lemma failed_connect_outcomes_witness :
  let s :=
    {| Cloud.session := {| Cloud.client := Some 0%nat;
                           Cloud.motorUnitSerial := "D1";
                           Cloud._connected := false |};
       Cloud.live := [0%nat]; Cloud.created := 1 |} in
  state_of (Cloud.step (fun _ _ _ _ => "wss://signed")
              (Cloud.TransportFirstError "ECONNREFUSED") s) = s.
Proof.
  intros s.
  exact (proj1 (proj1 (failed_connect_outcomes (fun _ _ _ _ => "wss://signed")
                         s 0%nat eq_refl) "ECONNREFUSED")).
Defined.

(** ** Device: connecting, refreshing, reconnecting *)

Lemma schedule_leaves_pending (sig : Timers.Signal) (t : Timers.State) :
  sig = Timers.ScheduleCredentialRefresh \/ sig = Timers.ScheduleStateRefresh
  \/ sig = Timers.ScheduleReconnect ->
  Timers.pending (Timers.step sig t) <> [].
Proof.
  intros [ -> | [ -> | -> ] ]; cbn [Timers.step];
    unfold Timers.scheduleCredentialRefresh, Timers.scheduleStateRefresh,
      Timers.scheduleReconnect, Timers.setTimeout;
    cbn [Timers.pending]; intros H; apply app_eq_nil in H as [_ H];
    discriminate.
Qed.

Lemma rearmed_pending (own : Timers.Signal) (outcome : Lifecycle.Outcome unit)
      (t : Timers.State) :
  own = Timers.ScheduleCredentialRefresh \/ own = Timers.ScheduleStateRefresh
  \/ own = Timers.ScheduleReconnect ->
  Lifecycle.settled outcome = true ->
  Timers.pending (rearmed (Timers.step own) outcome t) <> [].
Proof.
  intros Hown Hs. destruct outcome as [[]|name message|]; [| |discriminate].
  - apply schedule_leaves_pending, Hown.
  - apply (schedule_leaves_pending Timers.ScheduleReconnect). tauto.
Qed.

Lemma rearmed_held (own : Timers.Signal) (outcome : Lifecycle.Outcome unit)
      (t : Timers.State) :
  timers_held t -> timers_held (rearmed (Timers.step own) outcome t).
Proof.
  intros H. destruct outcome as [[]|name message|]; cbn [rearmed].
  - apply step_keeps_timers_held, H.
  - apply (step_keeps_timers_held Timers.ScheduleReconnect), H.
  - exact H.
Qed.

(** Case analysis along [connectToCloud]: the three tests on the
    settings, then the awaited calls in the order they are reached. *)
Ltac connect_cases settings store login credentials connected :=
  unfold Lifecycle.connectToCloud, Lifecycle.connectToCloud_try,
    connect_outcome, Lifecycle.requestTemperatureIfSupported, when;
  destruct (Lifecycle.truthy (Lifecycle.email settings));
  destruct (Lifecycle.truthy (Lifecycle.password settings));
  cbn [negb orb andb]; try reflexivity;
  destruct (Lifecycle.truthy (Lifecycle.motorUnitSerial store));
  cbn [negb orb andb]; try reflexivity;
  destruct login as [[]|?name ?message|]; try reflexivity;
  destruct credentials as [?creds|?name ?message|]; try reflexivity;
  destruct connected as [[]|?name ?message|]; try reflexivity;
  destruct (Lifecycle.robotFamily store) as [?family|]; try reflexivity;
  match goal with
  | |- context [?a === ?b] => destruct (a === b)
  end; reflexivity.

(** X22.  [connectToCloud] ends in one of three ways.  When the settings
    are complete and the three awaited calls (login, credentials, MQTT
    connect) return, it schedules the credential and the state refresh.
    When the email, the password or the device id is missing or empty, or
    one of the calls throws, it marks the device unavailable with the
    message and schedules a reconnect; with incomplete settings it makes no
    call at all.  When an awaited call never settles, nothing is scheduled
    and the device is not marked.  So whenever it finishes a timer is
    pending, and of each callback still at most one. *)
Theorem connectToCloud_rearms
        (settings : Lifecycle.Settings) (store : Lifecycle.Store)
        (login : Lifecycle.Outcome unit)
        (credentials : Lifecycle.Outcome AwsCredentials)
        (connected : Lifecycle.Outcome unit) (d : Lifecycle.Device) :
  let r := Lifecycle.connectToCloud settings store login credentials
             connected d in
  let outcome := connect_outcome settings store login credentials connected in
  Lifecycle.timers (state_of r)
  = rearmed (fun t => Timers.scheduleStateRefresh
                        (Timers.scheduleCredentialRefresh t))
      outcome (Lifecycle.timers d)
  /\ List.filter Lifecycle.is_SetUnavailable (trace_of r)
     = match outcome with
       | Lifecycle.Throws name message =>
           [Lifecycle.SetUnavailable (Lifecycle.message_of name message)]
       | _ => []
       end
  /\ (Lifecycle.truthy (Lifecycle.email settings)
      && Lifecycle.truthy (Lifecycle.password settings)
      && Lifecycle.truthy (Lifecycle.motorUnitSerial store) = false ->
      List.filter Lifecycle.is_call (trace_of r) = [])
  /\ (Lifecycle.settled outcome = true ->
      Timers.pending (Lifecycle.timers (state_of r)) <> [])
  /\ (timers_held (Lifecycle.timers d) ->
      timers_held (Lifecycle.timers (state_of r))).
Proof.
  cbv zeta.
  assert (Ht : Lifecycle.timers
                 (state_of (Lifecycle.connectToCloud settings store login
                              credentials connected d))
               = rearmed (fun t => Timers.scheduleStateRefresh
                                     (Timers.scheduleCredentialRefresh t))
                   (connect_outcome settings store login credentials connected)
                   (Lifecycle.timers d)).
  { connect_cases settings store login credentials connected. }
  split; [exact Ht|]. split; [|split; [|split]].
  - clear Ht. connect_cases settings store login credentials connected.
  - clear Ht. intros Hv.
    unfold Lifecycle.connectToCloud, Lifecycle.connectToCloud_try.
    destruct (Lifecycle.truthy (Lifecycle.email settings));
      destruct (Lifecycle.truthy (Lifecycle.password settings));
      cbn [negb orb andb] in *; try reflexivity.
    rewrite Hv. reflexivity.
  - intros Hs. rewrite Ht.
    destruct (connect_outcome settings store login credentials connected)
      as [[]|name message|]; [| |discriminate].
    + apply (schedule_leaves_pending Timers.ScheduleStateRefresh). tauto.
    + apply (schedule_leaves_pending Timers.ScheduleReconnect). tauto.
  - intros Hh. rewrite Ht.
    destruct (connect_outcome settings store login credentials connected)
      as [[]|name message|]; cbn [rearmed].
    + apply (step_keeps_timers_held Timers.ScheduleStateRefresh).
      apply (step_keeps_timers_held Timers.ScheduleCredentialRefresh), Hh.
    + apply (step_keeps_timers_held Timers.ScheduleReconnect), Hh.
    + exact Hh.
Qed.

Lemma connectToCloud_rearms_witness :
  let settings := {| Lifecycle.email := Some "me@example.com";
                     Lifecycle.password := None |} in
  let store := {| Lifecycle.motorUnitSerial := Some "D1";
                  Lifecycle.robotFamily := Some "M700";
                  Lifecycle.serialNumber := Some "R1" |} in
  let d := {| Lifecycle.timers := Timers.initial;
              Lifecycle.awsCredentials := None |} in
  List.filter Lifecycle.is_call
    (trace_of (Lifecycle.connectToCloud settings store (Lifecycle.Returns tt)
                 Lifecycle.Hangs Lifecycle.Hangs d)) = [].
Proof.
  intros settings store d.
  exact (proj1 (proj2 (proj2
           (connectToCloud_rearms settings store (Lifecycle.Returns tt)
              Lifecycle.Hangs Lifecycle.Hangs d))) eq_refl).
Defined.

(** X23.  Each timer callback arms a timer again when its awaited calls
    settle: the state refresh always schedules itself (and asks for the
    state only while the session is connected), the credential refresh
    schedules itself when both calls return and a reconnect when one
    throws, the reconnect callback does what [connectToCloud] does, and the
    [disconnected] listener marks the device unavailable and schedules a
    reconnect.  Each keeps at most one pending timer per callback, and
    [onUninit] leaves none.  A callback whose awaited call never settles
    schedules nothing. *)
Theorem timer_callbacks_rearm
        (settings : Lifecycle.Settings) (store : Lifecycle.Store)
        (login : Lifecycle.Outcome unit)
        (credentials : Lifecycle.Outcome AwsCredentials)
        (connected : Lifecycle.Outcome unit) (cloud_connected : bool)
        (d : Lifecycle.Device) :
  let after := fun m : Lifecycle.Op unit => Lifecycle.timers (state_of (m d)) in
  let t := Lifecycle.timers d in
  after (Lifecycle.onStateRefreshTimer store cloud_connected)
  = Timers.scheduleStateRefresh t
  /\ (cloud_connected = false ->
      List.filter Lifecycle.is_call
        (trace_of (Lifecycle.onStateRefreshTimer store cloud_connected d)) = [])
  /\ after (Lifecycle.onCredentialRefreshTimer settings store credentials
              connected)
     = rearmed Timers.scheduleCredentialRefresh
         (after_returns credentials connected) t
  /\ after (Lifecycle.onReconnectTimer settings store login credentials
              connected)
     = after (Lifecycle.connectToCloud settings store login credentials
                connected)
  /\ after Lifecycle.onDisconnected = Timers.scheduleReconnect t
  /\ List.filter Lifecycle.is_SetUnavailable
       (trace_of (Lifecycle.onDisconnected d))
     = [Lifecycle.SetUnavailable "Connection lost"]
  /\ (timers_held t ->
      timers_held (after (Lifecycle.onStateRefreshTimer store cloud_connected))
      /\ timers_held
           (after (Lifecycle.onCredentialRefreshTimer settings store
                     credentials connected))
      /\ timers_held (after Lifecycle.onDisconnected)
      /\ Timers.pending (after Lifecycle.onUninit) = []).
Proof.
  cbv zeta.
  assert (Hs : Lifecycle.timers
                 (state_of (Lifecycle.onStateRefreshTimer store
                              cloud_connected d))
               = Timers.scheduleStateRefresh (Lifecycle.timers d)).
  { unfold Lifecycle.onStateRefreshTimer,
      Lifecycle.requestTemperatureIfSupported, when.
    destruct cloud_connected; [|reflexivity].
    destruct (Lifecycle.robotFamily store) as [family|]; [|reflexivity].
    destruct (family === "M700"); reflexivity. }
  assert (Hc : Lifecycle.timers
                 (state_of (Lifecycle.onCredentialRefreshTimer settings store
                              credentials connected d))
               = rearmed Timers.scheduleCredentialRefresh
                   (after_returns credentials connected) (Lifecycle.timers d)).
  { unfold Lifecycle.onCredentialRefreshTimer, Lifecycle.refreshCredentials.
    destruct credentials as [creds|name message|]; try reflexivity.
    destruct connected as [[]|name message|]; reflexivity. }
  split; [exact Hs|]. split; [|split; [exact Hc|split; [|split; [|split]]]].
  - intros ->. unfold Lifecycle.onStateRefreshTimer, when. reflexivity.
  - unfold Lifecycle.onReconnectTimer. rewrite state_of_bind. reflexivity.
  - reflexivity.
  - reflexivity.
  - intros Hh. rewrite Hs, Hc. repeat split.
    + apply (step_keeps_timers_held Timers.ScheduleStateRefresh), Hh.
    + apply (rearmed_held Timers.ScheduleCredentialRefresh), Hh.
    + apply (step_keeps_timers_held Timers.ScheduleReconnect), Hh.
    + apply (clearTimers_clears _ Hh).
Qed.

Lemma timer_callbacks_rearm_witness :
  let store := {| Lifecycle.motorUnitSerial := Some "D1";
                  Lifecycle.robotFamily := Some "M700";
                  Lifecycle.serialNumber := Some "R1" |} in
  let d := {| Lifecycle.timers := Timers.scheduleReconnect Timers.initial;
              Lifecycle.awsCredentials := None |} in
  Timers.pending (Lifecycle.timers (state_of (Lifecycle.onUninit d))) = [].
Proof.
  intros store d.
  refine (proj2 (proj2 (proj2
            (proj2 (proj2 (proj2 (proj2 (proj2 (proj2
               (timer_callbacks_rearm
                  {| Lifecycle.email := None; Lifecycle.password := None |}
                  store Lifecycle.Hangs Lifecycle.Hangs Lifecycle.Hangs false
                  d)))))) _)))).
  apply (step_keeps_timers_held Timers.ScheduleReconnect).
  intros cb. left. reflexivity.
Defined.

(** ** Request signer: the parameters of the URL *)

Lemma split_on_nonempty (sep : ascii) (s : string) :
  Query.split_on sep s <> [].
Proof.
  destruct s as [|c s]; [discriminate|]. rewrite split_on_cons.
  destruct (Ascii.eqb c sep); [discriminate|].
  destruct (Query.split_on sep s); discriminate.
Qed.

Lemma split_on_app (sep : ascii) (a b : string) :
  Query.split_on sep (a ++ String sep b)
  = (Query.split_on sep a ++ Query.split_on sep b)%list.
Proof.
  induction a as [|c a IH].
  - change (EmptyString ++ String sep b) with (String sep b).
    rewrite split_on_cons, Ascii.eqb_refl. reflexivity.
  - change (String c a ++ String sep b) with (String c (a ++ String sep b)).
    rewrite !split_on_cons, IH.
    destruct (Ascii.eqb c sep); [reflexivity|].
    pose proof (split_on_nonempty sep a) as Hne.
    destruct (Query.split_on sep a) as [|w ws]; [congruence|reflexivity].
Qed.

Lemma names_app (a b : string) :
  Query.names (a ++ String "&" b) = (Query.names a ++ Query.names b)%list.
Proof.
  unfold Query.names. rewrite split_on_app, List.map_app. reflexivity.
Qed.

Lemma digest_digit_not_amp (d : Z) : not_char "&" (Crypto.hex_digit d) = true.
Proof.
  unfold Crypto.hex_digit. generalize (Z.to_nat d) as n. intros n.
  do 16 (destruct n as [|n]; [reflexivity|]). destruct n; reflexivity.
Qed.

Lemma hex_no_amp (bs : list Z) :
  all_chars (not_char "&") (Crypto.hex bs) = true.
Proof.
  unfold Crypto.hex. induction bs as [|b bs IH]; [reflexivity|].
  cbn [flat_map List.app string_of_list_ascii all_chars].
  rewrite !digest_digit_not_amp, IH. reflexivity.
Qed.

Lemma names_of_one (name value : string) :
  all_chars (not_char "=") name = true ->
  all_chars (not_char "&") name = true ->
  all_chars (not_char "&") value = true ->
  Query.names (name ++ "=" ++ value) = [name].
Proof.
  intros Hn Ha Hv. unfold Query.names.
  rewrite split_on_no_sep by (rewrite !all_chars_app, Ha, Hv; reflexivity).
  cbn [List.map]. rewrite name_of_param by exact Hn. reflexivity.
Qed.

(** The names of the four signing parameters. *)
Lemma signed_query_names (region : string) (credentials : AwsCredentials)
      (now : Z) :
  Query.names (SigV4.canonicalQueryString region credentials now)
  = ["X-Amz-Algorithm"; "X-Amz-Credential"; "X-Amz-Date";
     "X-Amz-SignedHeaders"].
Proof.
  unfold SigV4.canonicalQueryString. cbn [JS.join String.concat].
  set (cred := JS.encodeURIComponent _).
  change ("X-Amz-Algorithm=AWS4-HMAC-SHA256" ++ "&"
          ++ ("X-Amz-Credential=" ++ cred) ++ "&"
          ++ ("X-Amz-Date=" ++ SigV4Steps.amzDate now) ++ "&"
          ++ "X-Amz-SignedHeaders=host")
    with (("X-Amz-Algorithm" ++ "=" ++ "AWS4-HMAC-SHA256")
          ++ String "&"
               (("X-Amz-Credential" ++ "=" ++ cred)
                ++ String "&"
                     (("X-Amz-Date" ++ "=" ++ SigV4Steps.amzDate now)
                      ++ String "&"
                           ("X-Amz-SignedHeaders" ++ "=" ++ "host")))).
  rewrite !names_app.
  rewrite !names_of_one;
    try reflexivity; [apply amzDate_no_amp|].
  subst cred. apply encodeURIComponent_no_amp.
Qed.

(** X24.  Whatever the access key, the secret and the token contain, the
    URL of the documented revision is [wss://<endpoint>/mqtt?] followed by
    a query with exactly these parameters, in this order:
    [X-Amz-Algorithm], [X-Amz-Credential], [X-Amz-Date],
    [X-Amz-SignedHeaders], [X-Amz-Signature], and last
    [X-Amz-Security-Token] exactly when the token is not empty.  No
    credential text can add or hide a parameter. *)
Theorem signed_url_parameters
        (endpoint region : string) (credentials : AwsCredentials) (now : Z) :
  exists query : string,
    SigV4.signWebSocketUrl endpoint region credentials now
    = "wss://" ++ endpoint ++ "/mqtt?" ++ query
    /\ Query.names query
       = (["X-Amz-Algorithm"; "X-Amz-Credential"; "X-Amz-Date";
           "X-Amz-SignedHeaders"; "X-Amz-Signature"]
          ++ (if JS.truthy (Token credentials)
              then ["X-Amz-Security-Token"] else []))%list.
Proof.
  set (signed := SigV4.canonicalQueryString region credentials now).
  set (sig := SigV4Steps.signature endpoint region credentials now signed).
  assert (Hsig : all_chars (not_char "&") sig = true).
  { subst sig. unfold SigV4Steps.signature, digest_hex. apply hex_no_amp. }
  exists (signed ++ String "&"
            (("X-Amz-Signature" ++ "=" ++ sig)
             ++ (if JS.truthy (Token credentials)
                 then String "&"
                        ("X-Amz-Security-Token" ++ "="
                         ++ JS.encodeURIComponent (Token credentials))
                 else EmptyString))).
  split.
  - unfold SigV4.signWebSocketUrl. fold signed. fold sig.
    destruct (JS.truthy (Token credentials)).
    + rewrite ?append_assoc. reflexivity.
    + rewrite append_empty_r, ?append_assoc. reflexivity.
  - rewrite names_app. subst signed. rewrite signed_query_names.
    destruct (JS.truthy (Token credentials)).
    + rewrite names_app, !names_of_one; try reflexivity;
        [apply encodeURIComponent_no_amp|exact Hsig].
    + rewrite append_empty_r, names_of_one; try reflexivity. exact Hsig.
Qed.
